(** * OpsPilot task-processing pipeline: a shallow embedding

    The development follows the TypeScript sources:
    - [types.ts]: the enumerations and the records [Task], [AgentLog],
      [IntegrationConfig];
    - [services/geminiService.ts]: the three live "agent" calls and their
      catch blocks;
    - [services/gmailService.ts]: [fetchRecentEmails];
    - [App.tsx]: the React component state (here the record [App]) and the
      handlers that update it: [processTask], the auto-process effect,
      [pollEmails], [handleConnectClick], [toggleAutoSummarize], ...

    React state is threaded explicitly: a handler is a function from the
    component state to the next one.  The [async] handler [processTask] is
    cut where its [try] block starts: the guards and the three state
    updates before it are [processTask_enter], the [try] / [catch] /
    [finally] is [processTask_settle], and [processTask] is the two in a
    row, a run that no other handler interleaves with.  The section "The
    component over time" lets other handlers run in between. *)

From Stdlib Require Import List String Ascii ZArith Bool Lia DecimalString.
Import ListNotations.
Open Scope string_scope.

Set Implicit Arguments.

(** ** JavaScript odds and ends *)

(** Truthiness of a string: the empty string is falsy. *)
Definition truthy (s : string) : bool :=
  match s with
  | EmptyString => false
  | String _ _ => true
  end.

(** Truthiness of an optional string ([undefined] is falsy). *)
Definition truthy_opt (o : option string) : bool :=
  match o with
  | Some s => truthy s
  | None => false
  end.

(** Truthiness of an optional boolean flag. *)
Definition truthy_flag (o : option bool) : bool :=
  match o with
  | Some b => b
  | None => false
  end.

(** [a || b] on strings. *)
Definition or_else (a b : string) : string :=
  if truthy a then a else b.

(** What a template literal prints for an optional string. *)
Definition show_opt (o : option string) : string :=
  match o with
  | Some s => s
  | None => "undefined"
  end.

(** [hay.includes(needle)]. *)
Fixpoint includes (needle hay : string) : bool :=
  if String.prefix needle hay then true
  else match hay with
       | EmptyString => false
       | String _ rest => includes needle rest
       end.

(** The line feed of the template literals. *)
Definition nl : string := String (ascii_of_nat 10) EmptyString.

(** The double quote inside a template literal. *)
Definition dq : string := String (ascii_of_nat 34) EmptyString.

(** A number printed inside a template literal. *)
Definition show_nat (n : nat) : string :=
  NilZero.string_of_uint (Nat.to_uint n).

Definition show_Z (z : Z) : string :=
  NilZero.string_of_int (Z.to_int z).

(** White space as [String.prototype.trim] removes it (the one-byte part). *)
Definition is_space (c : ascii) : bool :=
  let n := nat_of_ascii c in
  (Nat.eqb n 32) || ((Nat.leb 9 n) && (Nat.leb n 13)).

(** [!s.trim()]: only white space, or nothing. *)
Fixpoint blank (s : string) : bool :=
  match s with
  | EmptyString => true
  | String c rest => is_space c && blank rest
  end.

(** An [Error] object: its [name] and its [message]. *)
Record JsError : Type := mkError {
  err_name : string;
  err_message : string
}.

(** [new Error(msg)]. *)
Definition Error (msg : string) : JsError := mkError "Error" msg.

(** [String(err)], that is [Error.prototype.toString]. *)
Definition String_of_error (e : JsError) : string :=
  if negb (truthy (err_name e)) then err_message e
  else if negb (truthy (err_message e)) then err_name e
  else err_name e ++ ": " ++ err_message e.

(** ** types.ts *)

Inductive AgentRole : Type :=
  INPUT | CLASSIFIER | DECISION | EXECUTION | MEMORY.

Inductive TaskStatus : Type :=
  PENDING | PROCESSING | COMPLETED | FAILED.

Inductive TaskPriority : Type := HIGH | MEDIUM | LOW.

Inductive TaskType : Type :=
  ACTION_ITEM | QUESTION | INFORMATIONAL | UNKNOWN.

Inductive Source : Type := SLACK | GMAIL | NOTION.

Inductive OutputType : Type := EMAIL | PRD | SUMMARY | NONE.

Inductive Step : Type := THINKING | ACTION | RESULT.

Definition status_eqb (a b : TaskStatus) : bool :=
  match a, b with
  | PENDING, PENDING | PROCESSING, PROCESSING
  | COMPLETED, COMPLETED | FAILED, FAILED => true
  | _, _ => false
  end.

Definition role_eqb (a b : AgentRole) : bool :=
  match a, b with
  | INPUT, INPUT | CLASSIFIER, CLASSIFIER | DECISION, DECISION
  | EXECUTION, EXECUTION | MEMORY, MEMORY => true
  | _, _ => false
  end.

Definition step_eqb (a b : Step) : bool :=
  match a, b with
  | THINKING, THINKING | ACTION, ACTION | RESULT, RESULT => true
  | _, _ => false
  end.

Definition source_eqb (a b : Source) : bool :=
  match a, b with
  | SLACK, SLACK | GMAIL, GMAIL | NOTION, NOTION => true
  | _, _ => false
  end.

Definition outputType_eqb (a b : OutputType) : bool :=
  match a, b with
  | EMAIL, EMAIL | PRD, PRD | SUMMARY, SUMMARY | NONE, NONE => true
  | _, _ => false
  end.

(** [interface Task].  Optional members are [option]s.  The last field,
    [action], is not declared by the interface: spreading a decision object
    into a task adds it at run time. *)
Record Task : Type := mkTask {
  id : string;
  source : Source;
  rawContent : string;
  sender : string;
  timestamp : Z;
  status : TaskStatus;
  type : option TaskType;
  priority : option TaskPriority;
  summary : option string;
  entities : option (list string);
  nextAction : option string;
  reasoning : option string;
  outputContent : option string;
  outputType : option OutputType;
  action : option string
}.

(** The object the classifier returns. *)
Record Classification : Type := mkClassification {
  c_type : TaskType;
  c_priority : TaskPriority;
  c_summary : string;
  c_entities : list string
}.

(** The object the decision agent returns. *)
Record Decision : Type := mkDecision {
  d_action : string;
  d_reasoning : string;
  d_outputType : OutputType
}.

(** The [data] snapshots that [addLog] is given in [App.tsx]. *)
Inductive LogData : Type :=
| DataClassification (c : option Classification)
| DataDecision (d : Decision)
| DataPreview (preview : string)
| DataError (e : JsError)
| DataContent (content : string)
| DataId (i : string).

(** [interface AgentLog].  The [id] (from [Math.random]) and the
    [timestamp] (from [Date.now]) of an entry carry no information the
    pipeline reads; an entry is its role, message, step and snapshot, and
    the buffer's order is the order of creation. *)
Record AgentLog : Type := mkLog {
  agent : AgentRole;
  message : string;
  step : Step;
  data : option LogData
}.

Inductive ConnectorId : Type := slack | gmail | notion.

Definition connector_eqb (a b : ConnectorId) : bool :=
  match a, b with
  | slack, slack | gmail, gmail | notion, notion => true
  | _, _ => false
  end.

(** [t.source.toLowerCase()]. *)
Definition toLowerCase (s : Source) : ConnectorId :=
  match s with
  | SLACK => slack
  | GMAIL => gmail
  | NOTION => notion
  end.

(** [interface IntegrationConfig]. *)
Record IntegrationConfig : Type := mkIntegration {
  i_id : ConnectorId;
  i_name : string;
  i_description : string;
  isConnected : bool;
  lastSync : option Z;
  connectedAccount : option string;
  autoSummarize : option bool;
  accessToken : option string
}.

(** ** Effects of a pipeline run

    The body of [processTask]'s [try] block appends trace entries, calls the
    live backend and may throw.  [Run A] is the outcome of such a piece of
    code: the entries appended, the live calls issued, and either the error
    thrown or the value produced. *)

(** A request that reached [ai.models.generateContent]. *)
Inductive LiveCall : Type :=
| ClassifierCall
| DecisionCall
| ExecutionCall (prompt : string).

Definition Run (A : Type) : Type :=
  (list AgentLog * list LiveCall) * (JsError + A).

Definition ret {A} (a : A) : Run A := (([], []), inr a).

Definition throw {A} (e : JsError) : Run A := (([], []), inl e).

Definition bind {A B} (m : Run A) (k : A -> Run B) : Run B :=
  match m with
  | (w, inl e) => (w, inl e)
  | ((l1, c1), inr a) =>
      let '((l2, c2), r) := k a in (((l1 ++ l2)%list, (c1 ++ c2)%list), r)
  end.

(** [try { m } catch (e) { h e }]. *)
Definition try_catch {A} (m : Run A) (h : JsError -> Run A) : Run A :=
  match m with
  | ((l1, c1), inl e) =>
      let '((l2, c2), r) := h e in (((l1 ++ l2)%list, (c1 ++ c2)%list), r)
  | (_, inr _) => m
  end.

Declare Scope run_scope.
Delimit Scope run_scope with run.
Notation "x <- m ;; k" := (bind m (fun x => k))
  (at level 61, m at next level, right associativity) : run_scope.
Notation "m ;; k" := (bind m (fun _ => k))
  (at level 61, right associativity) : run_scope.
Open Scope run_scope.

Definition emitted {A} (m : Run A) : list AgentLog := fst (fst m).
Definition calls {A} (m : Run A) : list LiveCall := snd (fst m).
Definition outcome {A} (m : Run A) : JsError + A := snd m.

(** [addLog(agent, message, step, data)], as an effect of a run. *)
Definition addLog (a : AgentRole) (msg : string) (s : Step)
  (d : option LogData) : Run unit :=
  (([mkLog a msg s d], []), inr tt).

(** ** services/geminiService.ts *)

(** What [JSON.parse] makes of a response text.  The response schema asks
    for an object; [JSON.parse] itself checks nothing, and the text [null]
    parses to [null]. *)
Inductive Parsed (A : Type) : Type :=
| SyntaxError (e : JsError)
| Null
| Object (a : A).
Arguments SyntaxError {A} e.
Arguments Null {A}.
Arguments Object {A} a.

(** The behaviour of the backend on one structured request: the call
    throws, or it resolves to a response with an optional [text], which
    [JSON.parse] reads as [parsed]. *)
Inductive Reply (A : Type) : Type :=
| CallThrows (e : JsError)
| Responded (text : option string) (parsed : Parsed A).
Arguments CallThrows {A} e.
Arguments Responded {A} text parsed.

(** The behaviour of the backend on a free-text request. *)
Inductive TextReply : Type :=
| TextThrows (e : JsError)
| TextResponded (text : option string).

(** The replies the backend gives during one run. *)
Record Backend : Type := mkBackend {
  classifier_reply : Reply Classification;
  decision_reply : Reply Decision;
  execution_reply : TextReply
}.

(** [getAI(apiKey)]. *)
Definition getAI (apiKey : string) : Run unit :=
  if negb (truthy apiKey) then throw (Error "API Key not found")
  else ret tt.

(** [await ai.models.generateContent(...)] then [response.text]. *)
Definition generateContent {A} (c : LiveCall) (r : Reply A)
  : Run (option string) :=
  (([], [c]),
   match r with
   | CallThrows e => inl e
   | Responded text _ => inr text
   end).

(** [JSON.parse(text)]; [None] is [null]. *)
Definition JSON_parse {A} (r : Reply A) : Run (option A) :=
  match r with
  | CallThrows e => throw e
  | Responded _ (SyntaxError e) => throw e
  | Responded _ Null => ret None
  | Responded _ (Object a) => ret (Some a)
  end.

(** The classifier's fallback value. *)
Definition classifier_fallback : Classification :=
  mkClassification UNKNOWN MEDIUM "Failed to classify automatically." [].

(** [classifyTaskWithGemini(apiKey, rawContent, sender)].  The two strings
    only fill the prompt. *)
Definition classifyTaskWithGemini (apiKey rawContent sender : string)
  (reply : Reply Classification) : Run (option Classification) :=
  try_catch
    (getAI apiKey ;;
     text <- generateContent ClassifierCall reply ;;
     if negb (truthy_opt text) then throw (Error "No response from Gemini")
     else JSON_parse reply)
    (fun _ => ret (Some classifier_fallback)).

(** The decision agent's fallback value. *)
Definition decision_fallback : Decision :=
  mkDecision "Manual Review Required" "AI processing failed." NONE.

(** [makeDecisionWithGemini(apiKey, task)]. *)
Definition makeDecisionWithGemini (apiKey : string) (task : Task)
  (reply : Reply Decision) : Run (option Decision) :=
  try_catch
    (getAI apiKey ;;
     text <- generateContent DecisionCall reply ;;
     if negb (truthy_opt text) then throw (Error "No response from Gemini")
     else JSON_parse reply)
    (fun _ => ret (Some decision_fallback)).

(** The prompt of the execution agent. *)
Definition execution_prompt (task : Task) : string :=
  match outputType task with
  | Some PRD =>
      "Generate a structured Product Requirement Document (PRD) in Markdown based on this request: "
      ++ dq ++ rawContent task ++ dq
      ++ ". Include Problem, Goals, User Stories, and Tech Stack."
  | Some EMAIL =>
      "Draft a professional, concise follow-up email to " ++ sender task
      ++ " regarding: " ++ dq ++ show_opt (summary task) ++ dq
      ++ ". Use a helpful tone."
  | _ =>
      "Generate a detailed summary and actionable bullet points for this content: "
      ++ dq ++ rawContent task ++ dq
  end.

(** [executeTaskWithGemini(apiKey, task)]. *)
Definition executeTaskWithGemini (apiKey : string) (task : Task)
  (reply : TextReply) : Run string :=
  try_catch
    (getAI apiKey ;;
     (([], [ExecutionCall (execution_prompt task)]),
      match reply with
      | TextThrows e => inl e
      | TextResponded text =>
          inr (match text with
               | Some t => or_else t "No content generated."
               | None => "No content generated."
               end)
      end))
    (fun _ => ret "Error generating content.").

(** ** App.tsx: component state *)

(** The [useState] cells the pipeline reads or writes, and the environment's
    [API_KEY] as [getEnv('API_KEY')] returns it (the empty string when it is
    not set). *)
Record App : Type := mkApp {
  tasks : list Task;
  logs : list AgentLog;
  isProcessing : bool;
  integrations : list IntegrationConfig;
  userApiKey : string;
  env_API_KEY : string;
  selectedTaskId : option string
}.

Definition setTasks (f : list Task -> list Task) (w : App) : App :=
  mkApp (f (tasks w)) (logs w) (isProcessing w) (integrations w)
        (userApiKey w) (env_API_KEY w) (selectedTaskId w).

Definition setLogs (f : list AgentLog -> list AgentLog) (w : App) : App :=
  mkApp (tasks w) (f (logs w)) (isProcessing w) (integrations w)
        (userApiKey w) (env_API_KEY w) (selectedTaskId w).

Definition setIsProcessing (b : bool) (w : App) : App :=
  mkApp (tasks w) (logs w) b (integrations w)
        (userApiKey w) (env_API_KEY w) (selectedTaskId w).

Definition setIntegrations
  (f : list IntegrationConfig -> list IntegrationConfig) (w : App) : App :=
  mkApp (tasks w) (logs w) (isProcessing w) (f (integrations w))
        (userApiKey w) (env_API_KEY w) (selectedTaskId w).

Definition setSelectedTaskId (o : option string) (w : App) : App :=
  mkApp (tasks w) (logs w) (isProcessing w) (integrations w)
        (userApiKey w) (env_API_KEY w) o.

(** The component's [addLog]: [setLogs(prev => [...prev, newLog])]. *)
Definition appendLog (a : AgentRole) (msg : string) (s : Step)
  (d : option LogData) (w : App) : App :=
  setLogs (fun prev => (prev ++ [mkLog a msg s d])%list) w.

(** [tasks.find(t => t.id === taskId)]. *)
Definition find_task (taskId : string) (ts : list Task) : option Task :=
  find (fun t => String.eqb (id t) taskId) ts.

(** [{ ...t, status: s }]. *)
Definition with_status (s : TaskStatus) (t : Task) : Task :=
  mkTask (id t) (source t) (rawContent t) (sender t) (timestamp t) s
         (type t) (priority t) (summary t) (entities t) (nextAction t)
         (reasoning t) (outputContent t) (outputType t) (action t).

(** [{ ...t, outputContent: c }]. *)
Definition with_outputContent (c : option string) (t : Task) : Task :=
  mkTask (id t) (source t) (rawContent t) (sender t) (timestamp t) (status t)
         (type t) (priority t) (summary t) (entities t) (nextAction t)
         (reasoning t) c (outputType t) (action t).

(** [{ ...t, ...classification }]; spreading [null] adds nothing. *)
Definition spread_classification (t : Task) (c : option Classification)
  : Task :=
  match c with
  | None => t
  | Some c =>
      mkTask (id t) (source t) (rawContent t) (sender t) (timestamp t)
             (status t) (Some (c_type c)) (Some (c_priority c))
             (Some (c_summary c)) (Some (c_entities c)) (nextAction t)
             (reasoning t) (outputContent t) (outputType t) (action t)
  end.

(** [{ ...t, ...decision }]. *)
Definition spread_decision (t : Task) (d : Decision) : Task :=
  mkTask (id t) (source t) (rawContent t) (sender t) (timestamp t)
         (status t) (type t) (priority t) (summary t) (entities t)
         (nextAction t) (Some (d_reasoning d)) (outputContent t)
         (Some (d_outputType d)) (Some (d_action d)).

(** [prev.map(t => t.id === taskId ? f t : t)]. *)
Definition update_task (taskId : string) (f : Task -> Task)
  (prev : list Task) : list Task :=
  map (fun t => if String.eqb (id t) taskId then f t else t) prev.

(** ** App.tsx: [processTask] (lines 761-853) *)

(** [userApiKey || getEnv('API_KEY')]. *)
Definition effectiveKey (w : App) : string :=
  or_else (userApiKey w) (env_API_KEY w).

(** Output text of the simulation branch. *)
Definition simulated_output (task : Task) (d : Decision) : string :=
  match d_outputType d with
  | PRD =>
      "# Simulated PRD" ++ nl ++ nl ++ "**Feature**: "
      ++ show_opt (summary task) ++ nl ++ nl ++ "## Overview" ++ nl
      ++ "This is a generated response in simulation mode because a valid Gemini API Key was not detected."
      ++ nl ++ nl ++ "To get real AI responses:" ++ nl
      ++ "1. Go to Settings" ++ nl ++ "2. Enter your Google Gemini API Key"
      ++ nl ++ nl ++ "## Requirements" ++ nl ++ "- [ ] Requirement 1" ++ nl
      ++ "- [ ] Requirement 2"
  | _ =>
      "Subject: Re: " ++ show_opt (summary task) ++ nl ++ nl ++ "Hi there,"
      ++ nl ++ nl
      ++ "This is a simulated email draft generated by OpsPilot in demo mode."
      ++ nl ++ nl
      ++ "Please configure your API Key in Settings to generate real content."
      ++ nl ++ nl ++ "Best," ++ nl ++ "OpsPilot"
  end.

(** Reading [decision.action]: a [TypeError] when [decision] is [null]. *)
Definition read_decision (d : option Decision) : Run Decision :=
  match d with
  | Some d => ret d
  | None =>
      throw (mkError "TypeError"
               "Cannot read properties of null (reading 'action')")
  end.

(** The two branches of the [try] block, which assign [classification],
    [decision] and [output].  [key] is [effectiveKey]; [task] is the object
    that [tasks.find] returned when the handler was entered.  The timers
    ([setTimeout]) only delay. *)
Definition run_branches (key : string) (task : Task) (b : Backend)
  : Run (option Classification * Decision * option string) :=
    (if negb (truthy key) then
       addLog CLASSIFIER "No API Key available. Running in SIMULATION mode."
              THINKING None ;;
       let classification :=
         mkClassification ACTION_ITEM HIGH
           ("[Simulated] " ++ substring 0 50 (rawContent task) ++ "...")
           ["Simulation"; "Demo"] in
       addLog CLASSIFIER "Classification complete (Simulated)" RESULT
              (Some (DataClassification (Some classification))) ;;
       let decision :=
         mkDecision "Draft Content"
           "Simulated decision based on missing API key."
           (if source_eqb (source task) GMAIL then EMAIL else PRD) in
       addLog DECISION
              ("Decision made: " ++ d_action decision ++ " (Simulated)")
              ACTION (Some (DataDecision decision)) ;;
       let output := simulated_output task decision in
       addLog EXECUTION "Content generated successfully (Simulated)" RESULT
              (Some (DataPreview "...")) ;;
       ret (Some classification, decision, Some output)
     else
       addLog CLASSIFIER "Analyzing message intent and entities..."
              THINKING None ;;
       classification <-
         classifyTaskWithGemini key (rawContent task) (sender task)
                                (classifier_reply b) ;;
       addLog CLASSIFIER "Classification complete" RESULT
              (Some (DataClassification classification)) ;;
       let updatedTaskForDecision :=
         spread_classification task classification in
       addLog MEMORY "Checking context and previous constraints..."
              THINKING None ;;
       addLog MEMORY "No conflicting blocking constraints found."
              RESULT None ;;
       addLog DECISION "Determining optimal execution path..."
              THINKING None ;;
       decision <-
         makeDecisionWithGemini key updatedTaskForDecision
                                (decision_reply b) ;;
       decision <- read_decision decision ;;
       addLog DECISION ("Decision made: " ++ d_action decision) ACTION
              (Some (DataDecision decision)) ;;
       if negb (outputType_eqb (d_outputType decision) NONE) then
         addLog EXECUTION
                ("Executing action: " ++ d_action decision ++ "...")
                ACTION None ;;
         let decidedTask :=
           spread_decision updatedTaskForDecision decision in
         output <-
           executeTaskWithGemini key decidedTask (execution_reply b) ;;
         addLog EXECUTION "Content generated successfully" RESULT
                (Some (DataPreview (substring 0 100 output ++ "..."))) ;;
         ret (classification, decision, Some output)
       else
         addLog EXECUTION
                "No content generation required. Updating records."
                ACTION None ;;
         ret (classification, decision, None)).

(** [{ ...task, ...classification, ...decision, outputContent: output,
      status: TaskStatus.COMPLETED }]. *)
Definition finalTask (task : Task) (classification : option Classification)
  (decision : Decision) (output : option string) : Task :=
  with_status COMPLETED
    (with_outputContent output
       (spread_decision (spread_classification task classification)
                        decision)).

(** The [try] block up to the construction of [finalTask]. *)
Definition run_stages (key : string) (task : Task) (b : Backend)
  : Run Task :=
  results <- run_branches key task b ;;
  let '(classification, decision, output) := results in
  ret (finalTask task classification decision output).


(** A run suspended at an [await]: what its closure holds. *)
Record Suspended : Type := mkSuspended {
  s_taskId : string;
  s_task : Task;
  s_key : string
}.

(** [processTask(taskId)] up to where the [try] block starts: the two
    guards, then the three state updates.  [None] is an early [return]. *)
Definition processTask_enter (taskId : string) (w : App)
  : option (Suspended * App) :=
  match find_task taskId (tasks w) with
  | None => None
  | Some task =>
      if status_eqb (status task) PROCESSING
         || status_eqb (status task) COMPLETED
      then None
      else
        Some (mkSuspended taskId task (effectiveKey w),
              setTasks (update_task taskId (with_status PROCESSING))
                (setLogs (fun _ => [])
                   (setIsProcessing true w)))
  end.

(** The [try] / [catch] / [finally] of [processTask], applied to the
    component state in which the run finishes.  The entries a run adds
    between its [await]s are appended here in their order. *)
Definition processTask_settle (r : Suspended) (b : Backend) (w : App) : App :=
  let m := run_stages (s_key r) (s_task r) b in
  let w1 := setLogs (fun prev => (prev ++ emitted m)%list) w in
  let w2 :=
    match outcome m with
    | inr finalTask =>
        appendLog MEMORY "Task lifecycle completed. State updated." RESULT
          None
          (setTasks (update_task (s_taskId r) (fun _ => finalTask)) w1)
    | inl e =>
        setTasks (update_task (s_taskId r) (with_status FAILED))
          (appendLog EXECUTION "Critical Failure in processing chain" RESULT
             (Some (DataError e)) w1)
    end in
  setIsProcessing false w2.

(** A call of [processTask] that nothing interleaves with. *)
Definition processTask (taskId : string) (b : Backend) (w : App) : App :=
  match processTask_enter taskId w with
  | None => w
  | Some (r, w1) => processTask_settle r b w1
  end.

(** ** App.tsx: the auto-process effect (lines 856-865) *)

Definition find_integration (c : ConnectorId) (l : list IntegrationConfig)
  : option IntegrationConfig :=
  find (fun i => connector_eqb (i_id i) c) l.

(** [tasks.find(t => t.status === PENDING &&
      integrations.find(i => i.id === t.source.toLowerCase())?.autoSummarize)]. *)
Definition pendingAutoTask (w : App) : option Task :=
  find (fun t =>
          status_eqb (status t) PENDING
          && match find_integration (toLowerCase (source t))
                                    (integrations w) with
             | Some i => truthy_flag (autoSummarize i)
             | None => false
             end)
       (tasks w).

(** The identifier the effect submits to [processTask], if any. *)
Definition autoProcess (w : App) : option string :=
  match pendingAutoTask w with
  | Some t => if negb (isProcessing w) then Some (id t) else None
  | None => None
  end.

(** The "Auto-Execute" button (lines 1147-1156): it is rendered when the
    selected task is PENDING and is disabled while [isProcessing]; a click
    submits the selected task. *)
Definition runButton (w : App) : option string :=
  match selectedTaskId w with
  | Some sel =>
      match find_task sel (tasks w) with
      | Some selectedTask =>
          if status_eqb (status selectedTask) PENDING
             && negb (isProcessing w)
          then Some (id selectedTask)
          else None
      | None => None
      end
  | None => None
  end.

(** ** App.tsx, first revision: [processTask] (lines 60-110) *)

Module Rev1.

Record App : Type := mkApp {
  tasks : list Task;
  logs : list AgentLog;
  isProcessing : bool
}.

(** Lines 61-68: the guard [if (!task || isProcessing) return], then
    [setIsProcessing(true)], [setLogs([])] and the status update. *)
Definition processTask_enter (taskId : string) (w : App)
  : option (Task * App) :=
  match find_task taskId (tasks w) with
  | None => None
  | Some task =>
      if isProcessing w then None
      else
        Some (task,
              mkApp (update_task taskId (with_status PROCESSING) (tasks w))
                    [] true)
  end.

End Rev1.

(** ** App.tsx: the connector registry (lines 580-638) *)

(** [prev.map(int => int.id === c ? f int : int)]. *)
Definition update_integration (c : ConnectorId)
  (f : IntegrationConfig -> IntegrationConfig)
  (prev : list IntegrationConfig) : list IntegrationConfig :=
  map (fun int => if connector_eqb (i_id int) c then f int else int) prev.

Definition show_connector (c : ConnectorId) : string :=
  match c with
  | slack => "slack"
  | gmail => "gmail"
  | notion => "notion"
  end.

Definition show_source (s : Source) : string :=
  match s with
  | SLACK => "SLACK"
  | GMAIL => "GMAIL"
  | NOTION => "NOTION"
  end.

(** The initial value of the [integrations] cell. *)
Definition initial_integrations : list IntegrationConfig :=
  [ mkIntegration slack "Slack"
      "Listen to engineering and product channels."
      false None None (Some false) None;
    mkIntegration gmail "Gmail" "Monitor support and info inboxes."
      false None None (Some false) None;
    mkIntegration notion "Notion"
      "Watch for new pages in Product Workspace."
      false None None (Some false) None ].

(** [handleGmailAuthSuccess(accessToken)]; [now] is [Date.now()]. *)
Definition handleGmailAuthSuccess (token : string) (now : Z) (w : App)
  : App :=
  appendLog INPUT "System: Gmail OAuth Successful. Connected to real API."
    RESULT None
    (setIntegrations
       (update_integration gmail
          (fun int =>
             mkIntegration (i_id int) (i_name int) (i_description int)
               true (Some now) (Some "Authenticated User")
               (autoSummarize int) (Some token)))
       w).

(** The record the disconnect branch writes. *)
Definition disconnected (int : IntegrationConfig) : IntegrationConfig :=
  mkIntegration (i_id int) (i_name int) (i_description int)
    false (lastSync int) None (Some false) None.

(** [handleConnectClick(id)].  On a connector that is not connected the
    handler asks for a token or opens the authentication dialog, and leaves
    the registry as it is. *)
Definition handleConnectClick (c : ConnectorId) (w : App) : App :=
  match find_integration c (integrations w) with
  | Some integration =>
      if isConnected integration then
        appendLog INPUT
          ("System: Disconnected " ++ i_name integration ++ " connector.")
          ACTION None
          (setIntegrations (update_integration c disconnected) w)
      else w
  | None => w
  end.

(** [toggleAutoSummarize(id)]. *)
Definition toggleAutoSummarize (c : ConnectorId) (w : App) : App :=
  setIntegrations
    (update_integration c
       (fun int =>
          mkIntegration (i_id int) (i_name int) (i_description int)
            (isConnected int) (lastSync int) (connectedAccount int)
            (Some (negb (truthy_flag (autoSummarize int))))
            (accessToken int)))
    w.

(** [confirmConnection()], with the dialog's [integrationId] and
    [authInput]. *)
Definition confirmConnection (integrationId : option ConnectorId)
  (authInput : string) (now : Z) (w : App) : App :=
  match integrationId with
  | None => w
  | Some c =>
      if negb (truthy authInput) then w
      else
        appendLog INPUT
          ("System: Connected " ++ show_connector c ++ " account: "
           ++ authInput)
          RESULT None
          (setIntegrations
             (update_integration c
                (fun int =>
                   mkIntegration (i_id int) (i_name int) (i_description int)
                     true (Some now) (Some authInput)
                     (autoSummarize int) (accessToken int)))
             w)
  end.

(** ** services/gmailService.ts *)

Record GmailMessage : Type := mkGmailMessage {
  m_id : string;
  threadId : string;
  labelIds : list string;
  snippet : string;
  internalDate : string;
  subject : string;
  from : string
}.

(** What [fetchRecentEmails] meets: [fetch] rejects (or a later step
    throws), or the list request is answered with a status line;
    [messages] are the mailbox's messages in the clean format of step 3,
    as the detail requests deliver them when the list request succeeded. *)
Inductive ListOutcome : Type :=
| FetchRejected (e : JsError)
| HttpResponse (status : Z) (statusText : string)
    (messages : list GmailMessage).

(** [Response.ok]: the status is in the range 200-299. *)
Definition response_ok (status : Z) : bool :=
  (200 <=? status)%Z && (status <=? 299)%Z.

(** [fetchRecentEmails(accessToken)]: the list of messages, or the error
    it rethrows. *)
Definition fetchRecentEmails (token : string) (r : ListOutcome)
  : JsError + list GmailMessage :=
  match r with
  | FetchRejected e => inl e
  | HttpResponse status statusText messages =>
      if negb (response_ok status) then
        inl (Error ("Gmail API List Error: " ++ statusText))
      else inr messages
  end.

(** ** App.tsx: polling the mailbox (lines 503-550) *)

Section Polling.

(** The built-in [parseInt]; [None] is [NaN]. *)
Variable parseInt : string -> option Z.

(** [parseInt(email.internalDate) || Date.now()]. *)
Definition received_at (now : Z) (email : GmailMessage) : Z :=
  match parseInt (internalDate email) with
  | Some n => if (n =? 0)%Z then now else n
  | None => now
  end.

(** The task pushed for a message. *)
Definition gmail_task (now : Z) (email : GmailMessage) : Task :=
  mkTask ("gmail-" ++ m_id email) GMAIL
    ("Subject: " ++ subject email ++ nl ++ nl ++ snippet email ++ "...")
    (from email) (received_at now email) PENDING (Some UNKNOWN)
    None None None None None None None None.

(** [!prevTasks.find(t => t.id === `gmail-${email.id}`)]. *)
Definition unseen (prevTasks : list Task) (email : GmailMessage) : bool :=
  match find_task ("gmail-" ++ m_id email) prevTasks with
  | Some _ => false
  | None => true
  end.

(** The [newTasks] array that the [forEach] fills. *)
Definition newTasks (now : Z) (emails : list GmailMessage)
  (prevTasks : list Task) : list Task :=
  map (gmail_task now) (filter (unseen prevTasks) emails).

(** The updater handed to [setTasks]. *)
Definition ingest (now : Z) (emails : list GmailMessage)
  (prevTasks : list Task) : list Task :=
  match newTasks now emails prevTasks with
  | [] => prevTasks
  | nts => (nts ++ prevTasks)%list
  end.

(** [pollEmails()], for the token the effect captured. *)
Definition pollEmails (token : string) (now : Z) (r : ListOutcome)
  (w : App) : App :=
  match fetchRecentEmails token r with
  | inr emails =>
      match newTasks now emails (tasks w) with
      | [] => w
      | nts =>
          appendLog INPUT
            ("Gmail API: Fetched " ++ show_nat (List.length nts)
             ++ " new real emails")
            ACTION None
            (setTasks (ingest now emails) w)
      end
  | inl err =>
      if includes "401" (String_of_error err) then
        setIntegrations
          (update_integration gmail
             (fun i =>
                mkIntegration (i_id i) (i_name i) (i_description i)
                  false (lastSync i) (connectedAccount i)
                  (autoSummarize i) None))
          (appendLog INPUT "Gmail Auth expired. Please reconnect." RESULT
             None w)
      else w
  end.

(** [integrations.find(i => i.id === 'gmail' && i.isConnected &&
    i.accessToken)]. *)
Definition gmailIntegration (w : App) : option IntegrationConfig :=
  find (fun i => connector_eqb (i_id i) gmail && isConnected i
                 && truthy_opt (accessToken i))
       (integrations w).

(** One tick of the polling effect: nothing unless a connected Gmail
    integration with a token exists. *)
Definition pollTick (now : Z) (r : ListOutcome) (w : App) : App :=
  match gmailIntegration w with
  | Some i =>
      match accessToken i with
      | Some token => pollEmails token now r w
      | None => w
      end
  | None => w
  end.

End Polling.

(** ** App.tsx: the other writers of the task store *)

(** The task [StreamService.generateRandomTask] builds: [high] is the draw
    [Math.random() > 0.6]. *)
Definition stream_task (src : Source) (from_ content : string) (high : bool)
  (now : Z) : Task :=
  mkTask ("stream-" ++ show_Z now) src content from_ now PENDING
    None (Some (if high then HIGH else MEDIUM)) None None None None None
    None None.

(** The subscription callback (lines 474-477). *)
Definition onStreamTask (newTask : Task) (w : App) : App :=
  appendLog INPUT
    ("Stream Event: New signal from " ++ show_source (source newTask))
    ACTION (Some (DataId (id newTask)))
    (setTasks (fun prev => newTask :: prev) w).

(** The task [handleManualDispatch] builds. *)
Definition manual_task (src : Source) (content : string) (now : Z) : Task :=
  mkTask ("manual-" ++ show_Z now) src content
    (match src with
     | SLACK => "Demo User"
     | GMAIL => "demo@example.com"
     | NOTION => "Notion Bot"
     end)
    now PENDING (Some UNKNOWN) None None None None None None None None.

(** [handleManualDispatch()], with the dialog's content and source. *)
Definition handleManualDispatch (content : string) (src : Source) (now : Z)
  (w : App) : App :=
  if blank content then w
  else
    let newTask := manual_task src content now in
    appendLog INPUT
      ("Manual Dispatch: Received custom signal from " ++ show_source src)
      ACTION (Some (DataContent (rawContent newTask)))
      (setSelectedTaskId (Some (id newTask))
         (setTasks (fun prev => newTask :: prev) w)).

(** [handleSaveEdit()], with the edited text. *)
Definition handleSaveEdit (editedContent : string) (w : App) : App :=
  match selectedTaskId w with
  | Some sel =>
      if negb (truthy sel) then w
      else
        appendLog INPUT "User manually updated the generated content."
          ACTION None
          (setTasks
             (update_task sel (with_outputContent (Some editedContent))) w)
  | None => w
  end.

(** [INITIAL_TASK]; [now] is the [Date.now()] of module load. *)
Definition INITIAL_TASK (now : Z) : Task :=
  mkTask "task-1" SLACK
    "Hey OpsPilot, we need a PRD for the new 'Dark Mode' feature for the mobile app. It needs to support system preferences and have a toggle in settings. Priority is High."
    "Sarah (Product Lead)" now PENDING
    None None None None None None None None None.

(** The component state at mount. *)
Definition initial_App (now : Z) (userKey envKey : string) : App :=
  mkApp [INITIAL_TASK now] [] false initial_integrations userKey envKey None.

(** ** The component over time

    Handlers run one at a time; a run of [processTask] is suspended at its
    [await]s while other handlers run.  [Sys] is the component state
    together with the suspended runs; an [Event] is the next thing that
    happens.  The bulk [clearHistory] is not among them. *)

Record Sys : Type := mkSys {
  app : App;
  inflight : list Suspended
}.

Inductive Event : Type :=
| Submit (taskId : string)
| RunButton
| AutoProcess
| Settle (n : nat) (b : Backend)
| StreamTask (src : Source) (from_ content : string) (high : bool) (now : Z)
| ManualDispatch (content : string) (src : Source) (now : Z)
| PollTick (now : Z) (r : ListOutcome)
| Select (sel : option string)
| SaveEdit (editedContent : string)
| ConnectClick (c : ConnectorId)
| ToggleAuto (c : ConnectorId)
| ConfirmConnection (c : option ConnectorId) (authInput : string) (now : Z)
| GmailAuthSuccess (token : string) (now : Z).

(** The list without its [n]-th element. *)
Fixpoint drop_nth {A} (n : nat) (l : list A) : list A :=
  match l, n with
  | [], _ => []
  | _ :: l', O => l'
  | x :: l', S n' => x :: drop_nth n' l'
  end.

(** A call [processTask(taskId)]: when it gets past the guards, the run is
    suspended at its first [await]. *)
Definition submit (taskId : string) (s : Sys) : Sys :=
  match processTask_enter taskId (app s) with
  | Some (r, w) => mkSys w (r :: inflight s)
  | None => s
  end.

(** The events in which [processTask] is called by the component itself;
    [Submit] is a call from anywhere else. *)
Definition via_callers (e : Event) : bool :=
  match e with
  | Submit _ => false
  | _ => true
  end.

Section Timeline.

Variable parseInt : string -> option Z.

(** The effect of an event.  [Settle n b] resumes the [n]-th suspended
    run and takes it to its end against the replies [b]. *)
Definition fire (s : Sys) (e : Event) : Sys :=
  match e with
  | Submit taskId => submit taskId s
  | RunButton =>
      match runButton (app s) with
      | Some taskId => submit taskId s
      | None => s
      end
  | AutoProcess =>
      match autoProcess (app s) with
      | Some taskId => submit taskId s
      | None => s
      end
  | Settle n b =>
      match nth_error (inflight s) n with
      | Some r =>
          mkSys (processTask_settle r b (app s)) (drop_nth n (inflight s))
      | None => s
      end
  | StreamTask src from_ content high now =>
      mkSys (onStreamTask (stream_task src from_ content high now) (app s))
            (inflight s)
  | ManualDispatch content src now =>
      mkSys (handleManualDispatch content src now (app s)) (inflight s)
  | PollTick now r =>
      mkSys (pollTick parseInt now r (app s)) (inflight s)
  | Select sel => mkSys (setSelectedTaskId sel (app s)) (inflight s)
  | SaveEdit c => mkSys (handleSaveEdit c (app s)) (inflight s)
  | ConnectClick c => mkSys (handleConnectClick c (app s)) (inflight s)
  | ToggleAuto c => mkSys (toggleAutoSummarize c (app s)) (inflight s)
  | ConfirmConnection c a now =>
      mkSys (confirmConnection c a now (app s)) (inflight s)
  | GmailAuthSuccess token now =>
      mkSys (handleGmailAuthSuccess token now (app s)) (inflight s)
  end.

Fixpoint nodupb (l : list string) : bool :=
  match l with
  | [] => true
  | x :: l' => negb (existsb (String.eqb x) l') && nodupb l'
  end.

Definition absent (taskId : string) (s : Sys) : bool :=
  match find_task taskId (tasks (app s)) with
  | Some _ => false
  | None => true
  end.

(** What is assumed of the environment: an identifier made from the
    clock ([stream-<now>], [manual-<now>]) is not one already stored, and
    one listing of the mailbox names no message twice. *)
Definition plausible (s : Sys) (e : Event) : bool :=
  match e with
  | StreamTask _ _ _ _ now => absent ("stream-" ++ show_Z now) s
  | ManualDispatch _ _ now => absent ("manual-" ++ show_Z now) s
  | PollTick _ (HttpResponse _ _ messages) => nodupb (map m_id messages)
  | _ => true
  end.

(** The state after a sequence of events. *)
Fixpoint after (s : Sys) (es : list Event) : Sys :=
  match es with
  | [] => s
  | e :: es' => after (fire s e) es'
  end.

Fixpoint plausible_all (s : Sys) (es : list Event) : bool :=
  match es with
  | [] => true
  | e :: es' => plausible s e && plausible_all (fire s e) es'
  end.

End Timeline.

(** The system at mount: nothing in flight. *)
Definition initial_Sys (now : Z) (userKey envKey : string) : Sys :=
  mkSys (initial_App now userKey envKey) [].

(** ** Lifecycle relations on statuses *)

(** The chain of the specification: PENDING to PROCESSING, PROCESSING to
    COMPLETED or FAILED, and nothing else (a status may stay as it is). *)
Definition chain (a b : TaskStatus) : bool :=
  match a, b with
  | PENDING, PENDING | PENDING, PROCESSING
  | PROCESSING, PROCESSING | PROCESSING, COMPLETED | PROCESSING, FAILED
  | COMPLETED, COMPLETED
  | FAILED, FAILED => true
  | _, _ => false
  end.

(** The chain with the retry edge FAILED to PROCESSING. *)
Definition chain_with_retry (a b : TaskStatus) : bool :=
  chain a b
  || match a, b with
     | FAILED, PROCESSING => true
     | _, _ => false
     end.

(** * The rest of the code *)

(** ** services/streamService.ts *)

Module StreamService.

(** An entry of a message pool. *)
Record Template : Type := mkTemplate {
  t_sender : string;
  t_content : string
}.

Definition SLACK_MESSAGES : list Template :=
  [ mkTemplate "Dave (DevOps)"
      "The production database CPU is spiking at 95%. Can you check the logs?";
    mkTemplate "Sarah (Product)"
      "We need a one-pager for the Q3 roadmap feature set. Priority is high.";
    mkTemplate "Mike (Sales)"
      "Client X is asking if we support SSO integration yet. Do we have documentation?";
    mkTemplate "AlertBot" "[CRITICAL] Payment gateway latency > 500ms.";
    mkTemplate "Jasmine (Frontend)"
      "The new dashboard layout is breaking on mobile. Need a quick fix or rollback decision.";
    mkTemplate "Greg (Security)"
      "Did we approve the new dependency for the auth service? I'm seeing a flag." ].

Definition GMAIL_EMAILS : list Template :=
  [ mkTemplate "client@enterprise.com"
      "Subject: Urgent: Invoice #342 discrepancy. Please review attached PDF.";
    mkTemplate "recruiting@agency.com"
      "Subject: Candidate profiles for the Senior Engineer role.";
    mkTemplate "support@cloud.com"
      "Subject: Maintenance Window Scheduled for Oct 12th.";
    mkTemplate "legal@partner.com"
      "Subject: Terms of Service Update - Action Required." ].

(** The fields of the service.  A callback is known by its identity, here
    a number; [activeConnectors] is a [Set<string>], kept as the list of
    its members in insertion order. *)
Record State : Type := mkState {
  subscribers : list nat;
  activeConnectors : list string
}.

(** The service as constructed. *)
Definition initial : State := mkState [] [].

(** [Set.prototype.add]. *)
Definition set_add (x : string) (s : list string) : list string :=
  if existsb (String.eqb x) s then s else (s ++ [x])%list.

(** [Set.prototype.delete]. *)
Definition set_delete (x : string) (s : list string) : list string :=
  filter (fun y => negb (String.eqb y x)) s.

Definition activateConnector (c : string) (st : State) : State :=
  mkState (subscribers st) (set_add c (activeConnectors st)).

Definition deactivateConnector (c : string) (st : State) : State :=
  mkState (subscribers st) (set_delete c (activeConnectors st)).

(** [subscribe(callback)]: the callback is pushed. *)
Definition subscribe (cb : nat) (st : State) : State :=
  mkState (subscribers st ++ [cb])%list (activeConnectors st).

(** The function [subscribe] returns:
    [subscribers.filter(cb => cb !== callback)]. *)
Definition unsubscribe (cb : nat) (st : State) : State :=
  mkState (filter (fun c => negb (Nat.eqb c cb)) (subscribers st))
          (activeConnectors st).

(** The calls of [Math.random] in one tick.  An index is
    [Math.floor(Math.random() * length)], a number below [length]. *)
Record Draws : Type := mkDraws {
  fires : bool;
  connector_index : nat;
  template_index : nat;
  high_priority : bool
}.

(** [c === 'slack' || c === 'gmail']. *)
Definition valid_connector (c : string) : bool :=
  String.eqb c "slack" || String.eqb c "gmail".

(** [generateRandomTask()] up to [notify]: the task built, if any.  An
    index that is not below the length cannot be drawn; the model builds
    no task for it. *)
Definition generateRandomTask (d : Draws) (now : Z) (st : State)
  : option Task :=
  match activeConnectors st with
  | [] => None
  | connectors =>
      let validConnectors := filter valid_connector connectors in
      match nth_error validConnectors (connector_index d) with
      | None => None
      | Some randomConnector =>
          let pool := if String.eqb randomConnector "slack"
                      then SLACK_MESSAGES else GMAIL_EMAILS in
          let src := if String.eqb randomConnector "slack"
                     then SLACK else GMAIL in
          match nth_error pool (template_index d) with
          | None => None
          | Some template =>
              Some (stream_task src (t_sender template) (t_content template)
                      (high_priority d) now)
          end
      end
  end.

(** [notify(task)]: each registered callback is called with the task, in
    the order of registration. *)
Definition notify (task : Task) (st : State) : list (nat * Task) :=
  map (fun cb => (cb, task)) (subscribers st).

(** One tick of the loop of [startLoop]: the calls made to callbacks. *)
Definition tick (d : Draws) (now : Z) (st : State) : list (nat * Task) :=
  if Nat.eqb (List.length (activeConnectors st)) 0 then []
  else if fires d then
    match generateRandomTask d now st with
    | Some task => notify task st
    | None => []
    end
  else [].

End StreamService.

(** ** App.tsx: the effects around the stream service (lines 428-500) *)

(** The effect "API Key Check & Auto-Simulation": the value it gives to
    [simulationEnabled]. *)
Definition simulationEnabled (w : App) : bool :=
  negb (truthy (env_API_KEY w)) && negb (truthy (userApiKey w)).

(** One step of the [forEach] of the effect "Update Stream Service when
    integrations change". *)
Definition syncConnector (integration : IntegrationConfig)
  (st : StreamService.State) : StreamService.State :=
  if isConnected integration then
    if connector_eqb (i_id integration) gmail
       && truthy_opt (accessToken integration)
    then StreamService.deactivateConnector "gmail" st
    else StreamService.activateConnector
           (show_connector (i_id integration)) st
  else StreamService.deactivateConnector
         (show_connector (i_id integration)) st.

(** The effect itself. *)
Definition syncStreamService (ints : list IntegrationConfig)
  (st : StreamService.State) : StreamService.State :=
  fold_left (fun st integration => syncConnector integration st) ints st.

(** The component's callback, as the service knows it. *)
Definition app_callback : nat := 0.

(** The effect "Real-time Stream Subscription" for a value of
    [simulationEnabled]: it subscribes the callback when the value is
    true. *)
Definition subscriptionEffect (enabled : bool) (st : StreamService.State)
  : StreamService.State :=
  if enabled then StreamService.subscribe app_callback st else st.

(** The cleanup the effect returned: nothing when it returned early. *)
Definition subscriptionCleanup (enabled : bool) (st : StreamService.State)
  : StreamService.State :=
  if enabled then StreamService.unsubscribe app_callback st else st.

(** [simulationEnabled] changes from [before] to [after]: the cleanup of
    the last run of the effect, then the effect again. *)
Definition rerunSubscription (before after : bool)
  (st : StreamService.State) : StreamService.State :=
  subscriptionEffect after (subscriptionCleanup before st).



(** ** services/gmailService.ts: [fetchRecentEmails] step by step *)

(** A header of a message payload. *)
Record Header : Type := mkHeader {
  h_name : string;
  h_value : option string
}.

(** What a detail response parses to: the fields [fetchRecentEmails]
    reads.  [raw_payload] is [None] when the body has no [payload] (an
    error body), [Some None] when the payload has no [headers]. *)
Record RawEmail : Type := mkRawEmail {
  raw_id : string;
  raw_threadId : string;
  raw_labelIds : list string;
  raw_snippet : string;
  raw_internalDate : string;
  raw_payload : option (option (list Header))
}.

(** A detail request: [fetch] rejects, the body is not JSON, or a body is
    parsed. *)
Inductive DetailOutcome : Type :=
| DetailRejected (e : JsError)
| DetailUnparsed (e : JsError)
| DetailBody (raw : RawEmail).

(** The list request: [fetch] rejects, or a response arrives whose body is
    not JSON, has no [messages], or lists message ids. *)
Inductive ListReply : Type :=
| ListRejected (e : JsError)
| ListResponded (status : Z) (statusText : string)
    (body : JsError + option (list string)).

(** [headers.find(h => h.name === name)?.value || fallback]. *)
Definition header_value (name fallback : string) (headers : list Header)
  : string :=
  match find (fun h => String.eqb (h_name h) name) headers with
  | Some h =>
      match h_value h with
      | Some v => or_else v fallback
      | None => fallback
      end
  | None => fallback
  end.

(** The function mapped over the emails in step 3; reading
    [email.payload.headers] throws when there is no payload. *)
Definition clean (email : RawEmail) : JsError + GmailMessage :=
  match raw_payload email with
  | None =>
      inl (mkError "TypeError"
             "Cannot read properties of undefined (reading 'headers')")
  | Some hs =>
      let headers := match hs with Some l => l | None => [] end in
      inr (mkGmailMessage (raw_id email) (raw_threadId email)
             (raw_labelIds email) (raw_snippet email)
             (raw_internalDate email)
             (header_value "Subject" "(No Subject)" headers)
             (header_value "From" "Unknown Sender" headers))
  end.

(** [emails.map(clean)], stopping at the first error thrown. *)
Fixpoint clean_all (emails : list RawEmail) : JsError + list GmailMessage :=
  match emails with
  | [] => inr []
  | email :: rest =>
      match clean email with
      | inl e => inl e
      | inr m =>
          match clean_all rest with
          | inl e => inl e
          | inr ms => inr (m :: ms)
          end
      end
  end.

(** Step 2: one request per listed id.  A rejected [fetch] is caught and
    gives [null]; a body that is not JSON rejects the whole
    [Promise.all].  (When several bodies fail to parse, which error
    surfaces is a matter of timing; the model takes the first in list
    order.) *)
Fixpoint fetch_details (detail : string -> DetailOutcome)
  (ids : list string) : JsError + list (option RawEmail) :=
  match ids with
  | [] => inr []
  | i :: rest =>
      match detail i, fetch_details detail rest with
      | DetailUnparsed e, _ => inl e
      | _, inl e => inl e
      | DetailRejected _, inr l => inr (None :: l)
      | DetailBody raw, inr l => inr (Some raw :: l)
      end
  end.

(** [emails.filter(email => email !== null)]. *)
Fixpoint non_null {A} (l : list (option A)) : list A :=
  match l with
  | [] => []
  | Some a :: rest => a :: non_null rest
  | None :: rest => non_null rest
  end.

(** [fetchRecentEmails(accessToken)], all three steps. *)
Definition fetchRecentEmails_steps (token : string) (r : ListReply)
  (detail : string -> DetailOutcome) : JsError + list GmailMessage :=
  match r with
  | ListRejected e => inl e
  | ListResponded status statusText body =>
      if negb (response_ok status) then
        inl (Error ("Gmail API List Error: " ++ statusText))
      else
        match body with
        | inl e => inl e
        | inr None => inr []
        | inr (Some []) => inr []
        | inr (Some ids) =>
            match fetch_details detail ids with
            | inl e => inl e
            | inr emails => clean_all (non_null emails)
            end
        end
  end.

(** The same exchange as [pollEmails] meets it. *)
Definition observed (token : string) (r : ListReply)
  (detail : string -> DetailOutcome) : ListOutcome :=
  match r with
  | ListRejected e => FetchRejected e
  | ListResponded status statusText _ =>
      match fetchRecentEmails_steps token r detail with
      | inl e =>
          if negb (response_ok status) then HttpResponse status statusText []
          else FetchRejected e
      | inr messages => HttpResponse status statusText messages
      end
  end.

(** ** App.tsx: the remaining handlers of the task store *)


(** The list [renderDocuments] shows:
    [tasks.filter(t => t.status === COMPLETED && t.outputContent)]. *)
Definition documents (w : App) : list Task :=
  filter (fun t => status_eqb (status t) COMPLETED
                   && truthy_opt (outputContent t))
         (tasks w).

(** [handleStartEdit(task)]: the value given to [editedContent],
    [task.outputContent || '']. *)
Definition handleStartEdit (task : Task) : string :=
  match outputContent task with
  | Some c => c
  | None => EmptyString
  end.

(** [setUserApiKey]. *)
Definition setUserApiKey (k : string) (w : App) : App :=
  mkApp (tasks w) (logs w) (isProcessing w) (integrations w)
        k (env_API_KEY w) (selectedTaskId w).

(** The initial value of [userApiKey]:
    [localStorage.getItem('ops_pilot_api_key') || '']; the argument is the
    stored item, if any. *)
Definition stored_userApiKey (item : option string) : string :=
  match item with
  | Some v => v
  | None => EmptyString
  end.

(** [handleApiKeyChange(e)]: the component state and the stored item
    after it. *)
Definition handleApiKeyChange (newVal : string) (w : App)
  : App * option string :=
  (setUserApiKey newVal w, Some newVal).

(** ** App.tsx, first and third revisions: the run of [processTask]

    These revisions call the earlier agent functions, which take the key
    from [process.env.API_KEY] and are the current ones otherwise; there
    is no simulation branch. *)

(** The [try] block (lines 70-102 and 2252-2279) up to the task that
    finalization stores, [{ ...decidedTask, status: COMPLETED }]. *)
Definition earlier_run_stages (envKey : string) (task : Task) (b : Backend)
  : Run Task :=
  addLog CLASSIFIER "Analyzing message intent and entities..."
         THINKING None ;;
  classification <-
    classifyTaskWithGemini envKey (rawContent task) (sender task)
                           (classifier_reply b) ;;
  addLog CLASSIFIER "Classification complete" RESULT
         (Some (DataClassification classification)) ;;
  let updatedTask := spread_classification task classification in
  addLog MEMORY "Checking context and previous constraints..."
         THINKING None ;;
  addLog MEMORY "No conflicting blocking constraints found." RESULT None ;;
  addLog DECISION "Determining optimal execution path..." THINKING None ;;
  decision <- makeDecisionWithGemini envKey updatedTask (decision_reply b) ;;
  decision <- read_decision decision ;;
  addLog DECISION ("Decision made: " ++ d_action decision) ACTION
         (Some (DataDecision decision)) ;;
  let decidedTask := spread_decision updatedTask decision in
  if negb (outputType_eqb (d_outputType decision) NONE) then
    addLog EXECUTION ("Executing action: " ++ d_action decision ++ "...")
           ACTION None ;;
    output <- executeTaskWithGemini envKey decidedTask (execution_reply b) ;;
    addLog EXECUTION "Content generated successfully" RESULT
           (Some (DataPreview (substring 0 100 output ++ "..."))) ;;
    ret (with_status COMPLETED
           (with_outputContent (Some output) decidedTask))
  else
    addLog EXECUTION "No content generation required. Updating records."
           ACTION None ;;
    ret (with_status COMPLETED decidedTask).

(** The first revision's [try] / [catch] / [finally], on its state. *)
Definition rev1_settle (envKey : string) (taskId : string) (task : Task)
  (b : Backend) (w : Rev1.App) : Rev1.App :=
  let m := earlier_run_stages envKey task b in
  let logs1 := (Rev1.logs w ++ emitted m)%list in
  match outcome m with
  | inr finalTask =>
      Rev1.mkApp
        (update_task taskId (fun _ => finalTask) (Rev1.tasks w))
        (logs1 ++ [mkLog MEMORY "Task lifecycle completed. State updated."
                     RESULT None])%list
        false
  | inl e =>
      Rev1.mkApp
        (update_task taskId (with_status FAILED) (Rev1.tasks w))
        (logs1 ++ [mkLog EXECUTION "Critical Failure in processing chain"
                     RESULT (Some (DataError e))])%list
        false
  end.

(** The first revision's [processTask], nothing interleaving. *)
Definition rev1_processTask (envKey : string) (taskId : string)
  (b : Backend) (w : Rev1.App) : Rev1.App :=
  match Rev1.processTask_enter taskId w with
  | None => w
  | Some (task, w1) => rev1_settle envKey taskId task b w1
  end.

(** The third revision's [processTask] (lines 2241-2287): the guards and
    updates of the current one, then the earlier [try] block. *)
Definition rev3_processTask (taskId : string) (b : Backend) (w : App)
  : App :=
  match processTask_enter taskId w with
  | None => w
  | Some (r, w1) =>
      let m := earlier_run_stages (env_API_KEY w) (s_task r) b in
      let w2 := setLogs (fun prev => (prev ++ emitted m)%list) w1 in
      setIsProcessing false
        match outcome m with
        | inr finalTask =>
            appendLog MEMORY "Task lifecycle completed. State updated."
              RESULT None
              (setTasks (update_task taskId (fun _ => finalTask)) w2)
        | inl e =>
            setTasks (update_task taskId (with_status FAILED))
              (appendLog EXECUTION "Critical Failure in processing chain"
                 RESULT (Some (DataError e)) w2)
        end
  end.

(** ** The document assistant (types.ts, geminiService.ts, App.tsx) *)

Inductive ChatRole : Type := role_user | role_model.

(** [interface ChatMessage]. *)
Record ChatMessage : Type := mkChatMessage {
  cm_role : ChatRole;
  cm_text : string;
  cm_timestamp : Z
}.

(** [interface DocumentSession]. *)
Record DocumentSession : Type := mkDocumentSession {
  ds_id : string;
  fileName : string;
  fileData : string;
  mimeType : string;
  uploadTime : Z;
  insights : string;
  chatHistory : list ChatMessage;
  isAnalyzing : bool
}.

(** A part of a request to the document agents. *)
Inductive Part : Type :=
| InlineData (mime data : string)
| TextPart (t : string).

(** The outcome of a document agent: the requests that reached
    [generateContent], and the text returned or the error thrown. *)
Definition DocRun : Type := list (list Part) * (JsError + string).


(** The text pushed for a message of the history. *)
Definition history_part (msg : ChatMessage) : Part :=
  TextPart ((match cm_role msg with
             | role_user => "User"
             | role_model => "Assistant"
             end) ++ ": " ++ cm_text msg).

(** The [parts] array of [chatWithDocument]. *)
Definition chat_parts (base64Data mime : string)
  (history : list ChatMessage) (question : string) : list Part :=
  ([InlineData mime base64Data;
    TextPart "You are a helpful assistant analyzing this document."]
   ++ map history_part history
   ++ [TextPart ("User: " ++ question ++ nl ++ "Assistant:")])%list.

(** [chatWithDocument(apiKey, base64Data, mimeType, history, question)]. *)
Definition chatWithDocument (apiKey base64Data mime : string)
  (history : list ChatMessage) (question : string) (reply : TextReply)
  : DocRun :=
  if negb (truthy apiKey) then ([], inl (Error "API Key not found"))
  else
    ([chat_parts base64Data mime history question],
     match reply with
     | TextThrows e => inl e
     | TextResponded text =>
         inr (match text with
              | Some t => or_else t "I couldn't generate an answer."
              | None => "I couldn't generate an answer."
              end)
     end).

(** The cells of the component that the document handlers use. *)
Record DocState : Type := mkDocState {
  docSession : option DocumentSession;
  docChatInput : string;
  isUploading : bool
}.

(** [prev => prev ? f prev : null]. *)
Definition update_session (f : DocumentSession -> DocumentSession)
  (d : DocState) : DocState :=
  mkDocState (option_map f (docSession d)) (docChatInput d) (isUploading d).


Definition with_history (h : list ChatMessage) (analyzing : bool)
  (s : DocumentSession) : DocumentSession :=
  mkDocumentSession (ds_id s) (fileName s) (fileData s) (mimeType s)
    (uploadTime s) (insights s) h analyzing.

(** The file chosen in the upload dialog, read as a data URL. *)
Record UploadedFile : Type := mkUploadedFile {
  file_name : string;
  file_type : string;
  file_base64 : string
}.


(** [handleFileUpload] up to the first [await] of [reader.onload]: the
    session is created.  [sid] is the random id, [now] is [Date.now()]. *)
Definition handleFileUpload_enter (file : UploadedFile) (sid : string)
  (now : Z) (d : DocState) : DocState :=
  mkDocState
    (Some (mkDocumentSession sid (file_name file) (file_base64 file)
             (file_type file) now EmptyString [] true))
    (docChatInput d) true.



(** The reply of the simulated chat. *)
Definition simulated_answer : string :=
  "I am running in simulation mode because no API Key was provided. Please go to Settings and enter a valid Gemini API Key to enable real analysis.".

(** What the closure of [handleDocChatSubmit] holds at its [await]. *)
Record PendingChat : Type := mkPendingChat {
  pc_session : DocumentSession;
  pc_history : list ChatMessage;
  pc_question : string
}.

(** [handleDocChatSubmit] up to its [await]: the guard, then the
    optimistic update.  [None] is the early [return]. *)
Definition handleDocChatSubmit_enter (now : Z) (d : DocState)
  : option (PendingChat * DocState) :=
  if blank (docChatInput d) then None
  else
    match docSession d with
    | None => None
    | Some session =>
        let userMsg := mkChatMessage role_user (docChatInput d) now in
        let updatedHistory := (chatHistory session ++ [userMsg])%list in
        Some (mkPendingChat session updatedHistory (cm_text userMsg),
              mkDocState (Some (with_history updatedHistory true session))
                         EmptyString (isUploading d))
    end.

(** The [try] / [catch] of [handleDocChatSubmit], in the state in which it
    resumes; [now] is the [Date.now()] of the answer. *)
Definition handleDocChatSubmit_settle (key : string) (p : PendingChat)
  (now : Z) (reply : TextReply) (d : DocState)
  : DocState * list (list Part) :=
  let r :=
    if truthy key then
      chatWithDocument key (fileData (pc_session p))
        (mimeType (pc_session p)) (pc_history p) (pc_question p) reply
    else ([], inr simulated_answer) in
  match snd r with
  | inr responseText =>
      let botMsg := mkChatMessage role_model responseText now in
      (update_session
         (fun prev => with_history (chatHistory prev ++ [botMsg])%list
                        false prev) d,
       fst r)
  | inl _ =>
      (update_session (fun prev => with_history (chatHistory prev) false prev)
         d,
       fst r)
  end.


(** [clearHistory()], on the document cells: [setDocSession(null)]. *)
Definition clearDocSession (d : DocState) : DocState :=
  mkDocState None (docChatInput d) (isUploading d).

(** * Vocabulary of the properties *)

(** The second guard of [processTask] lets the task through: its status is
    neither PROCESSING nor COMPLETED. *)
Definition runnable (t : Task) : bool :=
  negb (status_eqb (status t) PROCESSING
        || status_eqb (status t) COMPLETED).

(** The state in which an accepted run starts. *)
Definition entered (taskId : string) (w : App) : App :=
  setTasks (update_task taskId (with_status PROCESSING))
    (setLogs (fun _ => []) (setIsProcessing true w)).

(** A component whose only task is COMPLETED and whose trace holds the
    eight entries of the run. *)
Definition finished_App : App :=
  processTask "task-1"
    (mkBackend (CallThrows (Error "offline"))
               (CallThrows (Error "offline"))
               (TextThrows (Error "offline")))
    (initial_App 0 "key" "").

(** The reading of C2 on the current [processTask]: a call made while
    [isProcessing] is set returns without starting a run. *)
Definition entry_rejects_while_processing : Prop :=
  forall (w : App) (taskId : string),
    isProcessing w = true -> processTask_enter taskId w = None.

(** The trace has an Execution-stage RESULT entry. *)
Definition has_execution_result (l : list AgentLog) : bool :=
  existsb (fun e => role_eqb (agent e) EXECUTION && step_eqb (step e) RESULT)
          l.

(** A classifier reply that the service treats as a failure: the call
    throws, the response has no text, or the text does not parse. *)
Definition classification_failure (r : Reply Classification) : bool :=
  match r with
  | CallThrows _ => true
  | Responded text parsed =>
      negb (truthy_opt text)
      || match parsed with
         | SyntaxError _ => true
         | _ => false
         end
  end.

(** A decision reply whose text parses to [null]. *)
Definition decision_null (r : Reply Decision) : bool :=
  match r with
  | Responded text Null => truthy_opt text
  | _ => false
  end.

(** Number of stored tasks named [k]. *)
Definition count_id (k : string) (l : list Task) : nat :=
  List.length (filter (fun t => String.eqb (id t) k) l).

(** Auto-trigger only while connected. *)
Definition connector_ok (i : IntegrationConfig) : bool :=
  implb (truthy_flag (autoSummarize i)) (isConnected i).

(** Every entry of the registry satisfies [connector_ok]. *)
Definition registry_ok (w : App) : Prop :=
  forall i, In i (integrations w) -> connector_ok i = true.

(** Every entry of the registry named [c] is connected. *)
Definition connected (c : ConnectorId) (w : App) : Prop :=
  forall i, In i (integrations w) -> i_id i = c -> isConnected i = true.

(** Slack connected through the dialog, with auto-trigger switched on. *)
Definition slack_auto_App : App :=
  toggleAutoSummarize slack
    (confirmConnection (Some slack) "ops@example.com" 1
       (initial_App 0 "" "")).

(** What holds of the store and the suspended runs at every moment:
    identifiers are not repeated, no two runs are on the same task, and
    the task of a suspended run is stored with status PROCESSING. *)
Record consistent (s : Sys) : Prop := mkConsistent {
  ids_unique : NoDup (map id (tasks (app s)));
  runs_unique : NoDup (map s_taskId (inflight s));
  runs_processing :
    forall r, In r (inflight s) ->
      id (s_task r) = s_taskId r
      /\ exists t, find_task (s_taskId r) (tasks (app s)) = Some t
                   /\ status t = PROCESSING
}.

(** One step from [s] to [s'] for a relation [rel] on statuses: [s'] is
    consistent, and every stored task is still stored, its status related
    by [rel] to the one before. *)
Definition good_step (rel : TaskStatus -> TaskStatus -> bool)
  (s s' : Sys) : Prop :=
  consistent s'
  /\ forall t, In t (tasks (app s)) ->
       exists t', find_task (id t) (tasks (app s')) = Some t'
                  /\ rel (status t) (status t') = true.

(** A relation that lets a status stay and lets a run end. *)
Record lifecycle_relation (rel : TaskStatus -> TaskStatus -> bool)
  : Prop := mkLifecycle {
  rel_stay : forall a, rel a a = true;
  rel_completed : rel PROCESSING COMPLETED = true;
  rel_failed : rel PROCESSING FAILED = true
}.

(** Every event of the sequence is a call by the component itself. *)
Definition all_via_callers (es : list Event) : bool :=
  forallb via_callers es.

(** The store after a run has settled. *)
Definition settled (r : Suspended) (b : Backend) (t : Task) : Task :=
  match outcome (run_stages (s_key r) (s_task r) b) with
  | inr ft => ft
  | inl _ => with_status FAILED t
  end.

(** The lifecycle claim for a relation [rel] on statuses: along every
    plausible sequence of events from the initial state, each event takes
    every stored task to a stored task of the same name whose status is
    related by [rel] to the one before. *)
Definition steps_follow (rel : TaskStatus -> TaskStatus -> bool) : Prop :=
  forall (parseInt : string -> option Z) (now : Z)
         (userKey envKey : string) (es : list Event) (e : Event),
    let s := after parseInt (initial_Sys now userKey envKey) es in
    plausible_all parseInt (initial_Sys now userKey envKey) es = true ->
    plausible s e = true ->
    forall t, In t (tasks (app s)) ->
      exists t', find_task (id t) (tasks (app (fire parseInt s e)))
                 = Some t'
                 /\ rel (status t) (status t') = true.

(** A backend whose decision text is [null]. *)
Definition null_decision_backend : Backend :=
  mkBackend
    (Responded (Some "{...}")
       (Object (mkClassification QUESTION LOW "A question" [])))
    (Responded (Some "null") Null)
    (TextResponded (Some "unused")).

(** A connector of the registry that the stream service simulates:
    connected, and not a Gmail connector holding a token. *)
Definition simulated (i : IntegrationConfig) : bool :=
  isConnected i
  && negb (connector_eqb (i_id i) gmail && truthy_opt (accessToken i)).

(** Number of registrations of a callback. *)
Definition registrations (cb : nat) (st : StreamService.State) : nat :=
  count_occ Nat.eq_dec (StreamService.subscribers st) cb.

(** The service after [simulationEnabled] has taken the values [bs] in
    turn, starting from [before]. *)
Fixpoint resubscribed (before : bool) (bs : list bool)
  (st : StreamService.State) : StreamService.State :=
  match bs with
  | [] => st
  | b :: rest => resubscribed b rest (rerunSubscription before b st)
  end.

(** What a structured agent returns for a key and a reply, its fallback
    being [fallback]: the parsed value when the key is present, the
    response has a text and the text parses; the fallback otherwise. *)
Definition agent_result {A} (key : string) (fallback : A) (r : Reply A)
  : option A :=
  match r with
  | Responded (Some text) (Object a) =>
      if truthy key && truthy text then Some a else Some fallback
  | Responded (Some text) Null =>
      if truthy key && truthy text then None else Some fallback
  | _ => Some fallback
  end.

(** The entries of a trace that the Execution stage wrote. *)
Definition execution_entries (l : list AgentLog) : list AgentLog :=
  filter (fun e => role_eqb (agent e) EXECUTION) l.

(** The test of the auto-process effect on a task: PENDING, and from a
    source whose connector has auto-trigger switched on. *)
Definition auto_eligible (ints : list IntegrationConfig) (t : Task) : bool :=
  status_eqb (status t) PENDING
  && match find_integration (toLowerCase (source t)) ints with
     | Some i => truthy_flag (autoSummarize i)
     | None => false
     end.

(** The stored tasks the effect would submit, in store order. *)
Definition auto_pending (w : App) : list Task :=
  filter (auto_eligible (integrations w)) (tasks w).

(** The effect left to itself for [n] rounds: it submits the task it
    finds, the run ends against the replies [bs] gives for the round, and
    the change of state makes the effect run again. *)
Fixpoint drain (bs : nat -> Backend) (n : nat) (w : App) : App :=
  match n with
  | O => w
  | S n' =>
      match autoProcess w with
      | Some taskId => drain bs n' (processTask taskId (bs n') w)
      | None => w
      end
  end.

(** A task whose run has ended. *)
Definition finished (t : Task) : Prop :=
  status t = COMPLETED \/ status t = FAILED.

(** A detail request that lets the fetch go on: rejected (and skipped), or
    answered with a body that has a payload. *)
Definition detail_ok (d : DetailOutcome) : bool :=
  match d with
  | DetailRejected _ => true
  | DetailUnparsed _ => false
  | DetailBody raw =>
      match raw_payload raw with
      | Some _ => true
      | None => false
      end
  end.

(** The bodies delivered for the listed ids, in list order. *)
Fixpoint delivered (detail : string -> DetailOutcome) (ids : list string)
  : list RawEmail :=
  match ids with
  | [] => []
  | i :: rest =>
      match detail i with
      | DetailBody raw => raw :: delivered detail rest
      | _ => delivered detail rest
      end
  end.

(** * Properties *)

(** ** Facts about the task store *)

Lemma find_task_id (k : string) (l : list Task) (t : Task) :
  find_task k l = Some t -> id t = k.
Proof.
  unfold find_task. intros H.
  apply find_some in H. destruct H as [_ H].
  now apply String.eqb_eq.
Qed.

Lemma find_task_In (k : string) (l : list Task) (t : Task) :
  find_task k l = Some t -> In t l.
Proof.
  unfold find_task. intros H. now apply find_some in H.
Qed.

Lemma find_task_None (k : string) (l : list Task) :
  find_task k l = None <-> ~ In k (map id l).
Proof.
  unfold find_task. induction l as [|a l IH]; simpl.
  - tauto.
  - destruct (String.eqb_spec (id a) k) as [E|E].
    + split; [discriminate | intros H; exfalso; apply H; now left].
    + rewrite IH. tauto.
Qed.

(** Updating the tasks named [k'] by a function that keeps them named [k']
    commutes with looking a task up. *)
Lemma find_task_update (k k' : string) (f : Task -> Task) (l : list Task) :
  (forall t, id t = k' -> id (f t) = k') ->
  find_task k (update_task k' f l)
  = option_map (fun t => if String.eqb (id t) k' then f t else t)
               (find_task k l).
Proof.
  intros Hf. unfold find_task, update_task.
  induction l as [|a l IH]; simpl; [reflexivity|].
  destruct (String.eqb_spec (id a) k') as [E|E].
  - rewrite (Hf a E). rewrite E.
    destruct (String.eqb_spec k' k) as [E'|E'].
    + simpl. rewrite <- E in *. now rewrite String.eqb_refl.
    + exact IH.
  - destruct (String.eqb_spec (id a) k) as [E'|E'].
    + simpl. destruct (String.eqb_spec (id a) k'); [contradiction|reflexivity].
    + exact IH.
Qed.

Lemma map_id_update (k : string) (f : Task -> Task) (l : list Task) :
  (forall t, id t = k -> id (f t) = k) ->
  map id (update_task k f l) = map id l.
Proof.
  intros Hf. unfold update_task. rewrite map_map.
  apply map_ext. intros a.
  destruct (String.eqb_spec (id a) k) as [E|E]; [|reflexivity].
  rewrite (Hf a E). now symmetry.
Qed.

Lemma id_finalTask (t : Task) (c : option Classification) (d : Decision)
  (o : option string) : id (finalTask t c d o) = id t.
Proof. destruct c; reflexivity. Qed.

Lemma status_finalTask (t : Task) (c : option Classification) (d : Decision)
  (o : option string) : status (finalTask t c d o) = COMPLETED.
Proof. reflexivity. Qed.

(** ** Facts about the run monad *)

Lemma outcome_bind_inr {A B} (m : Run A) (k : A -> Run B) (x : B) :
  outcome (bind m k) = inr x ->
  exists a, outcome m = inr a /\ outcome (k a) = inr x.
Proof.
  destruct m as [[l c] [e|a]]; simpl; [discriminate|].
  intros H. exists a. split; [reflexivity|].
  destruct (k a) as [[l2 c2] r]. exact H.
Qed.

(** A run that produces a task produces the snapshot's task, completed. *)
Lemma run_stages_inr (key : string) (task : Task) (b : Backend) (ft : Task) :
  outcome (run_stages key task b) = inr ft ->
  id ft = id task /\ status ft = COMPLETED.
Proof.
  unfold run_stages. intros H.
  apply outcome_bind_inr in H. destruct H as [[[c d] o] [_ H]].
  simpl in H. injection H as <-.
  split; [apply id_finalTask | apply status_finalTask].
Qed.

(** ** Facts about [processTask] *)

Lemma processTask_enter_accepted (taskId : string) (w : App) (task : Task) :
  find_task taskId (tasks w) = Some task ->
  runnable task = true ->
  processTask_enter taskId w
  = Some (mkSuspended taskId task (effectiveKey w), entered taskId w).
Proof.
  intros Hf Hr. unfold processTask_enter. rewrite Hf.
  unfold runnable in Hr. apply negb_true_iff in Hr. now rewrite Hr.
Qed.

Lemma processTask_enter_rejected (taskId : string) (w : App) :
  processTask_enter taskId w = None <->
  match find_task taskId (tasks w) with
  | None => True
  | Some task => runnable task = false
  end.
Proof.
  unfold processTask_enter, runnable.
  destruct (find_task taskId (tasks w)) as [task|]; [|tauto].
  destruct (status_eqb (status task) PROCESSING
            || status_eqb (status task) COMPLETED); simpl.
  - tauto.
  - split; discriminate.
Qed.

(** The stored task after a run that nothing interleaved with. *)
Lemma processTask_stored (taskId : string) (w : App) (task : Task)
  (b : Backend) :
  find_task taskId (tasks w) = Some task ->
  runnable task = true ->
  find_task taskId (tasks (processTask taskId b w))
  = Some match outcome (run_stages (effectiveKey w) task b) with
         | inr ft => ft
         | inl _ => with_status FAILED (with_status PROCESSING task)
         end.
Proof.
  intros Hf Hr. unfold processTask.
  rewrite (processTask_enter_accepted _ _ Hf Hr).
  unfold processTask_settle. cbn [s_key s_task s_taskId].
  pose proof (find_task_id _ _ Hf) as Hid.
  assert (Hst : forall g : Task -> Task,
             (forall t, id t = taskId -> id (g t) = taskId) ->
             find_task taskId
               (update_task taskId g
                  (update_task taskId (with_status PROCESSING) (tasks w)))
             = Some (g (with_status PROCESSING task))).
  { intros g Hg.
    rewrite find_task_update by exact Hg.
    rewrite find_task_update by (intros; assumption).
    rewrite Hf. cbn [option_map]. rewrite Hid, String.eqb_refl.
    cbn [id with_status]. now rewrite Hid, String.eqb_refl. }
  destruct (outcome (run_stages (effectiveKey w) task b)) as [e|ft] eqn:Ho;
    cbn [tasks setTasks setIsProcessing appendLog setLogs entered].
  - apply Hst. intros; assumption.
  - apply run_stages_inr in Ho. destruct Ho as [Hi _].
    rewrite Hst; [reflexivity | intros; congruence].
Qed.

(** The trace after a run that nothing interleaved with. *)
Lemma processTask_logs (taskId : string) (w : App) (task : Task)
  (b : Backend) :
  find_task taskId (tasks w) = Some task ->
  runnable task = true ->
  logs (processTask taskId b w)
  = (emitted (run_stages (effectiveKey w) task b)
     ++ [match outcome (run_stages (effectiveKey w) task b) with
         | inr _ =>
             mkLog MEMORY "Task lifecycle completed. State updated." RESULT
                   None
         | inl e =>
             mkLog EXECUTION "Critical Failure in processing chain" RESULT
                   (Some (DataError e))
         end])%list.
Proof.
  intros Hf Hr. unfold processTask.
  rewrite (processTask_enter_accepted _ _ Hf Hr).
  unfold processTask_settle. cbn [s_key s_task s_taskId].
  destruct (outcome (run_stages (effectiveKey w) task b)); reflexivity.
Qed.

(** ** Resubmitting a task that is running or done *)

(** C3.  When the task that [processTask] finds has status PROCESSING or
    COMPLETED, the call returns at the guard: the component state after the
    call is the state before it, so no task has changed, no entry has been
    added to the trace and the trace has not been cleared. *)
Theorem processTask_noop_when_processing_or_completed
  (taskId : string) (b : Backend) (w : App) (task : Task) :
  find_task taskId (tasks w) = Some task ->
  status task = PROCESSING \/ status task = COMPLETED ->
  processTask_enter taskId w = None
  /\ processTask taskId b w = w
  /\ tasks (processTask taskId b w) = tasks w
  /\ logs (processTask taskId b w) = logs w.
Proof.
  intros Hf Hs.
  assert (He : processTask_enter taskId w = None).
  { apply processTask_enter_rejected. rewrite Hf. unfold runnable.
    destruct Hs as [-> | ->]; reflexivity. }
  unfold processTask. rewrite He. auto.
Qed.

Lemma processTask_noop_when_processing_or_completed_witness :
  (find_task "task-1" (tasks finished_App)
   = Some (mkTask "task-1" SLACK (rawContent (INITIAL_TASK 0))
             "Sarah (Product Lead)" 0 COMPLETED (Some UNKNOWN) (Some MEDIUM)
             (Some "Failed to classify automatically.") (Some [])
             None (Some "AI processing failed.") None (Some NONE)
             (Some "Manual Review Required")))
  /\ processTask "task-1"
       (mkBackend (CallThrows (Error "a")) (CallThrows (Error "b"))
                  (TextThrows (Error "c")))
       finished_App = finished_App
  /\ List.length (logs finished_App) = 8.
Proof.
  split; [reflexivity|].
  split; [|reflexivity].
  refine (proj1 (proj2
    (@processTask_noop_when_processing_or_completed "task-1" _ finished_App
       _ _ _))).
  - reflexivity.
  - right. reflexivity.
Defined.

(** ** Running the stages *)

Ltac unfold_stages :=
  unfold run_stages, run_branches, classifyTaskWithGemini,
    makeDecisionWithGemini, executeTaskWithGemini, getAI.

Ltac eval_stages := cbn -[String.append substring includes].

Lemma classify_failure_fallback (key raw from_ : string)
  (r : Reply Classification) :
  classification_failure r = true ->
  outcome (classifyTaskWithGemini key raw from_ r)
  = inr (Some classifier_fallback).
Proof.
  intros H. unfold classifyTaskWithGemini, getAI.
  destruct (truthy key); [|reflexivity].
  destruct r as [e|[[|a s]|] [e| |c]]; try reflexivity; discriminate H.
Qed.

Lemma execute_throws_fallback (key : string) (task : Task) (e : JsError) :
  outcome (executeTaskWithGemini key task (TextThrows e))
  = inr "Error generating content.".
Proof.
  unfold executeTaskWithGemini, getAI. now destruct (truthy key).
Qed.

(** ** A fault in the decision stage *)

(** C4, counterexample.  With a key configured, a classification that
    succeeds and a decision call that throws, the run of [task-1] ends
    with status COMPLETED, not FAILED. *)
Lemma decision_call_throws_run_completes :
  let b := mkBackend
             (Responded (Some "{...}")
                (Object (mkClassification ACTION_ITEM HIGH "Dark mode PRD"
                           ["Dark Mode"])))
             (CallThrows (Error "503 Service Unavailable"))
             (TextResponded (Some "unused")) in
  let w' := processTask "task-1" b (initial_App 0 "key" "") in
  option_map status (find_task "task-1" (tasks w')) = Some COMPLETED
  /\ option_map status (find_task "task-1" (tasks w')) <> Some FAILED
  /\ option_map action (find_task "task-1" (tasks w'))
     = Some (Some "Manual Review Required").
Proof.
  cbv zeta. split; [reflexivity|]. split; [|reflexivity].
  vm_compute. discriminate.
Qed.

(** C4, amended.  In a live run whose classification succeeded and whose
    decision call throws, [makeDecisionWithGemini] catches the error and
    returns its fallback (action "Manual Review Required", output kind
    NONE); the run is not aborted: the stored task is [finalTask] with
    status COMPLETED, it carries the classification fields and no output
    content, and the trace has no Execution-stage RESULT entry. *)
Theorem decision_call_throws_is_recovered
  (w : App) (taskId : string) (task : Task) (b : Backend)
  (c : Classification) (text : string) (e : JsError) :
  find_task taskId (tasks w) = Some task ->
  runnable task = true ->
  truthy (effectiveKey w) = true ->
  classifier_reply b = Responded (Some text) (Object c) ->
  truthy text = true ->
  decision_reply b = CallThrows e ->
  let w' := processTask taskId b w in
  exists t',
    find_task taskId (tasks w') = Some t'
    /\ t' = finalTask task (Some c) decision_fallback None
    /\ status t' = COMPLETED
    /\ type t' = Some (c_type c)
    /\ priority t' = Some (c_priority c)
    /\ summary t' = Some (c_summary c)
    /\ entities t' = Some (c_entities c)
    /\ action t' = Some "Manual Review Required"
    /\ outputType t' = Some NONE
    /\ outputContent t' = None
    /\ has_execution_result (logs w') = false
    /\ isProcessing w' = false.
Proof.
  intros Hf Hr Hk Hc Ht Hd w'.
  assert (Hrun : outcome (run_stages (effectiveKey w) task b)
                 = inr (finalTask task (Some c) decision_fallback None)
                 /\ has_execution_result
                      (emitted (run_stages (effectiveKey w) task b))
                    = false).
  { unfold_stages. rewrite Hk, Hc, Hd. eval_stages. rewrite Ht.
    eval_stages. split; reflexivity. }
  destruct Hrun as [Hout Hlog].
  exists (finalTask task (Some c) decision_fallback None).
  subst w'. rewrite (processTask_stored _ _ _ Hf Hr).
  rewrite (processTask_logs _ _ _ Hf Hr).
  rewrite Hout.
  repeat split.
  - unfold has_execution_result in *. rewrite existsb_app, Hlog.
    reflexivity.
  - unfold processTask. rewrite (processTask_enter_accepted _ _ Hf Hr).
    reflexivity.
Qed.

Lemma decision_call_throws_is_recovered_witness :
  let b := mkBackend
             (Responded (Some "{...}")
                (Object (mkClassification ACTION_ITEM HIGH "Dark mode PRD"
                           ["Dark Mode"])))
             (CallThrows (Error "503 Service Unavailable"))
             (TextResponded (Some "unused")) in
  let w' := processTask "task-1" b (initial_App 0 "key" "") in
  exists t',
    find_task "task-1" (tasks w') = Some t'
    /\ status t' = COMPLETED
    /\ summary t' = Some "Dark mode PRD"
    /\ has_execution_result (logs w') = false.
Proof.
  cbv zeta.
  destruct (@decision_call_throws_is_recovered
              (initial_App 0 "key" "") "task-1" (INITIAL_TASK 0)
              (mkBackend
                 (Responded (Some "{...}")
                    (Object (mkClassification ACTION_ITEM HIGH
                               "Dark mode PRD" ["Dark Mode"])))
                 (CallThrows (Error "503 Service Unavailable"))
                 (TextResponded (Some "unused")))
              _ "{...}" _ eq_refl eq_refl eq_refl eq_refl eq_refl eq_refl)
    as [t' [H1 [_ [H2 [_ [_ [H3 [_ [_ [_ [_ [H4 _]]]]]]]]]]]].
  exists t'. repeat split; assumption.
Defined.

(** The run-level [catch].  It is reached when the decision text parses to
    [null], so that reading [decision.action] throws: the stored task is
    the one stored before with status FAILED and no other field touched,
    and the handler itself logs an Execution-stage RESULT entry. *)
Lemma null_decision_aborts_run
  (w : App) (taskId : string) (task : Task) (b : Backend) :
  find_task taskId (tasks w) = Some task ->
  runnable task = true ->
  truthy (effectiveKey w) = true ->
  decision_null (decision_reply b) = true ->
  let w' := processTask taskId b w in
  find_task taskId (tasks w') = Some (with_status FAILED task)
  /\ has_execution_result (logs w') = true.
Proof.
  intros Hf Hr Hk Hd w'.
  assert (Hout : exists e, outcome (run_stages (effectiveKey w) task b)
                           = inl e).
  { unfold_stages. rewrite Hk.
    destruct (decision_reply b) as [e|[[|a s]|] [e| |d]];
      try discriminate Hd.
    destruct (classifier_reply b) as [e|[[|a' s']|] [e| |c]];
      eval_stages; eauto. }
  destruct Hout as [e Hout]. subst w'.
  rewrite (processTask_stored _ _ _ Hf Hr).
  rewrite (processTask_logs _ _ _ Hf Hr).
  rewrite Hout. split; [reflexivity|].
  unfold has_execution_result. rewrite existsb_app. cbn.
  apply orb_true_r.
Qed.

(** ** Classification failures *)

(** C5, counterexample.  When the classifier call throws, the summary that
    is substituted is not the string "classification failed". *)
Lemma classifier_fallback_summary_differs :
  outcome (classifyTaskWithGemini "key" "We need a PRD" "Sarah"
             (CallThrows (Error "network down")))
  = inr (Some (mkClassification UNKNOWN MEDIUM
                 "Failed to classify automatically." []))
  /\ "Failed to classify automatically." <> "classification failed".
Proof.
  split; [reflexivity | discriminate].
Qed.

(** C5, amended.  On a classification failure the service returns kind
    UNKNOWN, priority MEDIUM, the summary "Failed to classify
    automatically." and no entities, and does not throw; a live run
    goes on to the later stages, and unless the decision text parses to
    [null] it finalizes the task with status COMPLETED and these four
    values stored. *)
Theorem classification_failure_is_recovered
  (w : App) (taskId : string) (task : Task) (b : Backend) :
  find_task taskId (tasks w) = Some task ->
  runnable task = true ->
  truthy (effectiveKey w) = true ->
  classification_failure (classifier_reply b) = true ->
  outcome (classifyTaskWithGemini (effectiveKey w) (rawContent task)
             (sender task) (classifier_reply b))
  = inr (Some (mkClassification UNKNOWN MEDIUM
                 "Failed to classify automatically." []))
  /\ (decision_null (decision_reply b) = false ->
      exists t',
        find_task taskId (tasks (processTask taskId b w)) = Some t'
        /\ status t' = COMPLETED
        /\ type t' = Some UNKNOWN
        /\ priority t' = Some MEDIUM
        /\ summary t' = Some "Failed to classify automatically."
        /\ entities t' = Some []).
Proof.
  intros Hf Hr Hk Hc. split.
  - now apply classify_failure_fallback.
  - intros Hd.
    assert (Hout : exists d o,
               outcome (run_stages (effectiveKey w) task b)
               = inr (finalTask task (Some classifier_fallback) d o)).
    { unfold_stages. rewrite Hk.
      destruct (classifier_reply b) as [e|[[|a s]|] [e| |c]];
        try discriminate Hc;
        destruct (decision_reply b) as [e'|[[|a' s']|] [e'| |d]];
        try discriminate Hd;
        eval_stages;
        try (destruct (d_outputType d); eval_stages);
        try (destruct (execution_reply b) as [e''|[t|]]; eval_stages);
        eauto. }
    destruct Hout as [d [o Hout]].
    rewrite (processTask_stored _ _ _ Hf Hr), Hout.
    eexists. split; [reflexivity|]. repeat split.
Qed.

Lemma classification_failure_is_recovered_witness :
  let b := mkBackend (Responded None Null)
                     (Responded (Some "{...}")
                        (Object (mkDecision "Draft Email" "needs a reply"
                                   EMAIL)))
                     (TextResponded (Some "Dear Sarah, ...")) in
  exists t',
    find_task "task-1" (tasks (processTask "task-1" b
                                 (initial_App 0 "" "env-key"))) = Some t'
    /\ status t' = COMPLETED
    /\ summary t' = Some "Failed to classify automatically."
    /\ outputContent t' = Some "Dear Sarah, ...".
Proof.
  cbv zeta.
  destruct (proj2 (@classification_failure_is_recovered
              (initial_App 0 "" "env-key") "task-1" (INITIAL_TASK 0)
              (mkBackend (Responded None Null)
                 (Responded (Some "{...}")
                    (Object (mkDecision "Draft Email" "needs a reply"
                               EMAIL)))
                 (TextResponded (Some "Dear Sarah, ...")))
              eq_refl eq_refl eq_refl eq_refl) eq_refl)
    as [t' [H1 [H2 [_ [_ [H3 _]]]]]].
  exists t'. repeat split; try assumption.
  vm_compute in H1. injection H1 as <-. reflexivity.
Defined.

(** ** Execution failures *)

(** C10.  When the content-generation call throws, [executeTaskWithGemini]
    returns "Error generating content." and does not throw; in a live run
    whose decision asks for an output (its kind is not NONE) the task is
    finalized with status COMPLETED and that string as its output
    content. *)
Theorem execution_failure_is_recovered
  (w : App) (taskId : string) (task : Task) (b : Backend)
  (d : Decision) (e : JsError) :
  find_task taskId (tasks w) = Some task ->
  runnable task = true ->
  truthy (effectiveKey w) = true ->
  outcome (makeDecisionWithGemini (effectiveKey w) task (decision_reply b))
  = inr (Some d) ->
  d_outputType d <> NONE ->
  execution_reply b = TextThrows e ->
  (forall t, outcome (executeTaskWithGemini (effectiveKey w) t
                        (execution_reply b))
             = inr "Error generating content.")
  /\ exists t',
       find_task taskId (tasks (processTask taskId b w)) = Some t'
       /\ status t' = COMPLETED
       /\ outputContent t' = Some "Error generating content."
       /\ outputType t' = Some (d_outputType d)
       /\ isProcessing (processTask taskId b w) = false.
Proof.
  intros Hf Hr Hk Hd Hn He. split.
  - intros t. rewrite He. apply execute_throws_fallback.
  - assert (Hout : exists c,
               outcome (run_stages (effectiveKey w) task b)
               = inr (finalTask task c d
                        (Some "Error generating content."))).
    { unfold makeDecisionWithGemini, getAI in Hd. rewrite Hk in Hd.
      unfold_stages. rewrite Hk, He.
      destruct (decision_reply b) as [e'|[[|a' s']|] [e'| |d']];
        cbn in Hd; try discriminate Hd; injection Hd as Hd;
        try (subst d; now elim Hn); subst d';
        destruct (classifier_reply b) as [e0|[[|a s]|] [e0| |c]];
        eval_stages;
        (destruct (d_outputType d); [..|contradiction]);
        eval_stages; eauto. }
    destruct Hout as [c Hout].
    rewrite (processTask_stored _ _ _ Hf Hr), Hout.
    eexists. split; [reflexivity|]. repeat split.
    + unfold processTask. rewrite (processTask_enter_accepted _ _ Hf Hr).
      reflexivity.
Qed.

Lemma execution_failure_is_recovered_witness :
  let b := mkBackend
             (Responded (Some "{...}")
                (Object (mkClassification ACTION_ITEM HIGH "Dark mode PRD"
                           ["Dark Mode"])))
             (Responded (Some "{...}")
                (Object (mkDecision "Generate PRD" "a feature request"
                           PRD)))
             (TextThrows (Error "quota exceeded")) in
  exists t',
    find_task "task-1" (tasks (processTask "task-1" b
                                 (initial_App 0 "user-key" ""))) = Some t'
    /\ status t' = COMPLETED
    /\ outputContent t' = Some "Error generating content.".
Proof.
  cbv zeta.
  destruct (proj2 (@execution_failure_is_recovered
              (initial_App 0 "user-key" "") "task-1" (INITIAL_TASK 0)
              (mkBackend
                 (Responded (Some "{...}")
                    (Object (mkClassification ACTION_ITEM HIGH
                               "Dark mode PRD" ["Dark Mode"])))
                 (Responded (Some "{...}")
                    (Object (mkDecision "Generate PRD" "a feature request"
                               PRD)))
                 (TextThrows (Error "quota exceeded")))
              _ _ eq_refl eq_refl eq_refl eq_refl
              (fun H => match H with eq_refl => I end) eq_refl))
    as [t' [H1 [H2 [H3 _]]]].
  exists t'. repeat split; assumption.
Defined.

(** ** Runs without a credential *)

(** C8.  With neither a user key nor an environment key, an accepted run
    issues no live call and does not depend on the backend; the task is
    finalized with status COMPLETED, a non-empty summary and a non-empty
    output content.  For a task from SLACK the decision's output kind is
    PRD and the output content contains "Simulated PRD". *)
Theorem simulation_run_completes
  (w : App) (taskId : string) (task : Task) (b : Backend) :
  find_task taskId (tasks w) = Some task ->
  runnable task = true ->
  userApiKey w = "" ->
  env_API_KEY w = "" ->
  let w' := processTask taskId b w in
  calls (run_stages (effectiveKey w) task b) = []
  /\ (forall b', processTask taskId b' w = w')
  /\ exists t' s o,
       find_task taskId (tasks w') = Some t'
       /\ status t' = COMPLETED
       /\ summary t' = Some s /\ s <> ""
       /\ outputContent t' = Some o /\ o <> ""
       /\ (source task = SLACK ->
           outputType t' = Some PRD
           /\ includes "Simulated PRD" o = true
           /\ In (mkLog DECISION "Decision made: Draft Content (Simulated)"
                    ACTION
                    (Some (DataDecision
                             (mkDecision "Draft Content"
                                "Simulated decision based on missing API key."
                                PRD))))
                 (logs w')).
Proof.
  intros Hf Hr Hu He w'.
  assert (Hkey : effectiveKey w = "").
  { unfold effectiveKey, or_else. now rewrite Hu, He. }
  assert (Hind : forall b', run_stages (effectiveKey w) task b'
                            = run_stages (effectiveKey w) task b).
  { intros b'. rewrite Hkey. reflexivity. }
  split; [now rewrite Hkey|]. split.
  - intros b'. subst w'. unfold processTask.
    rewrite (processTask_enter_accepted _ _ Hf Hr).
    unfold processTask_settle. cbn [s_key s_task s_taskId].
    now rewrite Hind.
  - subst w'. rewrite (processTask_stored _ _ _ Hf Hr).
    rewrite (processTask_logs _ _ _ Hf Hr). rewrite Hkey.
    eexists. eexists. eexists.
    split; [reflexivity|]. split; [reflexivity|].
    split; [reflexivity|]. split; [discriminate|].
    split; [reflexivity|]. split.
    + cbn. destruct (source_eqb (source task) GMAIL); discriminate.
    + intros Hs. cbn. rewrite Hs. cbn. repeat split. tauto.
Qed.

Lemma simulation_run_completes_witness :
  let t := manual_task SLACK "We need a PRD for feature X, priority high"
             7 in
  let w := handleManualDispatch
             "We need a PRD for feature X, priority high" SLACK 7
             (initial_App 0 "" "") in
  let b := mkBackend (CallThrows (Error "never asked"))
                     (CallThrows (Error "never asked"))
                     (TextThrows (Error "never asked")) in
  find_task "manual-7" (tasks w) = Some t
  /\ calls (run_stages (effectiveKey w) t b) = []
  /\ option_map status
       (find_task "manual-7" (tasks (processTask "manual-7" b w)))
     = Some COMPLETED
  /\ option_map outputType
       (find_task "manual-7" (tasks (processTask "manual-7" b w)))
     = Some (Some PRD).
Proof.
  cbv zeta. split; [reflexivity|].
  split; [|split; reflexivity].
  exact (proj1 (@simulation_run_completes
                  (handleManualDispatch
                     "We need a PRD for feature X, priority high" SLACK 7
                     (initial_App 0 "" ""))
                  "manual-7" _
                  (mkBackend (CallThrows (Error "never asked"))
                             (CallThrows (Error "never asked"))
                             (TextThrows (Error "never asked")))
                  eq_refl eq_refl eq_refl eq_refl)).
Defined.

(** ** Polling the mailbox *)

Lemma append_inj_r (p a b : string) : p ++ a = p ++ b -> a = b.
Proof.
  induction p as [|c p IH]; simpl; intros H; [exact H|].
  injection H as H. now apply IH.
Qed.

Lemma count_id_notin (k : string) (l : list Task) :
  ~ In k (map id l) -> count_id k l = 0.
Proof.
  unfold count_id. induction l as [|a l IH]; simpl; intros H;
    [reflexivity|].
  destruct (String.eqb_spec (id a) k) as [E|E].
  - exfalso. apply H. now left.
  - apply IH. intros G. apply H. now right.
Qed.

Lemma count_id_nodup (k : string) (l : list Task) :
  NoDup (map id l) -> In k (map id l) -> count_id k l = 1.
Proof.
  induction l as [|a l IH]; simpl; intros Hn Hi; [contradiction|].
  inversion Hn as [|x xs Hx Hn']; subst.
  unfold count_id. simpl.
  destruct (String.eqb_spec (id a) k) as [E|E].
  - simpl. f_equal. apply count_id_notin. now rewrite <- E.
  - apply IH; [assumption|]. destruct Hi; [contradiction|assumption].
Qed.

Section PollingFacts.

Variable parseInt : string -> option Z.

Lemma id_gmail_task (now : Z) (e : GmailMessage) :
  id (gmail_task parseInt now e) = "gmail-" ++ m_id e.
Proof. reflexivity. Qed.

Lemma ingest_app (now : Z) (emails : list GmailMessage)
  (prev : list Task) :
  ingest parseInt now emails prev
  = (newTasks parseInt now emails prev ++ prev)%list.
Proof.
  unfold ingest. now destruct (newTasks parseInt now emails prev).
Qed.

Lemma map_id_newTasks (now : Z) (emails : list GmailMessage)
  (prev : list Task) :
  map id (newTasks parseInt now emails prev)
  = map (fun e => "gmail-" ++ m_id e) (filter (unseen prev) emails).
Proof.
  unfold newTasks. rewrite map_map. reflexivity.
Qed.

Lemma unseen_spec (prev : list Task) (e : GmailMessage) :
  unseen prev e = true <-> ~ In ("gmail-" ++ m_id e) (map id prev).
Proof.
  unfold unseen. rewrite <- find_task_None.
  destruct (find_task ("gmail-" ++ m_id e) prev); split;
    congruence.
Qed.

(** A task is pushed only for an identifier that is not stored. *)
Lemma newTasks_unseen (now : Z) (emails : list GmailMessage)
  (prev : list Task) (t : Task) :
  In t (newTasks parseInt now emails prev) ->
  find_task (id t) prev = None
  /\ exists e, In e emails /\ t = gmail_task parseInt now e.
Proof.
  unfold newTasks. intros H. apply in_map_iff in H.
  destruct H as [e [<- H]]. apply filter_In in H. destruct H as [Hi Hu].
  split; [|eauto].
  apply find_task_None. now apply unseen_spec.
Qed.

Lemma ingest_keeps (now : Z) (emails : list GmailMessage)
  (prev : list Task) (k : string) :
  In k (map id prev) -> In k (map id (ingest parseInt now emails prev)).
Proof.
  intros H. rewrite ingest_app, map_app. apply in_or_app. now right.
Qed.

Lemma ingest_covers (now : Z) (emails : list GmailMessage)
  (prev : list Task) (e : GmailMessage) :
  In e emails ->
  In ("gmail-" ++ m_id e) (map id (ingest parseInt now emails prev)).
Proof.
  intros H. rewrite ingest_app, map_app. apply in_or_app.
  destruct (unseen prev e) eqn:Hu.
  - left. rewrite map_id_newTasks.
    apply in_map_iff. exists e. split; [reflexivity|].
    apply filter_In. now split.
  - right. destruct (in_dec string_dec ("gmail-" ++ m_id e) (map id prev))
      as [Hin|Hin]; [assumption|].
    apply unseen_spec in Hin. congruence.
Qed.

Lemma NoDup_filter_map (f : GmailMessage -> bool)
  (emails : list GmailMessage) :
  NoDup (map m_id emails) ->
  NoDup (map (fun e => "gmail-" ++ m_id e) (filter f emails)).
Proof.
  induction emails as [|a l IH]; simpl; intros H; [constructor|].
  inversion H as [|x xs Hx Hn]; subst.
  destruct (f a); [|now apply IH].
  simpl. constructor; [|now apply IH].
  intros Hin. apply in_map_iff in Hin. destruct Hin as [e [He Hi]].
  apply (append_inj_r "gmail-" _ _) in He. apply filter_In in Hi. destruct Hi as [Hi _].
  apply Hx. rewrite <- He. now apply in_map.
Qed.

Lemma ingest_NoDup (now : Z) (emails : list GmailMessage)
  (prev : list Task) :
  NoDup (map m_id emails) ->
  NoDup (map id prev) ->
  NoDup (map id (ingest parseInt now emails prev)).
Proof.
  intros He Hp. rewrite ingest_app, map_app, map_id_newTasks.
  apply NoDup_app; [now apply NoDup_filter_map | assumption |].
  intros k Hk Hk'. apply in_map_iff in Hk. destruct Hk as [e [<- Hi]].
  apply filter_In in Hi. destruct Hi as [_ Hu].
  now apply unseen_spec in Hu.
Qed.

Lemma tasks_pollEmails_ok (token : string) (now status : Z)
  (statusText : string) (emails : list GmailMessage) (w : App) :
  response_ok status = true ->
  tasks (pollEmails parseInt token now
           (HttpResponse status statusText emails) w)
  = ingest parseInt now emails (tasks w).
Proof.
  intros Hok. unfold pollEmails, fetchRecentEmails. rewrite Hok.
  cbn [negb]. unfold ingest.
  destruct (newTasks parseInt now emails (tasks w)) eqn:E;
    [reflexivity|].
  cbn [tasks appendLog setLogs setTasks]. now rewrite E.
Qed.

(** C6.  A message is stored under the identifier [gmail-<remote id>],
    and a task is pushed only when that identifier is not in the store.
    Hence after two successful polls, whatever the overlap of their
    listings, the store holds exactly one task for every message either
    poll returned, and a further poll of the same messages changes
    nothing. *)
Theorem polling_is_idempotent
  (token : string) (now1 now2 now3 status1 status2 : Z)
  (statusText1 statusText2 : string)
  (emails1 emails2 : list GmailMessage) (w : App) :
  NoDup (map id (tasks w)) ->
  NoDup (map m_id emails1) ->
  NoDup (map m_id emails2) ->
  response_ok status1 = true ->
  response_ok status2 = true ->
  let w1 := pollEmails parseInt token now1
              (HttpResponse status1 statusText1 emails1) w in
  let w2 := pollEmails parseInt token now2
              (HttpResponse status2 statusText2 emails2) w1 in
  (forall now e, id (gmail_task parseInt now e) = "gmail-" ++ m_id e)
  /\ (forall t, In t (newTasks parseInt now1 emails1 (tasks w)) ->
                find_task (id t) (tasks w) = None)
  /\ (forall t, In t (newTasks parseInt now2 emails2 (tasks w1)) ->
                find_task (id t) (tasks w1) = None)
  /\ (forall e, In e emails1 \/ In e emails2 ->
                count_id ("gmail-" ++ m_id e) (tasks w2) = 1)
  /\ pollEmails parseInt token now3
       (HttpResponse status2 statusText2 emails2) w2 = w2
  /\ pollEmails parseInt token now3
       (HttpResponse status1 statusText1 emails1) w2 = w2.
Proof.
  intros Hw H1 H2 Hok1 Hok2 w1 w2.
  assert (T1 : tasks w1 = ingest parseInt now1 emails1 (tasks w))
    by now apply tasks_pollEmails_ok.
  assert (T2 : tasks w2 = ingest parseInt now2 emails2 (tasks w1))
    by now apply tasks_pollEmails_ok.
  assert (N1 : NoDup (map id (tasks w1)))
    by (rewrite T1; now apply ingest_NoDup).
  assert (N2 : NoDup (map id (tasks w2)))
    by (rewrite T2; now apply ingest_NoDup).
  assert (Hin : forall e, In e emails1 \/ In e emails2 ->
                          In ("gmail-" ++ m_id e) (map id (tasks w2))).
  { intros e [He|He]; rewrite T2.
    - apply ingest_keeps. rewrite T1. now apply ingest_covers.
    - now apply ingest_covers. }
  assert (Hnone : forall now emails,
             (forall e, In e emails -> In e emails1 \/ In e emails2) ->
             newTasks parseInt now emails (tasks w2) = []).
  { intros now emails Hsub. unfold newTasks.
    replace (filter (unseen (tasks w2)) emails) with (@nil GmailMessage);
      [reflexivity|].
    symmetry. induction emails as [|a l IH]; [reflexivity|].
    simpl. destruct (unseen (tasks w2) a) eqn:Hu.
    - apply unseen_spec in Hu. exfalso. apply Hu, Hin, Hsub. now left.
    - apply IH. intros e He. apply Hsub. now right. }
  split; [reflexivity|].
  split; [intros t Ht; now apply newTasks_unseen in Ht|].
  split; [intros t Ht; now apply newTasks_unseen in Ht|].
  split; [intros e He; apply count_id_nodup; auto|].
  split; unfold pollEmails, fetchRecentEmails.
  - rewrite Hok2. cbn [negb]. rewrite Hnone; auto.
  - rewrite Hok1. cbn [negb]. rewrite Hnone; auto.
Qed.

End PollingFacts.

Lemma polling_is_idempotent_witness :
  let m := fun i s => mkGmailMessage i "thread" ["INBOX"] "snippet"
                        "1700000000000" s "ann@example.com" in
  let w2 := pollEmails (fun _ => None) "token" 2
              (HttpResponse 200 "OK" [m "b" "second"; m "c" "third"])
              (pollEmails (fun _ => None) "token" 1
                 (HttpResponse 200 "OK" [m "a" "first"; m "b" "second"])
                 (initial_App 0 "" "")) in
  map id (tasks w2) = ["gmail-c"; "gmail-a"; "gmail-b"; "task-1"]
  /\ count_id "gmail-b" (tasks w2) = 1.
Proof.
  cbv zeta. split; [reflexivity|].
  refine (proj1 (proj2 (proj2 (proj2
    (@polling_is_idempotent (fun _ => None) "token" 1 2 3 200 200 "OK" "OK"
       [mkGmailMessage "a" "thread" ["INBOX"] "snippet" "1700000000000"
          "first" "ann@example.com";
        mkGmailMessage "b" "thread" ["INBOX"] "snippet" "1700000000000"
          "second" "ann@example.com"]
       [mkGmailMessage "b" "thread" ["INBOX"] "snippet" "1700000000000"
          "second" "ann@example.com";
        mkGmailMessage "c" "thread" ["INBOX"] "snippet" "1700000000000"
          "third" "ann@example.com"]
       (initial_App 0 "" "") _ _ _ eq_refl eq_refl))))
    (mkGmailMessage "b" "thread" ["INBOX"] "snippet" "1700000000000"
       "second" "ann@example.com")
    (or_intror (or_introl eq_refl))).
  - repeat constructor; simpl; intuition discriminate.
  - repeat constructor; simpl; intuition discriminate.
  - repeat constructor; simpl; intuition discriminate.
Defined.

(** ** A rejected credential *)

(** What the [catch] of [pollEmails] does with an error: when the text of
    the error contains "401" the Gmail connector is marked disconnected
    and loses its token, so that the polling effect finds no integration
    to poll for; otherwise the component state is left as it is. *)
Lemma pollEmails_on_error (parseInt : string -> option Z) (token : string)
  (now : Z) (r : ListOutcome) (err : JsError) (w : App) :
  fetchRecentEmails token r = inl err ->
  let w' := pollEmails parseInt token now r w in
  if includes "401" (String_of_error err) then
    (forall i, In i (integrations w') -> i_id i = gmail ->
               isConnected i = false /\ accessToken i = None)
    /\ gmailIntegration w' = None
    /\ tasks w' = tasks w
  else w' = w.
Proof.
  intros Hf w'. subst w'. unfold pollEmails. rewrite Hf.
  destruct (includes "401" (String_of_error err)); [|reflexivity].
  cbn [integrations tasks setIntegrations appendLog setLogs].
  split; [|split; [|reflexivity]].
  - intros i Hi Hg. unfold update_integration in Hi.
    apply in_map_iff in Hi. destruct Hi as [j [<- Hj]].
    destruct (connector_eqb (i_id j) gmail) eqn:E; [now split|].
    rewrite Hg in E. discriminate.
  - unfold gmailIntegration.
    cbn [integrations tasks setIntegrations appendLog setLogs].
    unfold update_integration.
    induction (integrations w) as [|a l IH]; [reflexivity|].
    cbn [map find].
    destruct (connector_eqb (i_id a) gmail) eqn:E.
    + cbn [i_id isConnected accessToken]. rewrite E. cbn. exact IH.
    + rewrite E. cbn. exact IH.
Qed.

(** The disconnection that [pollEmails] forces does not reset the
    auto-trigger flag, unlike the one of [handleConnectClick]: with Gmail
    connected and auto-trigger on, an error whose text contains "401"
    leaves a connector that is not connected and has its flag set. *)
Lemma forced_disconnect_keeps_auto_trigger :
  let w := toggleAutoSummarize gmail
             (handleGmailAuthSuccess "ya29.token" 1 (initial_App 0 "" "")) in
  let w' := pollTick (fun _ => None) 2
              (FetchRejected (Error "Request failed with status code 401"))
              w in
  forallb connector_ok (integrations w) = true
  /\ option_map isConnected (find_integration gmail (integrations w'))
     = Some false
  /\ option_map accessToken (find_integration gmail (integrations w'))
     = Some None
  /\ option_map autoSummarize (find_integration gmail (integrations w'))
     = Some (Some true)
  /\ forallb connector_ok (integrations w') = false.
Proof.
  cbv zeta. repeat split.
Qed.

(** C7.  The list request is answered 401 Unauthorized for a connected
    Gmail integration.  [fetchRecentEmails] throws an error whose text is
    made of the status text only, "401" is not in it, and the poll leaves
    the connector connected with its token: the next tick polls again.
    The same holds for the empty status text of an HTTP/2 response. *)
Theorem unauthorized_poll_keeps_connector :
  let w := handleGmailAuthSuccess "ya29.token" 1 (initial_App 0 "" "") in
  let r := HttpResponse 401 "Unauthorized" [] in
  let w' := pollTick (fun _ => None) 2 r w in
  option_map accessToken (gmailIntegration w) = Some (Some "ya29.token")
  /\ fetchRecentEmails "ya29.token" r
     = inl (Error "Gmail API List Error: Unauthorized")
  /\ String_of_error (Error "Gmail API List Error: Unauthorized")
     = "Error: Gmail API List Error: Unauthorized"
  /\ includes "401" "Error: Gmail API List Error: Unauthorized" = false
  /\ w' = w
  /\ option_map isConnected (gmailIntegration w') = Some true
  /\ option_map accessToken (gmailIntegration w') = Some (Some "ya29.token")
  /\ pollTick (fun _ => None) 2 (HttpResponse 401 "" []) w = w.
Proof.
  cbv zeta. repeat split.
Qed.

(** ** The connector registry *)

Lemma connector_eqb_eq (a b : ConnectorId) :
  connector_eqb a b = true <-> a = b.
Proof. destruct a, b; simpl; split; congruence. Qed.

Lemma registry_ok_update (c : ConnectorId)
  (f : IntegrationConfig -> IntegrationConfig) (w w' : App) :
  integrations w' = update_integration c f (integrations w) ->
  registry_ok w ->
  (forall i, In i (integrations w) -> i_id i = c -> connector_ok (f i) = true) ->
  registry_ok w'.
Proof.
  intros Hw Hok Hf i Hi. rewrite Hw in Hi.
  unfold update_integration in Hi. apply in_map_iff in Hi.
  destruct Hi as [j [<- Hj]].
  destruct (connector_eqb (i_id j) c) eqn:E.
  - apply Hf; [assumption | now apply connector_eqb_eq].
  - now apply Hok.
Qed.

Lemma handleConnectClick_disconnects (w : App) (c : ConnectorId)
  (i0 i : IntegrationConfig) :
  find_integration c (integrations w) = Some i0 ->
  isConnected i0 = true ->
  In i (integrations (handleConnectClick c w)) ->
  i_id i = c ->
  isConnected i = false /\ accessToken i = None
  /\ autoSummarize i = Some false.
Proof.
  intros Hf Hc Hi Hid.
  unfold handleConnectClick in Hi. rewrite Hf, Hc in Hi.
  cbn [integrations appendLog setLogs setIntegrations] in Hi.
  unfold update_integration in Hi. apply in_map_iff in Hi.
  destruct Hi as [j [Hj _]].
  destruct (connector_eqb (i_id j) c) eqn:E.
  - rewrite <- Hj. now repeat split.
  - rewrite <- Hj in Hid. apply connector_eqb_eq in Hid. congruence.
Qed.

(** C9, counterexample.  In the initial registry no connector is connected
    and no auto-trigger flag is set; [toggleAutoSummarize] sets the flag of
    the Slack connector, which is still not connected. *)
Lemma toggle_breaks_registry_invariant :
  let w := initial_App 0 "" "" in
  forallb connector_ok (integrations w) = true
  /\ option_map isConnected
       (find_integration slack (integrations (toggleAutoSummarize slack w)))
     = Some false
  /\ option_map autoSummarize
       (find_integration slack (integrations (toggleAutoSummarize slack w)))
     = Some (Some true)
  /\ forallb connector_ok (integrations (toggleAutoSummarize slack w))
     = false
  /\ ~ (forall (w : App) (c : ConnectorId),
          registry_ok w -> registry_ok (toggleAutoSummarize c w)).
Proof.
  cbv zeta. repeat split.
  intros H.
  assert (Hok : registry_ok (initial_App 0 "" "")).
  { intros i Hi. cbn in Hi. destruct Hi as [<-|[<-|[<-|[]]]]; reflexivity. }
  specialize (H _ slack Hok
                (mkIntegration slack "Slack"
                   "Listen to engineering and product channels."
                   false None None (Some true) None)
                (or_introl eq_refl)).
  discriminate H.
Qed.

(** C9, amended.  "Auto-trigger only while connected" is preserved by
    connecting ([confirmConnection], [handleGmailAuthSuccess]) and by
    [handleConnectClick], and by [toggleAutoSummarize] when the connector
    toggled is connected; [toggleAutoSummarize] itself does not look at
    the connected flag.  When [handleConnectClick] finds the connector
    connected it clears the connected flag, the credential handle and the
    auto-trigger flag. *)
Theorem registry_invariant_preserved (w : App) (c : ConnectorId) :
  registry_ok w ->
  (forall a now, registry_ok (confirmConnection (Some c) a now w))
  /\ (forall token now, registry_ok (handleGmailAuthSuccess token now w))
  /\ registry_ok (handleConnectClick c w)
  /\ (connected c w -> registry_ok (toggleAutoSummarize c w))
  /\ (forall i0, find_integration c (integrations w) = Some i0 ->
                 isConnected i0 = true ->
                 forall i, In i (integrations (handleConnectClick c w)) ->
                           i_id i = c ->
                           isConnected i = false
                           /\ accessToken i = None
                           /\ autoSummarize i = Some false).
Proof.
  intros Hok. split; [|split; [|split; [|split]]].
  - intros a now. unfold confirmConnection.
    destruct (truthy a); [|exact Hok].
    eapply registry_ok_update; [reflexivity | exact Hok |].
    intros i _ _. unfold connector_ok. cbn. apply implb_true_r.
  - intros token now.
    eapply registry_ok_update; [reflexivity | exact Hok |].
    intros i _ _. unfold connector_ok. cbn. apply implb_true_r.
  - unfold handleConnectClick.
    destruct (find_integration c (integrations w)) as [i0|]; [|exact Hok].
    destruct (isConnected i0); [|exact Hok].
    eapply registry_ok_update; [reflexivity | exact Hok |].
    intros i _ _. reflexivity.
  - intros Hc.
    eapply registry_ok_update; [reflexivity | exact Hok |].
    intros i Hi Hid. unfold connector_ok. cbn.
    rewrite (Hc i Hi Hid). apply implb_true_r.
  - intros i0 Hf Hc i Hi Hid.
    exact (handleConnectClick_disconnects _ _ Hf Hc Hi Hid).
Qed.

Lemma registry_ok_slack_auto : registry_ok slack_auto_App.
Proof.
  intros i Hi. cbn in Hi.
  destruct Hi as [<-|[<-|[<-|[]]]]; reflexivity.
Defined.

Lemma registry_invariant_preserved_witness :
  registry_ok slack_auto_App
  /\ option_map autoSummarize
       (find_integration slack (integrations slack_auto_App))
     = Some (Some true)
  /\ registry_ok (handleConnectClick slack slack_auto_App)
  /\ option_map autoSummarize
       (find_integration slack
          (integrations (handleConnectClick slack slack_auto_App)))
     = Some (Some false).
Proof.
  split; [exact registry_ok_slack_auto|].
  split; [reflexivity|].
  split; [|reflexivity].
  exact (proj1 (proj2 (proj2
           (@registry_invariant_preserved slack_auto_App slack
              registry_ok_slack_auto)))).
Defined.

(** ** The lifecycle of a task *)

Lemma chain_lifecycle : lifecycle_relation chain.
Proof. constructor; [intros a; now destruct a | reflexivity | reflexivity]. Qed.

Lemma chain_with_retry_lifecycle : lifecycle_relation chain_with_retry.
Proof. constructor; [intros a; now destruct a | reflexivity | reflexivity]. Qed.

Lemma find_task_NoDup (l : list Task) (t : Task) :
  NoDup (map id l) -> In t l -> find_task (id t) l = Some t.
Proof.
  unfold find_task. induction l as [|a l IH]; simpl; intros Hn Hi;
    [contradiction|].
  inversion Hn as [|x xs Hx Hn']; subst.
  destruct Hi as [->|Hi]; [now rewrite String.eqb_refl|].
  destruct (String.eqb_spec (id a) (id t)) as [E|E].
  - exfalso. apply Hx. rewrite E. now apply in_map.
  - now apply IH.
Qed.

Lemma find_task_app_notin (k : string) (nts l : list Task) :
  ~ In k (map id nts) -> find_task k (nts ++ l) = find_task k l.
Proof.
  unfold find_task. induction nts as [|a nts IH]; simpl; intros H;
    [reflexivity|].
  destruct (String.eqb_spec (id a) k) as [E|E].
  - exfalso. apply H. now left.
  - apply IH. intros G. apply H. now right.
Qed.

Lemma drop_nth_NoDup {A B} (f : A -> B) (l : list A) :
  forall (n : nat) (r : A),
    NoDup (map f l) ->
    nth_error l n = Some r ->
    NoDup (map f (drop_nth n l))
    /\ forall r0, In r0 (drop_nth n l) -> In r0 l /\ f r0 <> f r.
Proof.
  induction l as [|a l IH]; intros n r Hn Hr.
  - destruct n; discriminate Hr.
  - inversion Hn as [|x xs Hx Hn']; subst.
    destruct n as [|n]; simpl in *.
    + injection Hr as <-. split; [assumption|].
      intros r0 H0. split; [now right|].
      intros E. apply Hx. rewrite <- E. now apply in_map.
    + destruct (IH n r Hn' Hr) as [IH1 IH2]. split.
      * constructor; [|assumption].
        intros G. apply in_map_iff in G. destruct G as [r0 [E G]].
        apply Hx. rewrite <- E. apply in_map. now apply IH2.
      * intros r0 [<-|H0].
        -- split; [now left|]. intros E. apply Hx. rewrite E.
           apply in_map. eapply nth_error_In. exact Hr.
        -- destruct (IH2 r0 H0). split; [now right | assumption].
Qed.

Lemma processTask_enter_Some (taskId : string) (w w' : App)
  (r : Suspended) :
  processTask_enter taskId w = Some (r, w') ->
  exists task,
    find_task taskId (tasks w) = Some task
    /\ runnable task = true
    /\ r = mkSuspended taskId task (effectiveKey w)
    /\ w' = entered taskId w.
Proof.
  unfold processTask_enter, runnable.
  destruct (find_task taskId (tasks w)) as [task|]; [|discriminate].
  destruct (status_eqb (status task) PROCESSING
            || status_eqb (status task) COMPLETED) eqn:E; [discriminate|].
  intros H. injection H as <- <-. exists task. rewrite E. now repeat split.
Qed.

Lemma tasks_settle (r : Suspended) (b : Backend) (w : App) :
  tasks (processTask_settle r b w)
  = update_task (s_taskId r) (settled r b) (tasks w).
Proof.
  unfold processTask_settle, settled.
  destruct (outcome (run_stages (s_key r) (s_task r) b)); reflexivity.
Qed.

Lemma settled_spec (r : Suspended) (b : Backend) (t : Task) :
  id (s_task r) = s_taskId r ->
  id t = s_taskId r ->
  id (settled r b t) = s_taskId r
  /\ (status (settled r b t) = COMPLETED
      \/ status (settled r b t) = FAILED).
Proof.
  intros Hr Ht. unfold settled.
  destruct (outcome (run_stages (s_key r) (s_task r) b)) as [e|ft] eqn:Ho.
  - split; [exact Ht | now right].
  - apply run_stages_inr in Ho. destruct Ho as [Hi Hs].
    split; [congruence | now left].
Qed.

(** Whatever happened while the run was suspended, if its task is stored
    when it settles, the task is replaced by [finalTask], or has its
    status set to FAILED and nothing else touched. *)
Lemma settle_stored (r : Suspended) (b : Backend) (w : App) (t : Task) :
  id (s_task r) = s_taskId r ->
  find_task (s_taskId r) (tasks w) = Some t ->
  find_task (s_taskId r) (tasks (processTask_settle r b w))
  = Some (settled r b t).
Proof.
  intros Hr Hf. rewrite tasks_settle.
  rewrite find_task_update
    by (intros t0 Ht0; now apply settled_spec).
  rewrite Hf. cbn [option_map].
  now rewrite (find_task_id _ _ Hf), String.eqb_refl.
Qed.

Lemma runnable_status (t : Task) :
  runnable t = true -> status t = PENDING \/ status t = FAILED.
Proof.
  unfold runnable. destruct (status t); simpl; intros H;
    try discriminate; auto.
Qed.

Lemma nodupb_NoDup (l : list string) : nodupb l = true -> NoDup l.
Proof.
  induction l as [|x l IH]; simpl; intros H; [constructor|].
  apply andb_true_iff in H. destruct H as [H1 H2].
  constructor; [|now apply IH].
  intros Hin. apply negb_true_iff in H1.
  assert (existsb (String.eqb x) l = true); [|congruence].
  apply existsb_exists. exists x. split; [assumption|].
  apply String.eqb_refl.
Qed.

Lemma absent_spec (k : string) (s : Sys) :
  absent k s = true -> ~ In k (map id (tasks (app s))).
Proof.
  unfold absent. intros H. apply find_task_None.
  now destruct (find_task k (tasks (app s))).
Qed.

Section Steps.

Variable rel : TaskStatus -> TaskStatus -> bool.
Hypothesis Hrel : lifecycle_relation rel.

(** Adding tasks under new identifiers. *)
Lemma good_step_extend (s s' : Sys) (nts : list Task) :
  consistent s ->
  inflight s' = inflight s ->
  tasks (app s') = (nts ++ tasks (app s))%list ->
  NoDup (map id (nts ++ tasks (app s))) ->
  good_step rel s s'.
Proof.
  intros [Hi Hu Hp] Hfl Ht Hn.
  assert (Hold : forall k, In k (map id (tasks (app s))) ->
                           find_task k (tasks (app s'))
                           = find_task k (tasks (app s))).
  { intros k Hk. rewrite Ht. apply find_task_app_notin.
    rewrite map_app in Hn. intros G.
    revert Hn G Hk. generalize (map id (tasks (app s))).
    induction (map id nts) as [|x xs IH]; simpl; intros l Hn G Hk;
      [contradiction|].
    inversion Hn as [|y ys Hy Hn']; subst.
    destruct G as [->|G].
    - apply Hy. apply in_or_app. now right.
    - now apply (IH l). }
  split.
  - constructor.
    + now rewrite Ht.
    + now rewrite Hfl.
    + rewrite Hfl. intros r Hr. destruct (Hp r Hr) as [H1 [t [H2 H3]]].
      split; [assumption|]. exists t. split; [|assumption].
      rewrite Hold; [assumption|].
      apply find_task_In in H2 as Hin. apply find_task_id in H2.
      rewrite <- H2. now apply in_map.
  - intros t Hin. exists t. split; [|apply (rel_stay Hrel)].
    rewrite Hold by now apply in_map.
    now apply find_task_NoDup.
Qed.

(** Leaving the store and the runs as they are. *)
Lemma good_step_same (s s' : Sys) :
  consistent s ->
  inflight s' = inflight s ->
  tasks (app s') = tasks (app s) ->
  good_step rel s s'.
Proof.
  intros Hc Hfl Ht.
  apply (@good_step_extend s s' []); try assumption.
  exact (ids_unique Hc).
Qed.

(** Rewriting the tasks named [k] without touching name or status. *)
Lemma good_step_edit (s s' : Sys) (k : string) (f : Task -> Task) :
  consistent s ->
  inflight s' = inflight s ->
  tasks (app s') = update_task k f (tasks (app s)) ->
  (forall t, id (f t) = id t /\ status (f t) = status t) ->
  good_step rel s s'.
Proof.
  intros [Hi Hu Hp] Hfl Ht Hf.
  assert (Hk : forall t, id t = k -> id (f t) = k)
    by (intros t <-; apply Hf).
  split.
  - constructor.
    + rewrite Ht, map_id_update; assumption.
    + now rewrite Hfl.
    + rewrite Hfl. intros r Hr. destruct (Hp r Hr) as [H1 [t [H2 H3]]].
      split; [assumption|].
      rewrite Ht, find_task_update, H2 by assumption. cbn [option_map].
      destruct (String.eqb (id t) k); eexists; split; try reflexivity;
        [now rewrite (proj2 (Hf t)) | assumption].
  - intros t Hin. rewrite Ht, find_task_update by assumption.
    rewrite (find_task_NoDup _ _ Hi Hin). cbn [option_map].
    destruct (String.eqb (id t) k); eexists; split; try reflexivity.
    + rewrite (proj2 (Hf t)). apply (rel_stay Hrel).
    + apply (rel_stay Hrel).
Qed.

(** Entering a run, when [rel] allows the task's status to become
    PROCESSING. *)
Lemma good_step_submit (s : Sys) (taskId : string) :
  consistent s ->
  (forall task, find_task taskId (tasks (app s)) = Some task ->
                runnable task = true ->
                rel (status task) PROCESSING = true) ->
  good_step rel s (submit taskId s).
Proof.
  intros Hc Hallow. unfold submit.
  destruct (processTask_enter taskId (app s)) as [[r w']|] eqn:E;
    [|now apply good_step_same].
  apply processTask_enter_Some in E.
  destruct E as [task [Hf [Hr [-> ->]]]].
  specialize (Hallow task Hf Hr).
  destruct Hc as [Hi Hu Hp].
  assert (Hk : forall t, id t = taskId ->
                         id (with_status PROCESSING t) = taskId)
    by (intros; assumption).
  assert (Hnew : forall r, In r (inflight s) -> s_taskId r <> taskId).
  { intros r Hin E. destruct (Hp r Hin) as [_ [t [H2 H3]]].
    rewrite E, Hf in H2. injection H2 as <-.
    apply runnable_status in Hr. rewrite H3 in Hr.
    destruct Hr; discriminate. }
  split.
  - constructor; cbn [app inflight tasks entered setTasks setLogs
                      setIsProcessing].
    + rewrite map_id_update; assumption.
    + cbn [map s_taskId]. constructor; [|assumption].
      intros G. apply in_map_iff in G. destruct G as [r [E G]].
      exact (Hnew r G E).
    + intros r [<-|Hin]; cbn [s_taskId s_task].
      * split; [now apply find_task_id in Hf|].
        rewrite find_task_update, Hf by assumption. cbn [option_map].
        rewrite (find_task_id _ _ Hf), String.eqb_refl.
        eexists. split; reflexivity.
      * destruct (Hp r Hin) as [H1 [t [H2 H3]]].
        split; [assumption|].
        rewrite find_task_update, H2 by assumption. cbn [option_map].
        rewrite (find_task_id _ _ H2).
        destruct (String.eqb_spec (s_taskId r) taskId) as [E|E];
          [elim (Hnew r Hin E)|].
        exists t. now split.
  - intros t Hin.
    cbn [app inflight tasks entered setTasks setLogs setIsProcessing].
    rewrite find_task_update by assumption.
    rewrite (find_task_NoDup _ _ Hi Hin). cbn [option_map].
    destruct (String.eqb_spec (id t) taskId) as [E|E].
    + eexists. split; [reflexivity|].
      rewrite <- E, (find_task_NoDup _ _ Hi Hin) in Hf.
      injection Hf as ->. exact Hallow.
    + eexists. split; [reflexivity | apply (rel_stay Hrel)].
Qed.

(** Settling a suspended run. *)
Lemma good_step_settle (s : Sys) (n : nat) (r : Suspended) (b : Backend) :
  consistent s ->
  nth_error (inflight s) n = Some r ->
  good_step rel s
    (mkSys (processTask_settle r b (app s)) (drop_nth n (inflight s))).
Proof.
  intros [Hi Hu Hp] Hn.
  pose proof (nth_error_In _ _ Hn) as Hin.
  destruct (Hp r Hin) as [Hr1 [t0 [Hr2 Hr3]]].
  destruct (drop_nth_NoDup s_taskId _ _ Hu Hn) as [Hd1 Hd2].
  assert (Hk : forall t, id t = s_taskId r ->
                         id (settled r b t) = s_taskId r)
    by (intros t Ht; now apply settled_spec).
  split.
  - constructor; cbn [app inflight]; rewrite ?tasks_settle.
    + rewrite map_id_update; assumption.
    + assumption.
    + intros r0 H0. destruct (Hd2 r0 H0) as [H0in Hneq].
      destruct (Hp r0 H0in) as [H1 [t [H2 H3]]].
      split; [assumption|].
      rewrite find_task_update, H2 by assumption. cbn [option_map].
      rewrite (find_task_id _ _ H2).
      destruct (String.eqb_spec (s_taskId r0) (s_taskId r)) as [E|E];
        [contradiction|].
      exists t. now split.
  - intros t Ht. cbn [app inflight]. rewrite tasks_settle.
    rewrite find_task_update by assumption.
    rewrite (find_task_NoDup _ _ Hi Ht). cbn [option_map].
    destruct (String.eqb_spec (id t) (s_taskId r)) as [E|E].
    + eexists. split; [reflexivity|].
      rewrite <- E, (find_task_NoDup _ _ Hi Ht) in Hr2.
      injection Hr2 as <-. rewrite Hr3.
      destruct (settled_spec r b t Hr1 E) as [_ [-> | ->]];
        [apply (rel_completed Hrel) | apply (rel_failed Hrel)].
    + eexists. split; [reflexivity | apply (rel_stay Hrel)].
Qed.

Variable parseInt : string -> option Z.

(** An event that does not call [processTask] is a good step. *)
Lemma fire_good_step_other (s : Sys) (e : Event) :
  consistent s ->
  plausible s e = true ->
  match e with
  | Submit _ | RunButton | AutoProcess => True
  | _ => good_step rel s (fire parseInt s e)
  end.
Proof.
  intros Hc Hpl.
  destruct e as [taskId | | | n b | src from_ content high now
                 | content src now | now r | sel | c | c | c
                 | c a now | token now]; cbn [fire]; try exact I.
  - (* Settle *)
    destruct (nth_error (inflight s) n) as [r|] eqn:E.
    + now apply good_step_settle.
    + now apply good_step_same.
  - (* StreamTask *)
    apply (@good_step_extend s _ [stream_task src from_ content high now]);
      try reflexivity; [assumption|].
    cbn [app plausible] in *. constructor; [|exact (ids_unique Hc)].
    now apply absent_spec.
  - (* ManualDispatch *)
    unfold handleManualDispatch.
    destruct (blank content); [now apply good_step_same|].
    apply (@good_step_extend s _ [manual_task src content now]);
      try reflexivity; [assumption|].
    cbn [app plausible] in *. constructor; [|exact (ids_unique Hc)].
    now apply absent_spec.
  - (* PollTick *)
    unfold pollTick.
    destruct (gmailIntegration (app s)) as [i|];
      [|now apply good_step_same].
    destruct (accessToken i) as [token|]; [|now apply good_step_same].
    destruct r as [err | status statusText messages].
    + unfold pollEmails, fetchRecentEmails.
      destruct (includes "401" (String_of_error err));
        now apply good_step_same.
    + unfold pollEmails, fetchRecentEmails.
      destruct (negb (response_ok status)).
      * destruct (includes "401" _); now apply good_step_same.
      * cbn [plausible] in Hpl. apply nodupb_NoDup in Hpl.
        destruct (newTasks parseInt now messages (tasks (app s)))
          as [|nt nts] eqn:E; [now apply good_step_same|].
        apply (@good_step_extend s _
                 (newTasks parseInt now messages (tasks (app s))));
          try reflexivity; [assumption| |].
        -- cbn [app tasks appendLog setLogs setTasks].
           now rewrite ingest_app.
        -- rewrite <- ingest_app. apply ingest_NoDup;
             [assumption | exact (ids_unique Hc)].
  - (* Select *) now apply good_step_same.
  - (* SaveEdit *)
    unfold handleSaveEdit.
    destruct (selectedTaskId (app s)) as [sel|];
      [|now apply good_step_same].
    destruct (negb (truthy sel)); [now apply good_step_same|].
    eapply good_step_edit; try reflexivity; [assumption|].
    intros t. now split.
  - (* ConnectClick *)
    apply good_step_same; try assumption; try reflexivity.
    cbn [app]. unfold handleConnectClick.
    destruct (find_integration c (integrations (app s))) as [i|];
      [|reflexivity].
    now destruct (isConnected i).
  - (* ToggleAuto *) now apply good_step_same.
  - (* ConfirmConnection *)
    apply good_step_same; try assumption; try reflexivity.
    cbn [app]. unfold confirmConnection.
    destruct c as [c|]; [|reflexivity].
    now destruct (negb (truthy a)).
  - (* GmailAuthSuccess *) now apply good_step_same.
Qed.

(** The component's own callers submit PENDING tasks only. *)
Lemma fire_good_step_callers (s : Sys) (e : Event) :
  consistent s ->
  rel PENDING PROCESSING = true ->
  match e with
  | RunButton | AutoProcess => good_step rel s (fire parseInt s e)
  | _ => True
  end.
Proof.
  intros Hc Hpp.
  destruct e; try exact I; cbn [fire].
  - (* RunButton *)
    destruct (runButton (app s)) as [k|] eqn:E;
      [|now apply good_step_same].
    apply good_step_submit; [assumption|].
    intros task Hf _. unfold runButton in E.
    destruct (selectedTaskId (app s)) as [sel|]; [|discriminate].
    destruct (find_task sel (tasks (app s))) as [t|] eqn:Ht;
      [|discriminate].
    destruct (status_eqb (status t) PENDING) eqn:Hs; [|discriminate].
    destruct (negb (isProcessing (app s))); [|discriminate].
    injection E as <-.
    rewrite (find_task_id _ _ Ht), Ht in Hf. injection Hf as <-.
    destruct (status t); try discriminate Hs. exact Hpp.
  - (* AutoProcess *)
    destruct (autoProcess (app s)) as [k|] eqn:E;
      [|now apply good_step_same].
    apply good_step_submit; [assumption|].
    intros task Hf _. unfold autoProcess in E.
    destruct (pendingAutoTask (app s)) as [t|] eqn:Ht; [|discriminate].
    destruct (negb (isProcessing (app s))); [|discriminate].
    injection E as <-.
    unfold pendingAutoTask in Ht. apply find_some in Ht.
    destruct Ht as [Hin Hs]. apply andb_true_iff in Hs.
    destruct Hs as [Hs _].
    rewrite (find_task_NoDup _ _ (ids_unique Hc) Hin) in Hf.
    injection Hf as <-.
    destruct (status t); try discriminate Hs. exact Hpp.
Qed.

End Steps.

Section TimelineFacts.

Variable parseInt : string -> option Z.

(** With the retry edge, every plausible event is a good step. *)
Lemma fire_good_step (s : Sys) (e : Event) :
  consistent s ->
  plausible s e = true ->
  good_step chain_with_retry s (fire parseInt s e).
Proof.
  intros Hc Hpl.
  pose proof (fire_good_step_other chain_with_retry_lifecycle parseInt
                e Hc Hpl) as Ho.
  pose proof (fire_good_step_callers chain_with_retry_lifecycle parseInt
                e Hc eq_refl) as Hb.
  destruct e; try exact Ho; try exact Hb.
  (* Submit *)
  cbn [fire]. apply good_step_submit;
    [exact chain_with_retry_lifecycle | assumption |].
  intros task _ Hr.
  destruct (runnable_status _ Hr) as [-> | ->]; reflexivity.
Qed.

(** Without the retry edge, every plausible event other than a direct
    call of [processTask] is a good step. *)
Lemma fire_good_step_strict (s : Sys) (e : Event) :
  consistent s ->
  plausible s e = true ->
  via_callers e = true ->
  good_step chain s (fire parseInt s e).
Proof.
  intros Hc Hpl Hv.
  pose proof (fire_good_step_other chain_lifecycle parseInt e Hc Hpl)
    as Ho.
  pose proof (fire_good_step_callers chain_lifecycle parseInt e Hc eq_refl)
    as Hb.
  destruct e; try exact Ho; try exact Hb.
  discriminate Hv.
Qed.

Lemma consistent_initial (now : Z) (userKey envKey : string) :
  consistent (initial_Sys now userKey envKey).
Proof.
  constructor; cbn.
  - repeat constructor. auto.
  - constructor.
  - contradiction.
Qed.

Lemma consistent_after (s : Sys) (es : list Event) :
  consistent s ->
  plausible_all parseInt s es = true ->
  consistent (after parseInt s es).
Proof.
  revert s. induction es as [|e es IH]; intros s Hc Hp; [assumption|].
  cbn in *. apply andb_true_iff in Hp. destruct Hp as [Hp1 Hp2].
  apply IH; [|assumption].
  now apply fire_good_step.
Qed.

(** While the component's callers are the only ones to call
    [processTask], a run is suspended only while [isProcessing] is set,
    and there is at most one. *)
Lemma single_flight_step (s : Sys) (e : Event) :
  via_callers e = true ->
  (isProcessing (app s) = false -> inflight s = []) ->
  List.length (inflight s) <= 1 ->
  (isProcessing (app (fire parseInt s e)) = false ->
   inflight (fire parseInt s e) = [])
  /\ List.length (inflight (fire parseInt s e)) <= 1.
Proof.
  intros Hv Hidle Hone.
  assert (Hsub : forall k, isProcessing (app s) = false ->
            (isProcessing (app (submit k s)) = false ->
             inflight (submit k s) = [])
            /\ List.length (inflight (submit k s)) <= 1).
  { intros k Hfalse. unfold submit.
    destruct (processTask_enter k (app s)) as [[r w']|] eqn:E.
    - apply processTask_enter_Some in E.
      destruct E as [task [_ [_ [_ ->]]]].
      cbn. rewrite (Hidle Hfalse). split; [discriminate | cbn; lia].
    - auto. }
  destruct e as [taskId | | | n b | src from_ content high now
                 | content src now | now r | sel | c | c | c
                 | c a now | token now]; cbn [fire];
    try discriminate Hv; try (split; assumption).
  - (* RunButton *)
    destruct (runButton (app s)) as [k|] eqn:E; [|auto].
    apply Hsub. unfold runButton in E.
    destruct (selectedTaskId (app s)) as [sel|]; [|discriminate].
    destruct (find_task sel (tasks (app s))); [|discriminate].
    destruct (isProcessing (app s)); [|reflexivity].
    rewrite andb_false_r in E. discriminate.
  - (* AutoProcess *)
    destruct (autoProcess (app s)) as [k|] eqn:E; [|auto].
    apply Hsub. unfold autoProcess in E.
    destruct (pendingAutoTask (app s)); [|discriminate].
    destruct (isProcessing (app s)); [discriminate | reflexivity].
  - (* Settle *)
    destruct (nth_error (inflight s) n) as [r|] eqn:E; [|auto].
    cbn [inflight]. destruct (inflight s) as [|r0 [|r1 l]].
    + destruct n; discriminate E.
    + destruct n as [|[|n]]; try discriminate E. cbn. split; [auto|lia].
    + cbn in Hone. lia.
  - (* ManualDispatch *)
    cbn [app inflight]. unfold handleManualDispatch.
    destruct (blank content); split; assumption.
  - (* PollTick *)
    cbn [app inflight]. split; [|assumption].
    intros H. apply Hidle. revert H. unfold pollTick.
    destruct (gmailIntegration (app s)) as [i|]; [|auto].
    destruct (accessToken i) as [token|]; [|auto].
    unfold pollEmails.
    destruct (fetchRecentEmails token r) as [err|emails].
    + now destruct (includes "401" (String_of_error err)).
    + now destruct (newTasks parseInt now emails (tasks (app s))).
  - (* SaveEdit *)
    cbn [app inflight]. split; [|assumption].
    intros H. apply Hidle. revert H. unfold handleSaveEdit.
    destruct (selectedTaskId (app s)) as [sel|]; [|auto].
    now destruct (negb (truthy sel)).
  - (* ConnectClick *)
    cbn [app inflight]. split; [|assumption].
    intros H. apply Hidle. revert H. unfold handleConnectClick.
    destruct (find_integration c (integrations (app s))) as [i|]; [|auto].
    now destruct (isConnected i).
  - (* ConfirmConnection *)
    cbn [app inflight]. split; [|assumption].
    intros H. apply Hidle. revert H. unfold confirmConnection.
    destruct c as [c|]; [|auto].
    now destruct (negb (truthy a)).
Qed.

Lemma single_flight_after (s : Sys) (es : list Event) :
  all_via_callers es = true ->
  (isProcessing (app s) = false -> inflight s = []) ->
  List.length (inflight s) <= 1 ->
  List.length (inflight (after parseInt s es)) <= 1.
Proof.
  revert s. induction es as [|e es IH]; intros s Hv Hidle Hone;
    [assumption|].
  cbn in *. apply andb_true_iff in Hv. destruct Hv as [Hv1 Hv2].
  destruct (@single_flight_step s e Hv1 Hidle Hone) as [H1 H2].
  now apply IH.
Qed.

End TimelineFacts.

(** ** One run at a time *)

(** C2, counterexample.  After a manual dispatch and the submission of
    [task-1], [isProcessing] is set and [manual-5] is PENDING; submitting
    [manual-5] is accepted all the same: its status becomes PROCESSING and
    two runs are suspended. *)
Lemma processTask_starts_second_run :
  let s := after (fun _ => None) (initial_Sys 0 "" "")
             [ManualDispatch "Second signal" SLACK 5; Submit "task-1"] in
  let s' := fire (fun _ => None) s (Submit "manual-5") in
  isProcessing (app s) = true
  /\ option_map status (find_task "manual-5" (tasks (app s))) = Some PENDING
  /\ option_map status (find_task "task-1" (tasks (app s)))
     = Some PROCESSING
  /\ option_map status (find_task "manual-5" (tasks (app s')))
     = Some PROCESSING
  /\ map s_taskId (inflight s') = ["manual-5"; "task-1"]
  /\ ~ entry_rejects_while_processing.
Proof.
  cbv zeta. repeat split; try reflexivity.
  intros H.
  specialize (H (app (after (fun _ => None) (initial_Sys 0 "" "")
                        [ManualDispatch "Second signal" SLACK 5;
                         Submit "task-1"]))
                "manual-5" eq_refl).
  vm_compute in H. discriminate H.
Qed.

(** C2, amended.  At most one run is suspended at any moment as long as
    [processTask] is called only by the component's own callers, the
    Auto-Execute button and the auto-process effect: both do nothing while
    [isProcessing] is set, and so does the first revision of
    [processTask].  The current [processTask] does not look at
    [isProcessing]: it returns early exactly when the task is unknown or
    its own status is PROCESSING or COMPLETED. *)
Theorem single_flight_gate
  (parseInt : string -> option Z) (now : Z) (userKey envKey : string)
  (es : list Event) (w1 : Rev1.App) (w : App) (taskId : string) :
  all_via_callers es = true ->
  Rev1.isProcessing w1 = true ->
  isProcessing w = true ->
  List.length
    (inflight (after parseInt (initial_Sys now userKey envKey) es)) <= 1
  /\ Rev1.processTask_enter taskId w1 = None
  /\ autoProcess w = None
  /\ runButton w = None
  /\ (processTask_enter taskId w = None <->
      match find_task taskId (tasks w) with
      | None => True
      | Some task => status task = PROCESSING \/ status task = COMPLETED
      end).
Proof.
  intros Hv H1 H. split; [|split; [|split; [|split]]].
  - apply single_flight_after; [assumption | reflexivity | cbn; lia].
  - unfold Rev1.processTask_enter. rewrite H1.
    now destruct (find_task taskId (Rev1.tasks w1)).
  - unfold autoProcess. rewrite H.
    now destruct (pendingAutoTask w).
  - unfold runButton. rewrite H.
    destruct (selectedTaskId w) as [sel|]; [|reflexivity].
    destruct (find_task sel (tasks w)); [|reflexivity].
    now rewrite andb_false_r.
  - rewrite processTask_enter_rejected.
    destruct (find_task taskId (tasks w)) as [task|]; [|tauto].
    unfold runnable. destruct (status task); cbn; split; intros G;
      try discriminate; try reflexivity; auto;
      destruct G; discriminate.
Qed.

Lemma single_flight_gate_witness :
  let es := [ManualDispatch "Second signal" SLACK 5; ToggleAuto slack;
             AutoProcess; Select (Some "task-1"); RunButton; AutoProcess] in
  let s := after (fun _ => None) (initial_Sys 0 "" "") es in
  let w1 := Rev1.mkApp [with_status PROCESSING (INITIAL_TASK 0);
                        manual_task SLACK "Second signal" 5] [] true in
  all_via_callers es = true
  /\ Rev1.isProcessing w1 = true
  /\ isProcessing (app s) = true
  /\ map s_taskId (inflight s) = ["manual-5"]
  /\ List.length (inflight s) <= 1
  /\ Rev1.processTask_enter "task-1" w1 = None
  /\ option_map id (pendingAutoTask (app s)) = Some "task-1"
  /\ autoProcess (app s) = None
  /\ runButton (app s) = None.
Proof.
  cbv zeta.
  pose proof (@single_flight_gate (fun _ => None) 0%Z "" ""
                [ManualDispatch "Second signal" SLACK 5; ToggleAuto slack;
                 AutoProcess; Select (Some "task-1"); RunButton;
                 AutoProcess]
                (Rev1.mkApp [with_status PROCESSING (INITIAL_TASK 0);
                             manual_task SLACK "Second signal" 5] [] true)
                (app (after (fun _ => None) (initial_Sys 0 "" "")
                        [ManualDispatch "Second signal" SLACK 5;
                         ToggleAuto slack; AutoProcess;
                         Select (Some "task-1"); RunButton; AutoProcess]))
                "task-1" eq_refl eq_refl eq_refl)
    as [H0 [H1 [H2 [H3 _]]]].
  repeat split; try reflexivity; assumption.
Defined.

(** ** The lifecycle along every sequence of events *)

(** C1, counterexample.  With a key configured, [task-1] is submitted and
    its run fails (the decision text is [null]); the task is FAILED.
    Calling [processTask] on it again is accepted and its status becomes
    PROCESSING: a task in a terminal status has re-entered PROCESSING,
    which the chain PENDING, PROCESSING, COMPLETED or FAILED does not
    allow. *)
Lemma failed_task_reenters_processing :
  let es := [Submit "task-1"; Settle 0 null_decision_backend] in
  let s := after (fun _ => None) (initial_Sys 0 "key" "") es in
  let s' := fire (fun _ => None) s (Submit "task-1") in
  plausible_all (fun _ => None) (initial_Sys 0 "key" "") es = true
  /\ option_map status (find_task "task-1" (tasks (app s))) = Some FAILED
  /\ option_map status (find_task "task-1" (tasks (app s')))
     = Some PROCESSING
  /\ chain FAILED PROCESSING = false
  /\ ~ steps_follow chain.
Proof.
  cbv zeta. repeat split.
  intros H.
  specialize (H (fun _ => None) 0%Z "key" ""
                [Submit "task-1"; Settle 0 null_decision_backend]
                (Submit "task-1") eq_refl eq_refl
                (with_status FAILED (INITIAL_TASK 0))
                (or_introl eq_refl)).
  destruct H as [t' [H1 H2]].
  vm_compute in H1. injection H1 as <-. discriminate H2.
Qed.

(** C1, amended.  Along every sequence of events from the initial state
    (calls of [processTask], settled runs, arrivals of tasks under new
    identifiers, polls, edits, connector operations), a stored task stays
    stored and its status only moves from PENDING to PROCESSING, from
    PROCESSING to COMPLETED or FAILED, or from FAILED back to PROCESSING.
    A COMPLETED task keeps its status and no task goes from PENDING to
    COMPLETED or FAILED in one step.  The edge from FAILED to PROCESSING
    is taken only by a direct call of [processTask]: an event in which the
    component's own callers (the Auto-Execute button, the auto-process
    effect) submit a task follows the chain without it. *)
Theorem lifecycle_with_retry
  (parseInt : string -> option Z) (now : Z) (userKey envKey : string)
  (es : list Event) (e : Event) :
  let s := after parseInt (initial_Sys now userKey envKey) es in
  plausible_all parseInt (initial_Sys now userKey envKey) es = true ->
  plausible s e = true ->
  forall t, In t (tasks (app s)) ->
    exists t', find_task (id t) (tasks (app (fire parseInt s e))) = Some t'
               /\ chain_with_retry (status t) (status t') = true
               /\ (status t = COMPLETED -> status t' = COMPLETED)
               /\ (status t = PENDING ->
                   status t' = PENDING \/ status t' = PROCESSING)
               /\ (via_callers e = true ->
                   chain (status t) (status t') = true).
Proof.
  intros s Hes He t Hin.
  assert (Hc : consistent s).
  { apply consistent_after; [apply consistent_initial | assumption]. }
  destruct (fire_good_step parseInt e Hc He) as [_ Hstep].
  destruct (Hstep t Hin) as [t' [H1 H2]].
  exists t'. split; [assumption|]. split; [assumption|].
  split; [|split].
  - intros E; rewrite E in H2; destruct (status t');
      try discriminate H2; auto.
  - intros E; rewrite E in H2; destruct (status t');
      try discriminate H2; auto.
  - intros Hv.
    destruct (fire_good_step_strict parseInt e Hc He Hv) as [_ Hstrict].
    destruct (Hstrict t Hin) as [t'' [H3 H4]].
    rewrite H1 in H3. injection H3 as <-. exact H4.
Qed.

Lemma lifecycle_with_retry_witness :
  let es := [Submit "task-1"; Settle 0 null_decision_backend] in
  let s := after (fun _ => None) (initial_Sys 0 "key" "") es in
  plausible_all (fun _ => None) (initial_Sys 0 "key" "") es = true
  /\ plausible s (Submit "task-1") = true
  /\ In (with_status FAILED (INITIAL_TASK 0)) (tasks (app s))
  /\ exists t',
       find_task "task-1"
         (tasks (app (fire (fun _ => None) s (Submit "task-1")))) = Some t'
       /\ chain_with_retry FAILED (status t') = true.
Proof.
  cbv zeta.
  split; [reflexivity|]. split; [reflexivity|].
  split; [left; reflexivity|].
  destruct (@lifecycle_with_retry (fun _ => None) 0%Z "key" ""
              [Submit "task-1"; Settle 0 null_decision_backend]
              (Submit "task-1") eq_refl eq_refl
              (with_status FAILED (INITIAL_TASK 0)) (or_introl eq_refl))
    as [t' [H1 [H2 _]]].
  exists t'. split; assumption.
Defined.

(** * Further properties *)

(** ** The stream service *)

Lemma set_add_In (x y : string) (s : list string) :
  In x (StreamService.set_add y s) <-> x = y \/ In x s.
Proof.
  unfold StreamService.set_add.
  destruct (existsb (String.eqb y) s) eqn:E.
  - split; [now right|]. intros [->|H]; [|assumption].
    apply existsb_exists in E. destruct E as [z [Hz E]].
    apply String.eqb_eq in E. now subst.
  - rewrite in_app_iff. simpl. split.
    + intros [H|[H|[]]]; [now right | now left].
    + intros [->|H]; [right; now left | now left].
Qed.

Lemma set_delete_In (x y : string) (s : list string) :
  In x (StreamService.set_delete y s) <-> x <> y /\ In x s.
Proof.
  unfold StreamService.set_delete. rewrite filter_In.
  destruct (String.eqb_spec x y) as [E|E]; simpl; split.
  - intros [_ H]. discriminate.
  - intros [H _]. contradiction.
  - intros [H _]. now split.
  - intros [_ H]. now split.
Qed.

Lemma set_add_NoDup (y : string) (s : list string) :
  NoDup s -> NoDup (StreamService.set_add y s).
Proof.
  intros H. unfold StreamService.set_add.
  destruct (existsb (String.eqb y) s) eqn:E; [assumption|].
  apply NoDup_app; [assumption | repeat constructor; auto |].
  intros x Hx [Hy|[]]. subst x.
  assert (existsb (String.eqb y) s = true); [|congruence].
  apply existsb_exists. exists y. split; [assumption|].
  apply String.eqb_refl.
Qed.

Lemma set_delete_NoDup (y : string) (s : list string) :
  NoDup s -> NoDup (StreamService.set_delete y s).
Proof. intros H. now apply NoDup_filter. Qed.

Lemma set_delete_absent (y : string) (s : list string) :
  ~ In y s -> StreamService.set_delete y s = s.
Proof.
  unfold StreamService.set_delete.
  induction s as [|a s IH]; simpl; intros H; [reflexivity|].
  destruct (String.eqb_spec a y) as [E|E]; simpl.
  - exfalso. apply H. now left.
  - f_equal. apply IH. intros G. apply H. now right.
Qed.

(** X1.  The set of active connectors of the stream service never holds
    a connector twice; a connector is active after [activateConnector] and
    inactive after [deactivateConnector], the others are as before;
    activating twice is activating once, and activating then deactivating
    a connector that was inactive gives the service back as it was. *)
Theorem active_connectors_are_a_set (c : string)
  (st : StreamService.State) :
  NoDup (StreamService.activeConnectors st) ->
  NoDup (StreamService.activeConnectors
           (StreamService.activateConnector c st))
  /\ NoDup (StreamService.activeConnectors
              (StreamService.deactivateConnector c st))
  /\ (forall x,
        In x (StreamService.activeConnectors
                (StreamService.activateConnector c st))
        <-> x = c \/ In x (StreamService.activeConnectors st))
  /\ (forall x,
        In x (StreamService.activeConnectors
                (StreamService.deactivateConnector c st))
        <-> x <> c /\ In x (StreamService.activeConnectors st))
  /\ StreamService.activateConnector c
       (StreamService.activateConnector c st)
     = StreamService.activateConnector c st
  /\ (~ In c (StreamService.activeConnectors st) ->
      StreamService.deactivateConnector c
        (StreamService.activateConnector c st) = st).
Proof.
  intros Hn. destruct st as [subs act]. cbn in *.
  split; [now apply set_add_NoDup|].
  split; [now apply set_delete_NoDup|].
  split; [intros x; apply set_add_In|].
  split; [intros x; apply set_delete_In|].
  split.
  - unfold StreamService.activateConnector. cbn. f_equal.
    unfold StreamService.set_add at 1.
    replace (existsb (String.eqb c) (StreamService.set_add c act))
      with true; [reflexivity|].
    symmetry. apply existsb_exists. exists c.
    split; [apply set_add_In; now left | apply String.eqb_refl].
  - intros Hc. unfold StreamService.deactivateConnector,
      StreamService.activateConnector. cbn. f_equal.
    unfold StreamService.set_add.
    replace (existsb (String.eqb c) act) with false.
    + unfold StreamService.set_delete. rewrite filter_app. cbn.
      rewrite String.eqb_refl. cbn. rewrite app_nil_r.
      now apply set_delete_absent.
    + symmetry. apply not_true_is_false. intros E.
      apply existsb_exists in E. destruct E as [z [Hz E]].
      apply String.eqb_eq in E. now subst.
Qed.

Lemma active_connectors_are_a_set_witness :
  let st := StreamService.activateConnector "slack" StreamService.initial in
  NoDup (StreamService.activeConnectors st)
  /\ StreamService.activeConnectors
       (StreamService.activateConnector "slack" st) = ["slack"]
  /\ StreamService.deactivateConnector "gmail"
       (StreamService.activateConnector "gmail" st) = st.
Proof.
  cbv zeta.
  assert (Hn : NoDup (StreamService.activeConnectors
                        (StreamService.activateConnector "slack"
                           StreamService.initial))).
  { repeat constructor. simpl. tauto. }
  split; [exact Hn|]. split; [reflexivity|].
  refine (proj2 (proj2 (proj2 (proj2 (proj2
    (@active_connectors_are_a_set "gmail" _ Hn))))) _).
  simpl. intuition discriminate.
Defined.

Lemma show_connector_inj (a b : ConnectorId) :
  show_connector a = show_connector b -> a = b.
Proof. destruct a, b; simpl; intros H; congruence. Qed.

Lemma syncConnector_other (c : ConnectorId) (j : IntegrationConfig)
  (st : StreamService.State) :
  i_id j <> c ->
  In (show_connector c)
     (StreamService.activeConnectors (syncConnector j st))
  <-> In (show_connector c) (StreamService.activeConnectors st).
Proof.
  intros Hne. unfold syncConnector.
  assert (Hs : show_connector c <> show_connector (i_id j))
    by (intros E; apply show_connector_inj in E; congruence).
  destruct (isConnected j).
  - destruct (connector_eqb (i_id j) gmail && truthy_opt (accessToken j))
      eqn:E; cbn.
    + apply andb_true_iff in E. destruct E as [E _].
      apply connector_eqb_eq in E. rewrite E in Hs.
      rewrite set_delete_In. tauto.
    + rewrite set_add_In. tauto.
  - cbn. rewrite set_delete_In. tauto.
Qed.

Lemma syncConnector_self (j : IntegrationConfig)
  (st : StreamService.State) :
  In (show_connector (i_id j))
     (StreamService.activeConnectors (syncConnector j st))
  <-> simulated j = true.
Proof.
  unfold syncConnector, simulated.
  destruct (isConnected j); cbn [andb].
  - destruct (connector_eqb (i_id j) gmail && truthy_opt (accessToken j))
      eqn:E; cbn.
    + apply andb_true_iff in E. destruct E as [E _].
      apply connector_eqb_eq in E. rewrite E. cbn.
      rewrite set_delete_In. split; [tauto | discriminate].
    + rewrite set_add_In. split; auto.
  - cbn. rewrite set_delete_In. split; [tauto | discriminate].
Qed.

Lemma sync_other (c : ConnectorId) (ints : list IntegrationConfig) :
  forall st,
    ~ In c (map i_id ints) ->
    In (show_connector c)
       (StreamService.activeConnectors (syncStreamService ints st))
    <-> In (show_connector c) (StreamService.activeConnectors st).
Proof.
  unfold syncStreamService.
  induction ints as [|j rest IH]; intros st Hn; [reflexivity|].
  cbn [fold_left]. rewrite IH by (intros G; apply Hn; now right).
  apply syncConnector_other. intros E. apply Hn. now left.
Qed.

Lemma syncStreamService_spec
  (ints : list IntegrationConfig) (st : StreamService.State)
  (i : IntegrationConfig) :
  NoDup (map i_id ints) ->
  In i ints ->
  In (show_connector (i_id i))
     (StreamService.activeConnectors (syncStreamService ints st))
  <-> simulated i = true.
Proof.
  revert st. induction ints as [|j rest IH]; intros st Hn Hi;
    [contradiction|].
  inversion Hn as [|x xs Hx Hn']; subst.
  unfold syncStreamService. cbn [fold_left].
  fold (syncStreamService rest (syncConnector j st)).
  destruct Hi as [->|Hi].
  - rewrite sync_other by assumption. apply syncConnector_self.
  - now apply IH.
Qed.

(** X2.  After the effect that updates the stream service from a registry
    that names no connector twice, a connector of the registry is active
    in the service exactly when it is connected and is not a Gmail
    connector with a token, whatever the service held before. *)
Theorem sync_activates_simulated_connectors
  (ints : list IntegrationConfig) (st : StreamService.State)
  (i : IntegrationConfig) :
  NoDup (map i_id ints) ->
  In i ints ->
  In (show_connector (i_id i))
     (StreamService.activeConnectors (syncStreamService ints st))
  <-> simulated i = true.
Proof. exact (@syncStreamService_spec ints st i). Qed.

Lemma sync_activates_simulated_connectors_witness :
  let ints := integrations
                (handleGmailAuthSuccess "ya29.token" 2
                   (confirmConnection (Some slack) "ops@example.com" 1
                      (initial_App 0 "" ""))) in
  NoDup (map i_id ints)
  /\ StreamService.activeConnectors
       (syncStreamService ints
          (StreamService.activateConnector "gmail" StreamService.initial))
     = ["slack"]
  /\ forall i, In i ints ->
       i_id i = gmail ->
       ~ In "gmail"
           (StreamService.activeConnectors
              (syncStreamService ints
                 (StreamService.activateConnector "gmail"
                    StreamService.initial))).
Proof.
  cbv zeta.
  assert (Hn : NoDup (map i_id
                        (integrations
                           (handleGmailAuthSuccess "ya29.token" 2
                              (confirmConnection (Some slack)
                                 "ops@example.com" 1
                                 (initial_App 0 "" "")))))).
  { repeat constructor; simpl; intuition discriminate. }
  split; [exact Hn|]. split; [reflexivity|].
  intros i Hi Hg Hin.
  pose proof (proj1 (@sync_activates_simulated_connectors _
                       (StreamService.activateConnector "gmail"
                          StreamService.initial) i Hn Hi)) as H.
  rewrite Hg in H. specialize (H Hin).
  cbn in Hi. destruct Hi as [<-|[<-|[<-|[]]]]; discriminate.
Defined.

Lemma generateRandomTask_Some (d : StreamService.Draws) (now : Z)
  (st : StreamService.State) (t : Task) :
  StreamService.generateRandomTask d now st = Some t ->
  exists c template,
    In c (StreamService.activeConnectors st)
    /\ t = stream_task (if String.eqb c "slack" then SLACK else GMAIL)
             (StreamService.t_sender template)
             (StreamService.t_content template)
             (StreamService.high_priority d) now
    /\ ((c = "slack" /\ In template StreamService.SLACK_MESSAGES)
        \/ (c = "gmail" /\ In template StreamService.GMAIL_EMAILS)).
Proof.
  unfold StreamService.generateRandomTask.
  destruct (StreamService.activeConnectors st) as [|a l] eqn:Ha;
    [discriminate|].
  rewrite <- Ha.
  destruct (nth_error (filter StreamService.valid_connector
                         (StreamService.activeConnectors st))
                      (StreamService.connector_index d))
    as [c|] eqn:Hc; [|discriminate].
  apply nth_error_In in Hc. apply filter_In in Hc.
  destruct Hc as [Hin Hv].
  destruct (nth_error (if String.eqb c "slack"
                       then StreamService.SLACK_MESSAGES
                       else StreamService.GMAIL_EMAILS)
                      (StreamService.template_index d))
    as [template|] eqn:Ht; [|discriminate].
  intros H. injection H as <-. apply nth_error_In in Ht.
  exists c, template. split; [assumption|]. split; [reflexivity|].
  unfold StreamService.valid_connector in Hv.
  destruct (String.eqb_spec c "slack") as [E|E].
  - left. now split.
  - right. cbn in Hv. apply String.eqb_eq in Hv. now split.
Qed.

Lemma tick_spec
  (d : StreamService.Draws) (now : Z) (st : StreamService.State)
  (cb : nat) (t : Task) :
  In (cb, t) (StreamService.tick d now st) ->
  In cb (StreamService.subscribers st)
  /\ status t = PENDING
  /\ id t = "stream-" ++ show_Z now
  /\ timestamp t = now
  /\ (priority t = Some HIGH \/ priority t = Some MEDIUM)
  /\ type t = None /\ outputContent t = None
  /\ ((source t = SLACK
       /\ In "slack" (StreamService.activeConnectors st)
       /\ In (StreamService.mkTemplate (sender t) (rawContent t))
             StreamService.SLACK_MESSAGES)
      \/ (source t = GMAIL
          /\ In "gmail" (StreamService.activeConnectors st)
          /\ In (StreamService.mkTemplate (sender t) (rawContent t))
                StreamService.GMAIL_EMAILS))
  /\ (forall cb' t', In (cb', t') (StreamService.tick d now st) -> t' = t).
Proof.
  unfold StreamService.tick.
  destruct (Nat.eqb (List.length (StreamService.activeConnectors st)) 0);
    [contradiction|].
  destruct (StreamService.fires d); [|contradiction].
  destruct (StreamService.generateRandomTask d now st) as [task|] eqn:G;
    [|contradiction].
  unfold StreamService.notify. intros H.
  apply in_map_iff in H. destruct H as [cb0 [E Hcb]].
  injection E as -> ->.
  apply generateRandomTask_Some in G.
  destruct G as [c [[s0 c0] [Hin [-> Hpool]]]].
  split; [assumption|]. split; [reflexivity|]. split; [reflexivity|].
  split; [reflexivity|].
  split; [cbn; destruct (StreamService.high_priority d); auto|].
  split; [reflexivity|]. split; [reflexivity|]. split.
  - destruct Hpool as [[-> Hp]|[-> Hp]]; [left | right];
      cbn; repeat split; assumption.
  - intros cb' t' H'. apply in_map_iff in H'.
    destruct H' as [cb1 [E' _]]. now injection E' as _ <-.
Qed.

(** X3.  Whatever is drawn, a call that a tick of the stream service
    makes goes to a registered callback, and the task it carries is
    PENDING, is named stream-<now>, has priority HIGH or MEDIUM and no
    classification, comes from SLACK or GMAIL, from a connector that is
    active, with a sender and a content taken together from the pool of
    that source; all calls of one tick carry the same task. *)
Theorem tick_delivers_a_pool_message
  (d : StreamService.Draws) (now : Z) (st : StreamService.State)
  (cb : nat) (t : Task) :
  In (cb, t) (StreamService.tick d now st) ->
  In cb (StreamService.subscribers st)
  /\ status t = PENDING
  /\ id t = "stream-" ++ show_Z now
  /\ timestamp t = now
  /\ (priority t = Some HIGH \/ priority t = Some MEDIUM)
  /\ type t = None /\ outputContent t = None
  /\ ((source t = SLACK
       /\ In "slack" (StreamService.activeConnectors st)
       /\ In (StreamService.mkTemplate (sender t) (rawContent t))
             StreamService.SLACK_MESSAGES)
      \/ (source t = GMAIL
          /\ In "gmail" (StreamService.activeConnectors st)
          /\ In (StreamService.mkTemplate (sender t) (rawContent t))
                StreamService.GMAIL_EMAILS))
  /\ (forall cb' t', In (cb', t') (StreamService.tick d now st) -> t' = t).
Proof. exact (@tick_spec d now st cb t). Qed.

Lemma tick_delivers_a_pool_message_witness :
  let st := StreamService.subscribe app_callback
              (StreamService.activateConnector "gmail"
                 (StreamService.activateConnector "notion"
                    StreamService.initial)) in
  let d := StreamService.mkDraws true 0 3 false in
  let t := stream_task GMAIL "legal@partner.com"
             "Subject: Terms of Service Update - Action Required." false 9 in
  StreamService.tick d 9 st = [(app_callback, t)]
  /\ status t = PENDING
  /\ In "gmail" (StreamService.activeConnectors st).
Proof.
  cbv zeta. split; [reflexivity|].
  pose proof (@tick_delivers_a_pool_message
                (StreamService.mkDraws true 0 3 false) 9%Z
                (StreamService.subscribe app_callback
                   (StreamService.activateConnector "gmail"
                      (StreamService.activateConnector "notion"
                         StreamService.initial)))
                app_callback
                (stream_task GMAIL "legal@partner.com"
                   "Subject: Terms of Service Update - Action Required."
                   false 9)
                (or_introl eq_refl)) as [_ [H1 [_ [_ [_ [_ [_ [H2 _]]]]]]]].
  split; [exact H1|].
  destruct H2 as [[E _]|[_ [H2 _]]]; [discriminate E | exact H2].
Defined.

(** X4.  After the effect has updated the stream service from a registry
    that names no connector twice and has a Slack and a Gmail connector,
    every task a tick delivers comes from a connector of the registry
    that is connected and, for Gmail, holds no token.  So nothing is
    delivered while no connector is connected, a Gmail connected with a
    token is never simulated, and no task comes from Notion. *)
Theorem simulated_traffic_follows_registry
  (ints : list IntegrationConfig) (st : StreamService.State)
  (d : StreamService.Draws) (now : Z) (cb : nat) (t : Task) :
  NoDup (map i_id ints) ->
  In slack (map i_id ints) ->
  In gmail (map i_id ints) ->
  In (cb, t) (StreamService.tick d now (syncStreamService ints st)) ->
  source t <> NOTION
  /\ exists i, In i ints
               /\ i_id i = toLowerCase (source t)
               /\ isConnected i = true
               /\ (source t = GMAIL -> truthy_opt (accessToken i) = false).
Proof.
  intros Hn Hs Hg Hin.
  apply tick_spec in Hin.
  destruct Hin as [_ [_ [_ [_ [_ [_ [_ [Hsrc _]]]]]]]].
  assert (Hreg : forall c, In c (map i_id ints) ->
            In (show_connector c)
               (StreamService.activeConnectors (syncStreamService ints st)) ->
            exists i, In i ints /\ i_id i = c /\ simulated i = true).
  { intros c Hc Hact. apply in_map_iff in Hc. destruct Hc as [i [Hid Hi]].
    exists i. split; [assumption|]. split; [assumption|].
    apply (@syncStreamService_spec ints st i Hn Hi).
    now rewrite Hid. }
  destruct Hsrc as [[E [Hact _]]|[E [Hact _]]]; rewrite E.
  - split; [discriminate|].
    destruct (Hreg slack Hs Hact) as [i [Hi [Hid Hsim]]].
    exists i. unfold simulated in Hsim. apply andb_true_iff in Hsim.
    destruct Hsim as [Hc _]. repeat split; try assumption. discriminate.
  - split; [discriminate|].
    destruct (Hreg gmail Hg Hact) as [i [Hi [Hid Hsim]]].
    exists i. unfold simulated in Hsim. apply andb_true_iff in Hsim.
    destruct Hsim as [Hc Ht]. rewrite Hid in Ht. cbn in Ht.
    apply negb_true_iff in Ht. repeat split; try assumption.
    intros _. exact Ht.
Qed.

Lemma simulated_traffic_follows_registry_witness :
  let ints := integrations
                (confirmConnection (Some slack) "ops@example.com" 1
                   (initial_App 0 "" "")) in
  let st := syncStreamService ints
              (StreamService.subscribe app_callback StreamService.initial) in
  let d := StreamService.mkDraws true 0 1 true in
  NoDup (map i_id ints)
  /\ option_map (fun c => source (snd c))
       (hd_error (StreamService.tick d 9 st)) = Some SLACK
  /\ option_map isConnected (find_integration slack ints) = Some true
  /\ StreamService.tick d 9
       (syncStreamService (integrations (initial_App 0 "" ""))
          (StreamService.subscribe app_callback
             (StreamService.activateConnector "slack"
                StreamService.initial))) = [].
Proof.
  cbv zeta.
  assert (Hn : NoDup (map i_id
                        (integrations
                           (confirmConnection (Some slack)
                              "ops@example.com" 1 (initial_App 0 "" ""))))).
  { repeat constructor; simpl; intuition discriminate. }
  split; [exact Hn|]. split; [reflexivity|]. split; [|reflexivity].
  destruct (@simulated_traffic_follows_registry _
              (StreamService.subscribe app_callback StreamService.initial)
              (StreamService.mkDraws true 0 1 true) 9%Z app_callback
              (stream_task SLACK "Sarah (Product)"
                 "We need a one-pager for the Q3 roadmap feature set. Priority is high."
                 true 9)
              Hn (or_introl eq_refl) (or_intror (or_introl eq_refl))
              (or_introl eq_refl))
    as [_ [i [Hi [Hid [Hc _]]]]].
  cbn in Hi. destruct Hi as [<-|[<-|[<-|[]]]];
    try discriminate Hid; reflexivity.
Defined.

(** ** The stream subscription *)

Lemma registrations_subscribe (cb c : nat) (st : StreamService.State) :
  registrations c (StreamService.subscribe cb st)
  = registrations c st + (if Nat.eq_dec cb c then 1 else 0).
Proof.
  unfold registrations, StreamService.subscribe. cbn.
  rewrite count_occ_app. cbn. now destruct (Nat.eq_dec cb c).
Qed.

Lemma registrations_unsubscribe (cb c : nat) (st : StreamService.State) :
  registrations c (StreamService.unsubscribe cb st)
  = if Nat.eq_dec cb c then 0 else registrations c st.
Proof.
  unfold registrations, StreamService.unsubscribe. cbn.
  induction (StreamService.subscribers st) as [|a l IH]; cbn.
  - now destruct (Nat.eq_dec cb c).
  - destruct (Nat.eqb_spec a cb) as [E|E]; cbn.
    + rewrite IH. subst a.
      destruct (Nat.eq_dec cb c); reflexivity.
    + rewrite IH.
      destruct (Nat.eq_dec a c) as [E1|E1], (Nat.eq_dec cb c) as [E2|E2];
        try reflexivity; congruence.
Qed.

Lemma registrations_rerun (before after : bool)
  (st : StreamService.State) :
  registrations app_callback st = (if before then 1 else 0) ->
  registrations app_callback (rerunSubscription before after st)
  = (if after then 1 else 0)
  /\ (forall c, c <> app_callback ->
        registrations c (rerunSubscription before after st)
        = registrations c st)
  /\ StreamService.activeConnectors (rerunSubscription before after st)
     = StreamService.activeConnectors st.
Proof.
  intros H. unfold rerunSubscription, subscriptionEffect,
    subscriptionCleanup.
  destruct before, after; cbv iota in H |- *;
    rewrite ?registrations_subscribe, ?registrations_unsubscribe;
    (split;
     [destruct (Nat.eq_dec app_callback app_callback);
      [lia | contradiction]|]);
    (split; [|reflexivity]); intros c Hc;
    rewrite ?registrations_subscribe, ?registrations_unsubscribe;
    destruct (Nat.eq_dec app_callback c); try congruence; lia.
Qed.

Lemma last_cons_default (b d : bool) (l : list bool) :
  last (b :: l) d = last l b.
Proof.
  revert b d. induction l as [|a l IH]; intros b d; [reflexivity|].
  change (last (b :: a :: l) d) with (last (a :: l) d).
  now rewrite (IH a d), (IH a b).
Qed.

Lemma resubscribed_registrations (bs : list bool) :
  forall (st : StreamService.State) (before : bool),
    registrations app_callback st = (if before then 1 else 0) ->
    registrations app_callback (resubscribed before bs st)
    = (if last bs before then 1 else 0)
    /\ (forall c, c <> app_callback ->
          registrations c (resubscribed before bs st) = registrations c st)
    /\ StreamService.activeConnectors (resubscribed before bs st)
       = StreamService.activeConnectors st.
Proof.
  induction bs as [|b rest IH]; intros st before H.
  - cbn [resubscribed last]. auto.
  - cbn [resubscribed]. rewrite last_cons_default.
    destruct (registrations_rerun before b st H) as [H1 [H2 H3]].
    destruct (IH _ _ H1) as [G1 [G2 G3]].
    split; [assumption|]. split.
    + intros c Hc. rewrite G2, H2; auto.
    + now rewrite G3.
Qed.

(** X5.  The component is registered with the stream service once while
    [simulationEnabled] is true and not at all while it is false, however
    often the value has changed since mount; the other callbacks and the
    active connectors are left alone. *)
Theorem subscription_follows_simulation
  (bs : list bool) (st : StreamService.State) :
  registrations app_callback st = 0 ->
  registrations app_callback (resubscribed false bs st)
  = (if last bs false then 1 else 0)
  /\ (forall c, c <> app_callback ->
        registrations c (resubscribed false bs st) = registrations c st)
  /\ StreamService.activeConnectors (resubscribed false bs st)
     = StreamService.activeConnectors st.
Proof.
  intros H. now apply resubscribed_registrations.
Qed.

Lemma subscription_follows_simulation_witness :
  let st := StreamService.subscribe 7
              (StreamService.activateConnector "slack"
                 StreamService.initial) in
  registrations app_callback st = 0
  /\ StreamService.subscribers
       (resubscribed false [true; false; true] st) = [7; app_callback]
  /\ registrations app_callback
       (resubscribed false [true; true; false] st) = 0.
Proof.
  cbv zeta. split; [reflexivity|]. split; [reflexivity|].
  exact (proj1 (@subscription_follows_simulation [true; true; false]
                  (StreamService.subscribe 7
                     (StreamService.activateConnector "slack"
                        StreamService.initial))
                  eq_refl)).
Defined.





(** ** The agents of geminiService.ts *)

(** X7.  [classifyTaskWithGemini] and [makeDecisionWithGemini] never
    throw.  Each returns what the reply parses to when the key is
    present, the response has a text and the text parses, and its
    fallback in every other case: a missing key, a call that throws, a
    response without text, a text that is not JSON.  Each sends one
    request when the key is present and none when it is missing. *)
Theorem structured_agents_never_throw
  (key raw from_ : string) (task : Task)
  (rc : Reply Classification) (rd : Reply Decision) :
  outcome (classifyTaskWithGemini key raw from_ rc)
  = inr (agent_result key classifier_fallback rc)
  /\ outcome (makeDecisionWithGemini key task rd)
     = inr (agent_result key decision_fallback rd)
  /\ calls (classifyTaskWithGemini key raw from_ rc)
     = (if truthy key then [ClassifierCall] else [])
  /\ calls (makeDecisionWithGemini key task rd)
     = (if truthy key then [DecisionCall] else [])
  /\ emitted (classifyTaskWithGemini key raw from_ rc) = []
  /\ emitted (makeDecisionWithGemini key task rd) = [].
Proof.
  unfold classifyTaskWithGemini, makeDecisionWithGemini, getAI,
    agent_result.
  destruct (truthy key);
    destruct rc as [e|[[|a s]|] [e| |c]];
    destruct rd as [e'|[[|a' s']|] [e'| |d]];
    cbn; repeat split; reflexivity.
Qed.

(** X8.  [executeTaskWithGemini] never throws and never returns the empty
    string: it returns the text of the response when there is one,
    "No content generated." when the response has no text, and
    "Error generating content." when the key is missing or the call
    throws.  With a key it sends one request, whose prompt is chosen by
    the task's output kind; without one it sends none. *)
Theorem execution_agent_never_throws
  (key : string) (task : Task) (re : TextReply) :
  outcome (executeTaskWithGemini key task re)
  = inr (if truthy key then
           match re with
           | TextResponded (Some t) =>
               if truthy t then t else "No content generated."
           | TextResponded None => "No content generated."
           | TextThrows _ => "Error generating content."
           end
         else "Error generating content.")
  /\ (forall o, outcome (executeTaskWithGemini key task re) = inr o ->
                truthy o = true)
  /\ calls (executeTaskWithGemini key task re)
     = (if truthy key then [ExecutionCall (execution_prompt task)] else [])
  /\ emitted (executeTaskWithGemini key task re) = [].
Proof.
  unfold executeTaskWithGemini, getAI, or_else.
  destruct (truthy key); destruct re as [e|[t|]];
    try destruct (truthy t) eqn:Et; cbn; repeat split;
    intros o Ho; injection Ho as <-; try reflexivity; assumption.
Qed.


Lemma calls_bind {A B} (m : Run A) (k : A -> Run B) :
  calls (bind m k)
  = (calls m
     ++ match outcome m with
        | inr a => calls (k a)
        | inl _ => []
        end)%list.
Proof.
  destruct m as [[l c] [e|a]]; cbn; [now rewrite app_nil_r|].
  now destruct (k a) as [[l2 c2] r].
Qed.

Lemma outcome_bind {A B} (m : Run A) (k : A -> Run B) :
  outcome (bind m k)
  = match outcome m with
    | inr a => outcome (k a)
    | inl e => inl e
    end.
Proof.
  destruct m as [[l c] [e|a]]; cbn; [reflexivity|].
  now destruct (k a) as [[l2 c2] r].
Qed.

(** ** Runs of the pipeline *)

(** X9.  A run sends its requests in stage order and never more than
    three: none when no key is configured, otherwise one to the
    classifier, then one to the decision agent, then at most one to the
    execution agent. *)
Theorem live_calls_in_stage_order
  (key : string) (task : Task) (b : Backend) :
  (truthy key = false /\ calls (run_stages key task b) = [])
  \/ (truthy key = true
      /\ (calls (run_stages key task b) = [ClassifierCall; DecisionCall]
          \/ exists p, calls (run_stages key task b)
                       = [ClassifierCall; DecisionCall; ExecutionCall p])).
Proof.
  destruct (truthy key) eqn:Hk; [right | left]; split; try reflexivity.
  - unfold_stages. rewrite Hk.
    destruct (classifier_reply b) as [e|[[|a s]|] [e| |c]];
      destruct (decision_reply b) as [e'|[[|a' s']|] [e'| |d]];
      destruct (execution_reply b) as [e2|[t2|]];
      eval_stages; auto;
      destruct (d_outputType d); eval_stages; eauto.
  - unfold_stages. now rewrite Hk.
Qed.

(** X10.  In a live run whose decision has output kind NONE (the decision
    agent's fallback included), no request is sent to the execution
    agent; the task is finalized with status COMPLETED and no output
    content, the Execution stage leaves exactly one entry in the trace,
    the ACTION entry saying that nothing was generated, and the task is
    not among the documents of the Knowledge Base. *)
Theorem none_decision_generates_nothing
  (w : App) (taskId : string) (task : Task) (b : Backend) (d : Decision) :
  find_task taskId (tasks w) = Some task ->
  runnable task = true ->
  truthy (effectiveKey w) = true ->
  outcome (makeDecisionWithGemini (effectiveKey w) task (decision_reply b))
  = inr (Some d) ->
  d_outputType d = NONE ->
  let w' := processTask taskId b w in
  calls (run_stages (effectiveKey w) task b) = [ClassifierCall; DecisionCall]
  /\ execution_entries (logs w')
     = [mkLog EXECUTION "No content generation required. Updating records."
          ACTION None]
  /\ (forall t, In t (documents w') -> id t <> taskId)
  /\ exists t',
       find_task taskId (tasks w') = Some t'
       /\ status t' = COMPLETED
       /\ outputContent t' = None
       /\ outputType t' = Some NONE
       /\ action t' = Some (d_action d).
Proof.
  intros Hf Hr Hk Hd Hn w'.
  assert (Hrun : (exists c, outcome (run_stages (effectiveKey w) task b)
                            = inr (finalTask task c d None))
                 /\ calls (run_stages (effectiveKey w) task b)
                    = [ClassifierCall; DecisionCall]
                 /\ execution_entries
                      (emitted (run_stages (effectiveKey w) task b))
                    = [mkLog EXECUTION
                         "No content generation required. Updating records."
                         ACTION None]).
  { unfold makeDecisionWithGemini, getAI in Hd. rewrite Hk in Hd.
    unfold_stages. rewrite Hk.
    destruct (decision_reply b) as [e'|[[|a' s']|] [e'| |d']];
      cbn in Hd; try discriminate Hd; injection Hd as Hd; subst;
      destruct (classifier_reply b) as [e0|[[|a s]|] [e0| |c]];
      eval_stages; rewrite ?Hn; eval_stages;
      (split; [eexists; reflexivity | split; reflexivity]). }
  destruct Hrun as [[c Hout] [Hcalls Hlog]].
  pose proof (processTask_stored taskId w b Hf Hr) as Hst.
  rewrite Hout in Hst.
  split; [exact Hcalls|]. split; [|split].
  - subst w'. rewrite (processTask_logs _ _ _ Hf Hr), Hout.
    unfold execution_entries in *. rewrite filter_app, Hlog. reflexivity.
  - intros t Ht E. unfold documents in Ht. apply filter_In in Ht.
    destruct Ht as [Hin Hp].
    assert (Ht : find_task taskId [t] = Some t)
      by (unfold find_task; cbn; now rewrite E, String.eqb_refl).
    subst w'. unfold processTask in Hin.
    rewrite (processTask_enter_accepted _ _ Hf Hr) in Hin.
    rewrite tasks_settle in Hin. unfold update_task in Hin.
    apply in_map_iff in Hin. destruct Hin as [t0 [Ht0 _]].
    cbn [s_taskId] in Ht0.
    destruct (String.eqb_spec (id t0) taskId) as [E0|E0].
    + unfold settled in Ht0. cbn [s_key s_task] in Ht0.
      rewrite Hout in Ht0. subst t.
      apply andb_true_iff in Hp. destruct Hp as [_ Hp].
      destruct c; discriminate Hp.
    + subst t0. contradiction.
  - eexists. split; [exact Hst|].
    destruct c; cbn; rewrite Hn; repeat split.
Qed.

Lemma none_decision_generates_nothing_witness :
  let b := mkBackend
             (Responded (Some "{...}")
                (Object (mkClassification INFORMATIONAL LOW "FYI" [])))
             (Responded (Some "{...}")
                (Object (mkDecision "Update Knowledge Base" "informational"
                           NONE)))
             (TextResponded (Some "unused")) in
  let w' := processTask "task-1" b (initial_App 0 "key" "") in
  option_map outputContent (find_task "task-1" (tasks w')) = Some None
  /\ documents w' = []
  /\ calls (run_stages "key" (INITIAL_TASK 0) b)
     = [ClassifierCall; DecisionCall].
Proof.
  cbv zeta. split; [reflexivity|]. split; [reflexivity|].
  exact (proj1 (@none_decision_generates_nothing
                  (initial_App 0 "key" "") "task-1" (INITIAL_TASK 0)
                  (mkBackend
                     (Responded (Some "{...}")
                        (Object (mkClassification INFORMATIONAL LOW "FYI"
                                   [])))
                     (Responded (Some "{...}")
                        (Object (mkDecision "Update Knowledge Base"
                                   "informational" NONE)))
                     (TextResponded (Some "unused")))
                  _ eq_refl eq_refl eq_refl eq_refl eq_refl)).
Defined.




Lemma processTask_frame
  (taskId k : string) (b : Backend) (w : App) :
  k <> taskId ->
  let w' := processTask taskId b w in
  find_task k (tasks w') = find_task k (tasks w)
  /\ map id (tasks w') = map id (tasks w)
  /\ integrations w' = integrations w
  /\ userApiKey w' = userApiKey w
  /\ env_API_KEY w' = env_API_KEY w
  /\ selectedTaskId w' = selectedTaskId w.
Proof.
  intros Hk w'. subst w'. unfold processTask.
  destruct (processTask_enter taskId w) as [[r w1]|] eqn:E;
    [|now repeat split].
  apply processTask_enter_Some in E.
  destruct E as [task [Hf [Hr [-> ->]]]].
  pose proof (find_task_id _ _ Hf) as Hid.
  assert (Hs : forall t, id t = taskId ->
                 id (settled (mkSuspended taskId task (effectiveKey w)) b t)
                 = taskId).
  { intros t Ht.
    exact (proj1 (@settled_spec (mkSuspended taskId task (effectiveKey w))
                    b t Hid Ht)). }
  rewrite tasks_settle. cbn [s_taskId].
  split; [|split].
  - rewrite find_task_update by exact Hs.
    cbn [tasks entered setTasks setLogs setIsProcessing].
    rewrite find_task_update by (intros; assumption).
    destruct (find_task k (tasks w)) as [t|] eqn:Hfk; [|reflexivity].
    cbn [option_map]. apply find_task_id in Hfk.
    destruct (String.eqb_spec (id t) taskId) as [E|E]; [congruence|].
    cbn [id]. destruct (String.eqb_spec (id t) taskId); [congruence|].
    reflexivity.
  - rewrite map_id_update by exact Hs.
    cbn [tasks entered setTasks setLogs setIsProcessing].
    now rewrite map_id_update by (intros; assumption).
  - unfold processTask_settle. cbn [s_key s_task s_taskId].
    destruct (outcome (run_stages (effectiveKey w) task b));
      now repeat split.
Qed.

(** X12.  [processTask] touches the submitted task only: every task under
    another identifier is found as before, the identifiers of the store
    and their order are unchanged, and so are the connector registry, the
    key and the selection. *)
Theorem processTask_touches_one_task
  (taskId k : string) (b : Backend) (w : App) :
  k <> taskId ->
  let w' := processTask taskId b w in
  find_task k (tasks w') = find_task k (tasks w)
  /\ map id (tasks w') = map id (tasks w)
  /\ integrations w' = integrations w
  /\ userApiKey w' = userApiKey w
  /\ env_API_KEY w' = env_API_KEY w
  /\ selectedTaskId w' = selectedTaskId w.
Proof. exact (@processTask_frame taskId k b w). Qed.

Lemma processTask_touches_one_task_witness :
  let w := handleManualDispatch "Second signal" SLACK 5
             (initial_App 0 "" "") in
  let b := mkBackend (CallThrows (Error "x")) (CallThrows (Error "x"))
                     (TextThrows (Error "x")) in
  "manual-5" <> "task-1"
  /\ find_task "manual-5" (tasks (processTask "task-1" b w))
     = Some (manual_task SLACK "Second signal" 5)
  /\ map id (tasks (processTask "task-1" b w)) = ["manual-5"; "task-1"].
Proof.
  cbv zeta.
  assert (Hne : "manual-5" <> "task-1") by discriminate.
  split; [exact Hne|]. split; [|reflexivity].
  exact (proj1 (@processTask_touches_one_task "task-1" "manual-5"
                  (mkBackend (CallThrows (Error "x"))
                     (CallThrows (Error "x")) (TextThrows (Error "x")))
                  (handleManualDispatch "Second signal" SLACK 5
                     (initial_App 0 "" ""))
                  Hne)).
Defined.

Lemma tasks_handleSaveEdit (edited sel : string) (w : App) :
  selectedTaskId w = Some sel ->
  truthy sel = true ->
  tasks (handleSaveEdit edited w)
  = update_task sel (with_outputContent (Some edited)) (tasks w).
Proof.
  intros Hs Ht. unfold handleSaveEdit. now rewrite Hs, Ht.
Qed.

(** X13.  A run works on the task object it found on entry.  An edit of
    the output saved while the run is suspended is lost when the run
    succeeds, the stored task being replaced by the final task built from
    that object; it is kept when the run fails, which only sets the
    status. *)
Theorem edit_during_run_is_overwritten
  (w : App) (taskId : string) (task : Task) (b : Backend)
  (edited : string) :
  find_task taskId (tasks w) = Some task ->
  runnable task = true ->
  selectedTaskId w = Some taskId ->
  truthy taskId = true ->
  let r := mkSuspended taskId task (effectiveKey w) in
  let w1 := handleSaveEdit edited (entered taskId w) in
  find_task taskId (tasks w1)
  = Some (with_outputContent (Some edited) (with_status PROCESSING task))
  /\ find_task taskId (tasks (processTask_settle r b w1))
     = Some match outcome (run_stages (effectiveKey w) task b) with
            | inr ft => ft
            | inl _ =>
                with_status FAILED (with_outputContent (Some edited) task)
            end
  /\ (forall ft, outcome (run_stages (effectiveKey w) task b) = inr ft ->
                 find_task taskId (tasks (processTask_settle r b w1))
                 = find_task taskId (tasks (processTask taskId b w))).
Proof.
  intros Hf Hr Hsel Ht r w1.
  pose proof (find_task_id _ _ Hf) as Hid.
  assert (H1 : find_task taskId (tasks w1)
               = Some (with_outputContent (Some edited)
                         (with_status PROCESSING task))).
  { subst w1.
    rewrite (@tasks_handleSaveEdit edited taskId (entered taskId w) Hsel Ht).
    change (tasks (entered taskId w))
      with (update_task taskId (with_status PROCESSING) (tasks w)).
    rewrite find_task_update by (intros; assumption).
    rewrite find_task_update by (intros; assumption).
    rewrite Hf. cbn [option_map]. rewrite Hid, String.eqb_refl.
    cbn [id with_status]. now rewrite Hid, String.eqb_refl. }
  split; [exact H1|].
  assert (H2 : find_task taskId (tasks (processTask_settle r b w1))
               = Some (settled r b
                         (with_outputContent (Some edited)
                            (with_status PROCESSING task)))).
  { apply (@settle_stored r b w1 _ Hid H1). }
  split.
  - rewrite H2. unfold settled. subst r. cbn [s_key s_task].
    now destruct (outcome (run_stages (effectiveKey w) task b)).
  - intros ft Ho. rewrite H2, (processTask_stored _ _ _ Hf Hr).
    unfold settled. subst r. cbn [s_key s_task]. now rewrite Ho.
Qed.

Lemma edit_during_run_is_overwritten_witness :
  let w := setSelectedTaskId (Some "task-1") (initial_App 0 "" "") in
  let b := mkBackend (CallThrows (Error "x")) (CallThrows (Error "x"))
                     (TextThrows (Error "x")) in
  let r := mkSuspended "task-1" (INITIAL_TASK 0) EmptyString in
  let w1 := handleSaveEdit "my own text" (entered "task-1" w) in
  option_map outputContent (find_task "task-1" (tasks w1))
  = Some (Some "my own text")
  /\ find_task "task-1" (tasks (processTask_settle r b w1))
     = find_task "task-1" (tasks (processTask "task-1" b w)).
Proof.
  cbv zeta. split; [reflexivity|].
  refine (proj2 (proj2 (@edit_during_run_is_overwritten
                          (setSelectedTaskId (Some "task-1")
                             (initial_App 0 "" ""))
                          "task-1" (INITIAL_TASK 0)
                          (mkBackend (CallThrows (Error "x"))
                             (CallThrows (Error "x"))
                             (TextThrows (Error "x")))
                          "my own text" eq_refl eq_refl eq_refl eq_refl))
                _ _).
  reflexivity.
Defined.

Lemma update_task_absent (k : string) (f : Task -> Task) (l : list Task) :
  ~ In k (map id l) -> update_task k f l = l.
Proof.
  unfold update_task. induction l as [|a l IH]; simpl; intros H;
    [reflexivity|].
  destruct (String.eqb_spec (id a) k) as [E|E]; [exfalso; auto|].
  f_equal. apply IH. auto.
Qed.

Lemma update_task_twice (k : string) (f g : Task -> Task) (l : list Task) :
  (forall t, id t = k -> id (g t) = k) ->
  update_task k f (update_task k g l)
  = update_task k (fun t => f (g t)) l.
Proof.
  intros Hg. unfold update_task. rewrite map_map. apply map_ext.
  intros a. destruct (String.eqb_spec (id a) k) as [E|E].
  - rewrite (Hg a E). now rewrite String.eqb_refl.
  - destruct (String.eqb_spec (id a) k); [contradiction|reflexivity].
Qed.

Lemma filter_update_length (p : Task -> bool) (f : Task -> Task)
  (t : Task) (l : list Task) :
  NoDup (map id l) ->
  In t l ->
  p t = true ->
  p (f t) = false ->
  S (List.length (filter p (update_task (id t) f l)))
  = List.length (filter p l).
Proof.
  induction l as [|a l IH]; simpl; intros Hn Hi Hp Hf; [contradiction|].
  inversion Hn as [|x xs Hx Hn']; subst.
  destruct (String.eqb_spec (id a) (id t)) as [E|E].
  - assert (Hat : a = t).
    { destruct Hi as [Hi|Hi]; [assumption|].
      exfalso. apply Hx. rewrite E. now apply in_map. }
    subst a. fold (update_task (id t) f l).
    rewrite (@update_task_absent (id t) f l Hx), Hp, Hf. reflexivity.
  - destruct Hi as [Hi|Hi]; [congruence|].
    fold (update_task (id t) f l).
    destruct (p a); simpl; rewrite <- (IH Hn' Hi Hp Hf); reflexivity.
Qed.

Lemma find_filter_nil {A} (p : A -> bool) (l : list A) :
  filter p l = [] -> find p l = None.
Proof.
  induction l as [|a l IH]; simpl; [reflexivity|].
  destruct (p a); [discriminate | exact IH].
Qed.

Lemma find_filter_cons {A} (p : A -> bool) (l : list A) :
  filter p l <> [] -> exists a, find p l = Some a.
Proof.
  induction l as [|a l IH]; simpl; [congruence|].
  destruct (p a); [eauto | exact IH].
Qed.

Lemma auto_eligible_pending (ints : list IntegrationConfig) (t : Task) :
  auto_eligible ints t = true -> status t = PENDING.
Proof.
  unfold auto_eligible. intros H. apply andb_true_iff in H.
  destruct H as [H _]. now destruct (status t).
Qed.

Lemma finished_not_eligible (ints : list IntegrationConfig) (t : Task) :
  finished t -> auto_eligible ints t = false.
Proof.
  unfold auto_eligible. now intros [-> | ->].
Qed.

(** One round of the effect on an idle component with work to do. *)
Lemma drain_round (w : App) (b : Backend) (n : nat) :
  NoDup (map id (tasks w)) ->
  isProcessing w = false ->
  List.length (auto_pending w) = S n ->
  exists t0 t1,
    autoProcess w = Some (id t0)
    /\ find_task (id t0) (tasks w) = Some t0
    /\ auto_eligible (integrations w) t0 = true
    /\ find_task (id t0) (tasks (processTask (id t0) b w)) = Some t1
    /\ finished t1
    /\ isProcessing (processTask (id t0) b w) = false
    /\ List.length (auto_pending (processTask (id t0) b w)) = n.
Proof.
  intros Hn Hidle Hlen.
  destruct (@find_filter_cons _ (auto_eligible (integrations w)) (tasks w))
    as [t0 Hfind].
  { unfold auto_pending in Hlen. intros E. now rewrite E in Hlen. }
  pose proof Hfind as Hsome. apply find_some in Hsome.
  destruct Hsome as [Hin He].
  pose proof (@find_task_NoDup (tasks w) t0 Hn Hin) as Hf.
  assert (Hr : runnable t0 = true).
  { unfold runnable.
    now rewrite (@auto_eligible_pending (integrations w) t0 He). }
  pose proof (@processTask_stored (id t0) w t0 b Hf Hr) as Hst.
  assert (Hfin : forall t, finished
            (settled (mkSuspended (id t0) t0 (effectiveKey w)) b t)).
  { intros t. unfold settled, finished. cbn [s_key s_task].
    destruct (outcome (run_stages (effectiveKey w) t0 b)) as [e|ft] eqn:Ho.
    - now right.
    - left. now apply run_stages_inr in Ho. }
  eexists t0, _. split; [|split; [exact Hf|split; [exact He|split;
    [exact Hst|split; [|split]]]]].
  - unfold autoProcess, pendingAutoTask.
    fold (auto_eligible (integrations w)).
    change (find (fun t => auto_eligible (integrations w) t) (tasks w))
      with (find (auto_eligible (integrations w)) (tasks w)).
    now rewrite Hfind, Hidle.
  - generalize (Hfin (with_status PROCESSING t0)).
    unfold settled, finished. cbn [s_key s_task].
    now destruct (outcome (run_stages (effectiveKey w) t0 b)).
  - unfold processTask.
    now rewrite (@processTask_enter_accepted (id t0) w t0 Hf Hr).
  - unfold auto_pending, processTask.
    rewrite (@processTask_enter_accepted (id t0) w t0 Hf Hr), tasks_settle.
    cbn [s_taskId].
    assert (Hi : integrations
                   (processTask_settle
                      (mkSuspended (id t0) t0 (effectiveKey w)) b
                      (entered (id t0) w))
                 = integrations w).
    { unfold processTask_settle. cbn [s_key s_task s_taskId].
      now destruct (outcome (run_stages (effectiveKey w) t0 b)). }
    rewrite Hi.
    change (tasks (entered (id t0) w))
      with (update_task (id t0) (with_status PROCESSING) (tasks w)).
    rewrite update_task_twice by (intros; assumption).
    apply eq_add_S. rewrite <- Hlen. unfold auto_pending.
    apply filter_update_length; try assumption.
    apply finished_not_eligible, Hfin.
Qed.

Lemma drain_spec (bs : nat -> Backend) (n : nat) :
  forall w,
    NoDup (map id (tasks w)) ->
    isProcessing w = false ->
    List.length (auto_pending w) = n ->
    let w' := drain bs n w in
    autoProcess w' = None
    /\ auto_pending w' = []
    /\ isProcessing w' = false
    /\ integrations w' = integrations w
    /\ forall k t,
         find_task k (tasks w) = Some t ->
         if auto_eligible (integrations w) t
         then exists t', find_task k (tasks w') = Some t' /\ finished t'
         else find_task k (tasks w') = Some t.
Proof.
  induction n as [|n IH]; intros w Hn Hidle Hlen; cbn [drain].
  - apply length_zero_iff_nil in Hlen.
    assert (Hp : pendingAutoTask w = None)
      by (apply (@find_filter_nil _ _ (tasks w) Hlen)).
    split; [unfold autoProcess; now rewrite Hp|].
    split; [assumption|]. split; [assumption|]. split; [reflexivity|].
    intros k t Hf.
    destruct (auto_eligible (integrations w) t) eqn:E; [|assumption].
    exfalso. apply find_task_In in Hf.
    assert (Hin : In t (auto_pending w))
      by (apply filter_In; now split).
    now rewrite Hlen in Hin.
  - destruct (@drain_round w (bs n) n Hn Hidle Hlen)
      as [t0 [t1 [Ha [Hf0 [He0 [Hst [Hfin [Hidle' Hlen']]]]]]]].
    rewrite Ha.
    destruct (string_dec (id t0) (id t0)) as [_|]; [|contradiction].
    pose proof (fun k Hk =>
                  @processTask_frame (id t0) k (bs n) w Hk) as Hframe.
    cbv zeta in Hframe.
    assert (Hids : map id (tasks (processTask (id t0) (bs n) w))
                   = map id (tasks w)).
    { unfold processTask.
      destruct (processTask_enter (id t0) w) as [[r w1]|] eqn:E;
        [|reflexivity].
      apply processTask_enter_Some in E.
      destruct E as [task [Hf [Hr [-> ->]]]].
      rewrite tasks_settle. cbn [s_taskId].
      rewrite map_id_update.
      - change (tasks (entered (id t0) w))
          with (update_task (id t0) (with_status PROCESSING) (tasks w)).
        now rewrite map_id_update by (intros; assumption).
      - intros t Ht.
        exact (proj1 (@settled_spec
                        (mkSuspended (id t0) task (effectiveKey w))
                        (bs n) t (@find_task_id _ _ _ Hf) Ht)). }
    assert (Hints : integrations (processTask (id t0) (bs n) w)
                    = integrations w).
    { unfold processTask.
      destruct (processTask_enter (id t0) w) as [[r w1]|] eqn:E;
        [|reflexivity].
      apply processTask_enter_Some in E.
      destruct E as [task [Hf [Hr [-> ->]]]].
      unfold processTask_settle. cbn [s_key s_task s_taskId].
      now destruct (outcome (run_stages (effectiveKey w) task (bs n))). }
    assert (Hn' : NoDup (map id (tasks (processTask (id t0) (bs n) w))))
      by now rewrite Hids.
    destruct (IH _ Hn' Hidle' Hlen') as [H1 [H2 [H3 [H4 H5]]]].
    split; [exact H1|]. split; [exact H2|]. split; [exact H3|].
    split; [now rewrite H4|].
    intros k t Hf. rewrite Hints in H5.
    destruct (string_dec k (id t0)) as [->|Hk].
    + rewrite Hf0 in Hf. injection Hf as <-. rewrite He0.
      exists t1. split; [|exact Hfin].
      specialize (H5 _ _ Hst).
      now rewrite (@finished_not_eligible (integrations w) t1 Hfin) in H5.
    + apply H5. rewrite (proj1 (Hframe k Hk)). exact Hf.
Qed.

(** X14.  Left to itself on an idle component whose identifiers are
    unique, the auto-process effect works the queue off: after as many
    runs as there were PENDING tasks from sources with auto-trigger on,
    none is left and the effect has nothing to submit.  Each of those
    tasks has ended COMPLETED or FAILED, whatever the backend replied, and
    every other task is stored exactly as it was. *)
Theorem auto_process_drains_queue (bs : nat -> Backend) (w : App) :
  NoDup (map id (tasks w)) ->
  isProcessing w = false ->
  let w' := drain bs (List.length (auto_pending w)) w in
  autoProcess w' = None
  /\ auto_pending w' = []
  /\ isProcessing w' = false
  /\ forall k t,
       find_task k (tasks w) = Some t ->
       if auto_eligible (integrations w) t
       then exists t', find_task k (tasks w') = Some t' /\ finished t'
       else find_task k (tasks w') = Some t.
Proof.
  intros Hn Hidle.
  destruct (@drain_spec bs _ w Hn Hidle eq_refl) as [H1 [H2 [H3 [_ H5]]]].
  now repeat split.
Qed.

Lemma auto_process_drains_queue_witness :
  let w := handleManualDispatch "Second signal" SLACK 5
             (handleManualDispatch "A mail" GMAIL 3 slack_auto_App) in
  let w' := drain (fun _ => null_decision_backend) 2 w in
  map id (auto_pending w) = ["manual-5"; "task-1"]
  /\ map status (tasks w') = [COMPLETED; PENDING; COMPLETED]
  /\ autoProcess w' = None.
Proof.
  cbv zeta. split; [reflexivity|]. split; [reflexivity|].
  refine (proj1 (@auto_process_drains_queue
                   (fun _ => null_decision_backend)
                   (handleManualDispatch "Second signal" SLACK 5
                      (handleManualDispatch "A mail" GMAIL 3
                         slack_auto_App))
                   _ eq_refl)).
  apply nodupb_NoDup. reflexivity.
Defined.

(** X15.  A poll of the mailbox changes no stored task: whatever the
    mailbox answers, the store afterwards is the store before with new
    tasks in front of it.  Each new task is PENDING, from GMAIL, of type
    UNKNOWN and under an identifier that was not stored; when there are
    any, the trace grows by the one entry that gives their number.  The
    processing flag and the selection are not touched. *)
Theorem poll_only_prepends (parseInt : string -> option Z) (now : Z)
  (r : ListOutcome) (w : App) :
  let w' := pollTick parseInt now r w in
  isProcessing w' = isProcessing w
  /\ selectedTaskId w' = selectedTaskId w
  /\ exists nts,
       tasks w' = (nts ++ tasks w)%list
       /\ (forall t, In t nts ->
             status t = PENDING /\ source t = GMAIL
             /\ type t = Some UNKNOWN
             /\ find_task (id t) (tasks w) = None)
       /\ (nts <> [] ->
           logs w'
           = (logs w
              ++ [mkLog INPUT
                    ("Gmail API: Fetched " ++ show_nat (List.length nts)
                     ++ " new real emails")
                    ACTION None])%list).
Proof.
  assert (Hnone : forall w0 : App,
            isProcessing w0 = isProcessing w
            /\ selectedTaskId w0 = selectedTaskId w
            /\ tasks w0 = tasks w ->
            isProcessing w0 = isProcessing w
            /\ selectedTaskId w0 = selectedTaskId w
            /\ exists nts,
                 tasks w0 = (nts ++ tasks w)%list
                 /\ (forall t, In t nts ->
                       status t = PENDING /\ source t = GMAIL
                       /\ type t = Some UNKNOWN
                       /\ find_task (id t) (tasks w) = None)
                 /\ (nts <> [] ->
                     logs w0
                     = (logs w
                        ++ [mkLog INPUT
                              ("Gmail API: Fetched "
                               ++ show_nat (List.length nts)
                               ++ " new real emails")
                              ACTION None])%list)).
  { intros w0 [H1 [H2 H3]]. split; [exact H1|]. split; [exact H2|].
    exists []. split; [exact H3|]. split; [contradiction|congruence]. }
  cbv zeta. unfold pollTick.
  destruct (gmailIntegration w) as [i|]; [|now apply Hnone].
  destruct (accessToken i) as [token|]; [|now apply Hnone].
  unfold pollEmails.
  destruct (fetchRecentEmails token r) as [err|emails].
  - destruct (includes "401" (String_of_error err));
      now apply Hnone.
  - destruct (newTasks parseInt now emails (tasks w)) as [|t0 nts] eqn:E;
      [now apply Hnone|].
    split; [reflexivity|]. split; [reflexivity|].
    exists (t0 :: nts).
    split; [|split].
    + cbn [tasks appendLog setLogs setTasks]. unfold ingest.
      now rewrite E.
    + intros t Ht. rewrite <- E in Ht.
      apply newTasks_unseen in Ht. destruct Ht as [Hu [e [_ ->]]].
      now repeat split.
    + intros _. reflexivity.
Qed.

Lemma gmailIntegration_after_auth (token : string) (now : Z) (w : App)
  (i0 : IntegrationConfig) :
  find_integration gmail (integrations w) = Some i0 ->
  truthy token = true ->
  exists i,
    gmailIntegration (handleGmailAuthSuccess token now w) = Some i
    /\ isConnected i = true
    /\ accessToken i = Some token
    /\ find_integration gmail
         (integrations (handleGmailAuthSuccess token now w)) = Some i.
Proof.
  unfold gmailIntegration, handleGmailAuthSuccess, find_integration.
  cbn [integrations appendLog setLogs setIntegrations].
  intros Hf Ht. revert Hf. unfold update_integration.
  induction (integrations w) as [|a l IH]; simpl; [discriminate|].
  destruct (connector_eqb (i_id a) gmail) eqn:E.
  - intros _. cbn [i_id isConnected accessToken truthy_opt].
    rewrite E, Ht. cbn. eexists. repeat split.
  - rewrite E. cbn [andb]. exact IH.
Qed.

Lemma gmailIntegration_disconnected (w : App) :
  (forall i, In i (integrations w) -> i_id i = gmail ->
             isConnected i = false) ->
  gmailIntegration w = None.
Proof.
  intros H. unfold gmailIntegration.
  destruct (find _ (integrations w)) as [i|] eqn:E; [|reflexivity].
  apply find_some in E. destruct E as [Hin Hp].
  apply andb_true_iff in Hp. destruct Hp as [Hp _].
  apply andb_true_iff in Hp. destruct Hp as [Hid Hc].
  apply connector_eqb_eq in Hid.
  rewrite (H i Hin Hid) in Hc. discriminate Hc.
Qed.

(** X16.  The mailbox is polled exactly while Gmail is connected with a
    token.  After a successful OAuth sign-in with a non-empty token every
    poll goes out with that token, whatever the connector held before;
    after the connector is then disconnected from the panel a poll tick
    does nothing, whatever the mailbox would answer.  Neither step touches
    the task store. *)
Theorem gmail_polling_follows_connection
  (parseInt : string -> option Z) (token : string) (now : Z) (w : App)
  (i0 : IntegrationConfig) :
  find_integration gmail (integrations w) = Some i0 ->
  truthy token = true ->
  let wc := handleGmailAuthSuccess token now w in
  let wd := handleConnectClick gmail wc in
  (forall now' r,
     pollTick parseInt now' r wc = pollEmails parseInt token now' r wc)
  /\ (forall now' r, pollTick parseInt now' r wd = wd)
  /\ tasks wc = tasks w
  /\ tasks wd = tasks w.
Proof.
  intros Hf Ht wc wd.
  destruct (@gmailIntegration_after_auth token now w i0 Hf Ht)
    as [i [Hg [Hc [Ha Hfi]]]].
  fold wc in Hg, Hfi.
  assert (Hd : gmailIntegration wd = None).
  { apply gmailIntegration_disconnected. intros j Hj Hid.
    exact (proj1 (@handleConnectClick_disconnects wc gmail i j Hfi Hc
                    Hj Hid)). }
  split; [|split; [|split]].
  - intros now' r. unfold pollTick. now rewrite Hg, Ha.
  - intros now' r. unfold pollTick. now rewrite Hd.
  - reflexivity.
  - subst wd. unfold handleConnectClick. rewrite Hfi, Hc. reflexivity.
Qed.

Lemma gmail_polling_follows_connection_witness :
  let wc := handleGmailAuthSuccess "ya29.token" 7 (initial_App 0 "" "") in
  let wd := handleConnectClick gmail wc in
  let mail := HttpResponse 200 "OK"
                [mkGmailMessage "m1" "th1" [] "Hello" "1700" "Invoice"
                   "client@enterprise.com"] in
  map id (tasks (pollTick (fun _ => None) 9 mail wc)) = ["gmail-m1"; "task-1"]
  /\ pollTick (fun _ => None) 9 mail wd = wd.
Proof.
  cbv zeta. split; [reflexivity|].
  exact (proj1 (proj2 (@gmail_polling_follows_connection
                         (fun _ => None) "ya29.token" 7
                         (initial_App 0 "" "") _ eq_refl eq_refl))
           9%Z _).
Defined.

(** X17.  However calls of [processTask] and other events interleave, no
    task has two runs in flight at the same moment: the suspended runs are
    on pairwise different tasks, each of them stored with status
    PROCESSING, and the identifiers of the store are never repeated. *)
Theorem one_run_per_task
  (parseInt : string -> option Z) (now : Z) (userKey envKey : string)
  (es : list Event) :
  plausible_all parseInt (initial_Sys now userKey envKey) es = true ->
  let s := after parseInt (initial_Sys now userKey envKey) es in
  NoDup (map id (tasks (app s)))
  /\ NoDup (map s_taskId (inflight s))
  /\ forall r, In r (inflight s) ->
       exists t, find_task (s_taskId r) (tasks (app s)) = Some t
                 /\ status t = PROCESSING.
Proof.
  intros Hp s.
  destruct (@consistent_after parseInt (initial_Sys now userKey envKey) es
              (consistent_initial now userKey envKey) Hp)
    as [H1 H2 H3].
  split; [exact H1|]. split; [exact H2|].
  intros r Hr. exact (proj2 (H3 r Hr)).
Qed.

Lemma one_run_per_task_witness :
  let es := [ManualDispatch "Second signal" SLACK 5; Submit "task-1";
             Submit "manual-5"; Submit "task-1"] in
  let s := after (fun _ => None) (initial_Sys 0 "" "") es in
  map s_taskId (inflight s) = ["manual-5"; "task-1"]
  /\ NoDup (map s_taskId (inflight s)).
Proof.
  cbv zeta. split; [reflexivity|].
  exact (proj1 (proj2 (@one_run_per_task (fun _ => None) 0%Z "" ""
                         [ManualDispatch "Second signal" SLACK 5;
                          Submit "task-1"; Submit "manual-5";
                          Submit "task-1"]
                         eq_refl))).
Defined.

Lemma header_value_truthy (name fallback : string) (headers : list Header) :
  truthy fallback = true ->
  truthy (header_value name fallback headers) = true.
Proof.
  intros Hf. unfold header_value.
  destruct (find _ headers) as [h|]; [|exact Hf].
  destruct (h_value h) as [v|]; [|exact Hf].
  unfold or_else. destruct (truthy v) eqn:E; assumption.
Qed.

Lemma clean_all_ok (l : list RawEmail) :
  forallb (fun raw => match raw_payload raw with
                      | Some _ => true
                      | None => false
                      end) l = true ->
  exists ms,
    clean_all l = inr ms
    /\ map m_id ms = map raw_id l
    /\ map snippet ms = map raw_snippet l
    /\ forall m, In m ms ->
         truthy (subject m) = true /\ truthy (from m) = true.
Proof.
  induction l as [|raw l IH]; simpl; intros H.
  - exists []. repeat split; contradiction.
  - apply andb_true_iff in H. destruct H as [H1 H2].
    destruct (IH H2) as [ms [Hc [Hi [Hs Ht]]]].
    unfold clean. destruct (raw_payload raw) as [hs|]; [|discriminate H1].
    rewrite Hc. eexists. split; [reflexivity|].
    cbn [map m_id snippet]. rewrite Hi, Hs.
    split; [reflexivity|]. split; [reflexivity|].
    intros m [<-|Hm]; [|now apply Ht].
    cbn [subject from].
    split; now apply header_value_truthy.
Qed.

Lemma clean_all_fails (l : list RawEmail) (raw : RawEmail) :
  In raw l -> raw_payload raw = None -> exists e, clean_all l = inl e.
Proof.
  induction l as [|a l IH]; simpl; intros Hi Hp; [contradiction|].
  destruct (clean a) as [e|m] eqn:Ec; [eauto|].
  destruct Hi as [->|Hi].
  - unfold clean in Ec. rewrite Hp in Ec. discriminate Ec.
  - destruct (IH Hi Hp) as [e ->]. eauto.
Qed.

Lemma fetch_details_ok (detail : string -> DetailOutcome)
  (ids : list string) :
  (forall i e, In i ids -> detail i <> DetailUnparsed e) ->
  exists l, fetch_details detail ids = inr l
            /\ non_null l = delivered detail ids.
Proof.
  induction ids as [|i ids IH]; simpl; intros H.
  - now exists [].
  - destruct IH as [l [Hl Hn]]; [intros j e Hj; apply H; now right|].
    rewrite Hl.
    destruct (detail i) as [e|e|raw] eqn:E.
    + exists (None :: l). now split.
    + exfalso. apply (H i e); [now left | exact E].
    + exists (Some raw :: l). split; [reflexivity|]. simpl. now rewrite Hn.
Qed.

Lemma fetch_details_unparsed (detail : string -> DetailOutcome)
  (ids : list string) (i : string) (e : JsError) :
  In i ids -> detail i = DetailUnparsed e ->
  exists e', fetch_details detail ids = inl e'.
Proof.
  induction ids as [|j ids IH]; simpl; intros Hi Hd; [contradiction|].
  destruct Hi as [->|Hi].
  - rewrite Hd. eauto.
  - destruct (IH Hi Hd) as [e' ->]. destruct (detail j); eauto.
Qed.

Lemma delivered_In (detail : string -> DetailOutcome) (ids : list string)
  (raw : RawEmail) :
  In raw (delivered detail ids) <->
  exists i, In i ids /\ detail i = DetailBody raw.
Proof.
  induction ids as [|j ids IH]; simpl.
  - split; [contradiction | intros [i [[] _]]].
  - destruct (detail j) as [e|e|r] eqn:E; simpl; rewrite IH; split.
    + intros [i [Hi Hd]]. eauto.
    + intros [i [[->|Hi] Hd]]; [congruence | eauto].
    + intros [i [Hi Hd]]. eauto.
    + intros [i [[->|Hi] Hd]]; [congruence | eauto].
    + intros [<-|[i [Hi Hd]]]; eauto.
    + intros [i [[->|Hi] Hd]]; [left; congruence | right; eauto].
Qed.

Lemma forallb_detail_ok (detail : string -> DetailOutcome)
  (ids : list string) :
  forallb (fun i => detail_ok (detail i)) ids = true ->
  (forall i e, In i ids -> detail i <> DetailUnparsed e)
  /\ forallb (fun raw => match raw_payload raw with
                         | Some _ => true
                         | None => false
                         end) (delivered detail ids) = true.
Proof.
  intros H. rewrite forallb_forall in H. split.
  - intros i e Hi Hd. specialize (H i Hi). now rewrite Hd in H.
  - apply forallb_forall. intros raw Hr.
    apply delivered_In in Hr. destruct Hr as [i [Hi Hd]].
    specialize (H i Hi). now rewrite Hd in H.
Qed.

(** The exchange as [pollEmails] meets it gives what the three steps
    give. *)
Lemma fetchRecentEmails_observed (token : string) (r : ListReply)
  (detail : string -> DetailOutcome) :
  fetchRecentEmails token (observed token r detail)
  = fetchRecentEmails_steps token r detail.
Proof.
  destruct r as [e|status statusText body]; [reflexivity|].
  unfold observed.
  destruct (fetchRecentEmails_steps token
              (ListResponded status statusText body) detail)
    as [e|ms] eqn:E; unfold fetchRecentEmails_steps in E;
    destruct (response_ok status) eqn:Hok; cbn [negb] in *.
  - reflexivity.
  - unfold fetchRecentEmails. rewrite Hok. exact E.
  - unfold fetchRecentEmails. now rewrite Hok.
  - discriminate E.
Qed.

(** X18.  When the list request succeeds and every detail request is
    either rejected or answered with a body that has a payload,
    [fetchRecentEmails] returns the answered messages in list order and
    skips the rejected ones.  Subject and sender of a returned message are
    never empty: a missing or empty header gives the default text. *)
Theorem fetch_skips_rejected_details
  (token : string) (status : Z) (statusText : string) (ids : list string)
  (detail : string -> DetailOutcome) :
  response_ok status = true ->
  forallb (fun i => detail_ok (detail i)) ids = true ->
  exists ms,
    fetchRecentEmails_steps token
      (ListResponded status statusText (inr (Some ids))) detail = inr ms
    /\ map m_id ms = map raw_id (delivered detail ids)
    /\ map snippet ms = map raw_snippet (delivered detail ids)
    /\ forall m, In m ms ->
         truthy (subject m) = true /\ truthy (from m) = true.
Proof.
  intros Hok Hd. unfold fetchRecentEmails_steps. rewrite Hok. cbn [negb].
  destruct ids as [|i ids].
  - exists []. repeat split; contradiction.
  - destruct (@forallb_detail_ok detail (i :: ids) Hd) as [H1 H2].
    destruct (@fetch_details_ok detail (i :: ids) H1) as [l [Hl Hn]].
    rewrite Hl, Hn. now apply clean_all_ok.
Qed.

Lemma fetch_skips_rejected_details_witness :
  let detail := fun i =>
    if String.eqb i "m1" then DetailRejected (Error "Failed to fetch")
    else DetailBody (mkRawEmail i "th" [] "Hello" "1700"
                       (Some (Some [mkHeader "From" (Some "a@b.c");
                                    mkHeader "Subject" (Some "")]))) in
  fetchRecentEmails_steps "tok"
    (ListResponded 200 "OK" (inr (Some ["m1"; "m2"]))) detail
  = inr [mkGmailMessage "m2" "th" [] "Hello" "1700" "(No Subject)" "a@b.c"]
  /\ exists ms,
       fetchRecentEmails_steps "tok"
         (ListResponded 200 "OK" (inr (Some ["m1"; "m2"]))) detail = inr ms
       /\ map m_id ms = ["m2"].
Proof.
  cbv zeta. split; [reflexivity|].
  destruct (@fetch_skips_rejected_details "tok" 200%Z "OK" ["m1"; "m2"]
              (fun i =>
                 if String.eqb i "m1"
                 then DetailRejected (Error "Failed to fetch")
                 else DetailBody
                        (mkRawEmail i "th" [] "Hello" "1700"
                           (Some (Some [mkHeader "From" (Some "a@b.c");
                                        mkHeader "Subject" (Some "")]))))
              eq_refl eq_refl) as [ms [H1 [H2 _]]].
  exists ms. split; assumption.
Defined.

(** X19.  One bad detail response is enough to lose the whole batch: when
    a listed message is answered with a body that has no payload (an error
    body, the status of a detail response not being looked at) or with a
    body that is not JSON, [fetchRecentEmails] throws although the list
    request succeeded, and the poll adds no task, not even for the
    messages that were fetched. *)
Theorem bad_detail_loses_the_batch
  (parseInt : string -> option Z) (token : string) (now status : Z)
  (statusText : string) (ids : list string)
  (detail : string -> DetailOutcome) (w : App) :
  response_ok status = true ->
  forallb (fun i => detail_ok (detail i)) ids = false ->
  let r := ListResponded status statusText (inr (Some ids)) in
  (exists e, fetchRecentEmails_steps token r detail = inl e)
  /\ tasks (pollEmails parseInt token now (observed token r detail) w)
     = tasks w.
Proof.
  intros Hok Hbad r.
  assert (Hfail : exists e, fetchRecentEmails_steps token r detail = inl e).
  { assert (Hex : exists i, In i ids /\ detail_ok (detail i) = false).
    { clear -Hbad. induction ids as [|i ids IH]; simpl in Hbad;
        [discriminate|].
      destruct (detail_ok (detail i)) eqn:E.
      - destruct (IH Hbad) as [j [Hj Hd]]. exists j. split; [now right|auto].
      - exists i. split; [now left | exact E]. }
    destruct Hex as [i [Hi Hd]].
    subst r. unfold fetchRecentEmails_steps. rewrite Hok. cbn [negb].
    destruct ids as [|i0 ids]; [contradiction|].
    destruct (fetch_details detail (i0 :: ids)) as [e|l] eqn:El; [eauto|].
    destruct (detail i) as [e|e|raw] eqn:Edi; cbn in Hd;
      [discriminate Hd | |].
    - destruct (@fetch_details_unparsed detail (i0 :: ids) i e Hi Edi)
        as [e' He']. congruence.
    - destruct (raw_payload raw) eqn:Ep; [discriminate Hd|].
      assert (Hin : In raw (non_null l)).
      { assert (Hne : forall j e, In j (i0 :: ids) ->
                        detail j <> DetailUnparsed e).
        { intros j e Hj Hdj.
          destruct (@fetch_details_unparsed detail (i0 :: ids) j e Hj Hdj)
            as [e' He']. congruence. }
        destruct (@fetch_details_ok detail (i0 :: ids) Hne) as [l' [Hl' Hn]].
        assert (l' = l) by congruence. subst l'.
        rewrite Hn. apply delivered_In. eauto. }
      apply (@clean_all_fails (non_null l) raw Hin Ep). }
  split; [exact Hfail|].
  destruct Hfail as [e He].
  pose proof (@pollEmails_on_error parseInt token now
                (observed token r detail) e w) as H.
  rewrite fetchRecentEmails_observed in H. specialize (H He).
  cbv zeta in H.
  destruct (includes "401" (String_of_error e)).
  - exact (proj2 (proj2 H)).
  - now rewrite H.
Qed.

Lemma bad_detail_loses_the_batch_witness :
  let detail := fun i =>
    if String.eqb i "m1"
    then DetailBody (mkRawEmail "m1" "th" [] "Hello" "1700" None)
    else DetailBody (mkRawEmail i "th" [] "Hello" "1700"
                       (Some (Some [mkHeader "From" (Some "a@b.c")]))) in
  let r := ListResponded 200 "OK" (inr (Some ["m2"; "m1"])) in
  response_ok 200 = true
  /\ tasks (pollEmails (fun _ => None) "tok" 9 (observed "tok" r detail)
              (initial_App 0 "" ""))
     = [INITIAL_TASK 0].
Proof.
  cbv zeta. split; [reflexivity|].
  exact (proj2 (@bad_detail_loses_the_batch (fun _ => None) "tok" 9%Z
                  200%Z "OK" ["m2"; "m1"]
                  (fun i =>
                     if String.eqb i "m1"
                     then DetailBody
                            (mkRawEmail "m1" "th" [] "Hello" "1700" None)
                     else DetailBody
                            (mkRawEmail i "th" [] "Hello" "1700"
                               (Some (Some [mkHeader "From"
                                              (Some "a@b.c")]))))
                  (initial_App 0 "" "") eq_refl eq_refl)).
Defined.





(** X22.  An answer that arrives late is written into whatever session is
    current then.  When the history was cleared while the question was
    pending, no session comes back.  When another file was uploaded in
    between, the answer, asked about the old document and computed from
    it, becomes the first message of the new document's history. *)
Theorem late_answer_goes_to_current_session
  (key : string) (now1 now2 now3 : Z) (reply : TextReply) (d d1 : DocState)
  (p : PendingChat) (f : UploadedFile) (sid : string) :
  handleDocChatSubmit_enter now1 d = Some (p, d1) ->
  docSession d = Some (pc_session p)
  /\ docSession
       (fst (handleDocChatSubmit_settle key p now2 reply
               (clearDocSession d1))) = None
  /\ (let r := handleDocChatSubmit_settle key p now2 reply
                 (handleFileUpload_enter f sid now3 d1) in
      exists s',
        docSession (fst r) = Some s'
        /\ ds_id s' = sid
        /\ fileData s' = file_base64 f
        /\ (truthy key = true ->
            (forall t, reply = TextResponded (Some t) -> truthy t = true ->
                       chatHistory s' = [mkChatMessage role_model t now2])
            /\ exists parts,
                 snd r = [InlineData (mimeType (pc_session p))
                            (fileData (pc_session p)) :: parts])
        /\ (truthy key = false ->
            chatHistory s'
            = [mkChatMessage role_model simulated_answer now2])).
Proof.
  unfold handleDocChatSubmit_enter.
  destruct (blank (docChatInput d)); [discriminate|].
  destruct (docSession d) as [s|] eqn:Hs; [|discriminate].
  intros H. injection H as <- <-. cbn [pc_session].
  split; [reflexivity|].
  unfold handleDocChatSubmit_settle, chatWithDocument, chat_parts,
    clearDocSession, handleFileUpload_enter.
  cbn [pc_session pc_history pc_question].
  destruct (truthy key) eqn:Hk; cbn [negb fst snd].
  - split; [now destruct reply as [e|[t|]]|].
    destruct reply as [e|text];
      cbn [fst snd update_session docSession option_map];
      (eexists; split; [reflexivity|]);
      (split; [reflexivity|]); (split; [reflexivity|]);
      (split; [|discriminate]); intros _;
      (split; [|eexists; reflexivity]).
    + discriminate.
    + intros t Ht Htt. injection Ht as ->.
      cbn [chatHistory with_history app]. unfold or_else.
      now rewrite Htt.
  - split; [reflexivity|].
    cbn [fst snd update_session docSession option_map].
    eexists. split; [reflexivity|]. split; [reflexivity|].
    split; [reflexivity|]. split; [discriminate|]. intros _. reflexivity.
Qed.

Lemma late_answer_goes_to_current_session_witness :
  let s := mkDocumentSession "abc" "plan.pdf" "JVBERi0=" "application/pdf" 1
             "Summary" [] false in
  let d := mkDocState (Some s) "What is the deadline?" false in
  let p := mkPendingChat s [mkChatMessage role_user "What is the deadline?" 2]
             "What is the deadline?" in
  let d1 := mkDocState
              (Some (with_history (pc_history p) true s)) EmptyString false in
  handleDocChatSubmit_enter 2 d = Some (p, d1)
  /\ docSession
       (fst (handleDocChatSubmit_settle "key" p 4
               (TextResponded (Some "Friday.")) (clearDocSession d1)))
     = None.
Proof.
  cbv zeta. split; [reflexivity|].
  exact (proj1 (proj2
           (@late_answer_goes_to_current_session "key" 2%Z 4%Z 3%Z
              (TextResponded (Some "Friday."))
              (mkDocState
                 (Some (mkDocumentSession "abc" "plan.pdf" "JVBERi0="
                          "application/pdf" 1 "Summary" [] false))
                 "What is the deadline?" false)
              _ _ (mkUploadedFile "other.pdf" "application/pdf" "AAAA")
              "xyz" eq_refl))).
Defined.

Lemma earlier_run_stages_inr (envKey : string) (task : Task) (b : Backend)
  (ft : Task) :
  outcome (earlier_run_stages envKey task b) = inr ft ->
  id ft = id task /\ status ft = COMPLETED.
Proof.
  unfold earlier_run_stages. unfold_stages.
  destruct (truthy envKey);
    destruct (classifier_reply b) as [e|[[|a s]|] [e| |c]];
    destruct (decision_reply b) as [e'|[[|a' s']|] [e'| |d]];
    eval_stages; try discriminate;
    try (intros H; injection H as <-; now split);
    destruct (d_outputType d);
    destruct (execution_reply b) as [e2|[t2|]];
    eval_stages; intros H; injection H as <-; now split.
Qed.

(** X23.  In the first and third revisions a missing environment key
    does not fail a run and does not simulate one: every agent falls back,
    no request is sent, and the task ends COMPLETED as of type UNKNOWN,
    for manual review, with output kind NONE and the output content it had
    before.  The current revision, on the same input, completes the task
    with a simulated draft. *)
Theorem earlier_revisions_fall_back_without_key
  (envKey : string) (task : Task) (b : Backend) :
  truthy envKey = false ->
  calls (earlier_run_stages envKey task b) = []
  /\ (exists t,
        outcome (earlier_run_stages envKey task b) = inr t
        /\ status t = COMPLETED
        /\ type t = Some UNKNOWN
        /\ priority t = Some MEDIUM
        /\ summary t = Some "Failed to classify automatically."
        /\ action t = Some "Manual Review Required"
        /\ outputType t = Some NONE
        /\ outputContent t = outputContent task)
  /\ exists t2 o,
       outcome (run_stages envKey task b) = inr t2
       /\ action t2 = Some "Draft Content"
       /\ outputContent t2 = Some o.
Proof.
  intros Hk. unfold earlier_run_stages. unfold_stages. rewrite Hk.
  eval_stages. split; [reflexivity|]. split.
  - eexists. split; [reflexivity|]. now repeat split.
  - eexists. eexists. split; [reflexivity|]. now split.
Qed.

Lemma earlier_revisions_fall_back_without_key_witness :
  option_map action
    (match outcome (earlier_run_stages EmptyString (INITIAL_TASK 0)
                      null_decision_backend) with
     | inr t => Some t
     | inl _ => None
     end)
  = Some (Some "Manual Review Required")
  /\ calls (earlier_run_stages EmptyString (INITIAL_TASK 0)
              null_decision_backend) = [].
Proof.
  split; [reflexivity|].
  exact (proj1 (@earlier_revisions_fall_back_without_key EmptyString
                  (INITIAL_TASK 0) null_decision_backend eq_refl)).
Defined.

(** X24.  The first revision of [processTask] looks at the global flag
    only.  While [isProcessing] is set it does nothing; when the component
    is idle it runs any stored task again, a COMPLETED one included: the
    trace is replaced, and the task ends as the final task of the new run
    or, when the run fails, with status FAILED. *)
Theorem rev1_runs_any_task_when_idle
  (envKey taskId : string) (b : Backend) (w : Rev1.App) (task : Task) :
  find_task taskId (Rev1.tasks w) = Some task ->
  let w' := rev1_processTask envKey taskId b w in
  if Rev1.isProcessing w then w' = w
  else
    Rev1.isProcessing w' = false
    /\ find_task taskId (Rev1.tasks w')
       = Some match outcome (earlier_run_stages envKey task b) with
              | inr ft => ft
              | inl _ => with_status FAILED (with_status PROCESSING task)
              end
    /\ exists final,
         Rev1.logs w'
         = (emitted (earlier_run_stages envKey task b) ++ [final])%list.
Proof.
  intros Hf w'. subst w'.
  unfold rev1_processTask, Rev1.processTask_enter. rewrite Hf.
  destruct (Rev1.isProcessing w); [reflexivity|].
  pose proof (find_task_id _ _ Hf) as Hid.
  unfold rev1_settle. cbn [Rev1.logs Rev1.tasks app].
  destruct (outcome (earlier_run_stages envKey task b)) as [e|ft] eqn:Ho;
    cbn [Rev1.isProcessing Rev1.tasks Rev1.logs].
  - split; [reflexivity|]. split; [|eauto].
    rewrite find_task_update by (intros; assumption).
    rewrite find_task_update by (intros; assumption).
    rewrite Hf. cbn [option_map]. rewrite Hid, String.eqb_refl.
    cbn [id with_status]. now rewrite Hid, String.eqb_refl.
  - apply earlier_run_stages_inr in Ho. destruct Ho as [Hi _].
    split; [reflexivity|]. split; [|eauto].
    rewrite find_task_update by (intros; congruence).
    rewrite find_task_update by (intros; assumption).
    rewrite Hf. cbn [option_map]. rewrite Hid, String.eqb_refl.
    cbn [id with_status]. now rewrite Hid, String.eqb_refl.
Qed.

Lemma rev1_runs_any_task_when_idle_witness :
  let done := with_outputContent (Some "# PRD")
                (with_status COMPLETED (INITIAL_TASK 0)) in
  let w := Rev1.mkApp [done] [] false in
  let w' := rev1_processTask "key" "task-1" null_decision_backend w in
  Rev1.isProcessing w' = false /\ map status (Rev1.tasks w') = [FAILED].
Proof.
  cbv zeta.
  pose proof (@rev1_runs_any_task_when_idle "key" "task-1"
                null_decision_backend
                (Rev1.mkApp
                   [with_outputContent (Some "# PRD")
                      (with_status COMPLETED (INITIAL_TASK 0))] [] false)
                _ eq_refl) as H.
  cbv zeta in H. cbn [Rev1.isProcessing] in H.
  split; [exact (proj1 H) | reflexivity].
Defined.



Lemma update_task_fixed (k : string) (f : Task -> Task) (l : list Task) :
  (forall x, In x l -> id x = k -> f x = x) ->
  update_task k f l = l.
Proof.
  unfold update_task. induction l as [|a l IH]; simpl; intros H;
    [reflexivity|].
  rewrite IH by (intros x Hx; apply H; now right).
  destruct (String.eqb_spec (id a) k) as [E|E]; [|reflexivity].
  now rewrite (H a (or_introl eq_refl) E).
Qed.

(** X26.  Saving an edit writes the text into the selected task and into
    no other, and leaves the status as it is.  Opening the editor on a
    task that has output and saving without a change leaves the task
    store exactly as it was; the trace still records a manual update. *)
Theorem edit_round_trip
  (w : App) (sel : string) (t : Task) (c edited : string) :
  NoDup (map id (tasks w)) ->
  selectedTaskId w = Some sel ->
  truthy sel = true ->
  find_task sel (tasks w) = Some t ->
  outputContent t = Some c ->
  tasks (handleSaveEdit (handleStartEdit t) w) = tasks w
  /\ logs (handleSaveEdit (handleStartEdit t) w)
     = (logs w
        ++ [mkLog INPUT "User manually updated the generated content."
              ACTION None])%list
  /\ find_task sel (tasks (handleSaveEdit edited w))
     = Some (with_outputContent (Some edited) t)
  /\ forall k, k <> sel ->
       find_task k (tasks (handleSaveEdit edited w))
       = find_task k (tasks w).
Proof.
  intros Hn Hs Ht Hf Hc.
  pose proof (find_task_id _ _ Hf) as Hid.
  split; [|split; [|split]].
  - rewrite (@tasks_handleSaveEdit _ sel w Hs Ht).
    apply update_task_fixed. intros x Hx Hxid.
    pose proof (@find_task_NoDup (tasks w) x Hn Hx) as Hfx.
    rewrite Hxid, Hf in Hfx. injection Hfx as <-.
    unfold handleStartEdit. rewrite Hc.
    destruct t; cbn in *; now subst.
  - unfold handleSaveEdit. now rewrite Hs, Ht.
  - rewrite (@tasks_handleSaveEdit edited sel w Hs Ht).
    rewrite find_task_update by (intros; assumption).
    rewrite Hf. cbn [option_map]. now rewrite Hid, String.eqb_refl.
  - intros k Hk.
    rewrite (@tasks_handleSaveEdit edited sel w Hs Ht).
    rewrite find_task_update by (intros; assumption).
    destruct (find_task k (tasks w)) as [x|] eqn:Hfk; [|reflexivity].
    cbn [option_map]. apply find_task_id in Hfk.
    destruct (String.eqb_spec (id x) sel); [congruence|reflexivity].
Qed.

Lemma edit_round_trip_witness :
  let w := setSelectedTaskId (Some "task-1")
             (processTask "task-1" null_decision_backend
                (initial_App 0 "" "")) in
  tasks (handleSaveEdit
           (handleStartEdit
              (match find_task "task-1" (tasks w) with
               | Some t => t
               | None => INITIAL_TASK 0
               end)) w)
  = tasks w.
Proof.
  cbv zeta.
  assert (Hn : NoDup (map id
                        (tasks (setSelectedTaskId (Some "task-1")
                                  (processTask "task-1"
                                     null_decision_backend
                                     (initial_App 0 "" ""))))))
    by (apply nodupb_NoDup; reflexivity).
  exact (proj1 (@edit_round_trip
                  (setSelectedTaskId (Some "task-1")
                     (processTask "task-1" null_decision_backend
                        (initial_App 0 "" "")))
                  "task-1" _ _ "other" Hn eq_refl eq_refl eq_refl
                  eq_refl)).
Defined.

Lemma run_stages_calls_nil (key : string) (task : Task) (b : Backend) :
  calls (run_stages key task b) = [] <-> truthy key = false.
Proof.
  destruct (truthy key) eqn:Hk; split; try reflexivity; try discriminate.
  - unfold_stages. rewrite Hk.
    destruct (classifier_reply b) as [e|[[|a s]|] [e| |c]];
      destruct (decision_reply b) as [e'|[[|a' s']|] [e'| |d]];
      eval_stages; try discriminate;
      destruct (d_outputType d);
      destruct (execution_reply b) as [e2|[t2|]];
      eval_stages; discriminate.
  - intros _. unfold_stages. now rewrite Hk.
Qed.

(** X27.  The key typed in Settings overrides the environment's key and
    is what a reload reads back.  A run after the change sends no request
    exactly when the typed key is empty and the environment has none,
    which is also exactly when the stream simulation is switched on;
    tasks, trace and connectors are not touched by the change. *)
Theorem typed_key_overrides_env_key
  (newVal : string) (w : App) (task : Task) (b : Backend) :
  let w' := fst (handleApiKeyChange newVal w) in
  stored_userApiKey (snd (handleApiKeyChange newVal w)) = userApiKey w'
  /\ effectiveKey w' = (if truthy newVal then newVal else env_API_KEY w)
  /\ (calls (run_stages (effectiveKey w') task b) = []
      <-> truthy newVal = false /\ truthy (env_API_KEY w) = false)
  /\ (simulationEnabled w' = true
      <-> truthy newVal = false /\ truthy (env_API_KEY w) = false)
  /\ tasks w' = tasks w /\ logs w' = logs w
  /\ integrations w' = integrations w.
Proof.
  cbv zeta. unfold handleApiKeyChange. cbn [fst snd stored_userApiKey].
  split; [reflexivity|].
  assert (He : effectiveKey (setUserApiKey newVal w)
               = if truthy newVal then newVal else env_API_KEY w)
    by reflexivity.
  split; [exact He|]. split; [|split; [|now repeat split]].
  - rewrite run_stages_calls_nil, He.
    destruct (truthy newVal) eqn:Hv; [|tauto].
    rewrite Hv. split; [discriminate | intros [H _]; discriminate H].
  - unfold simulationEnabled, setUserApiKey. cbn [env_API_KEY userApiKey].
    destruct (truthy newVal), (truthy (env_API_KEY w)); cbn;
      split; try tauto; try discriminate; intros [H1 H2]; discriminate.
Qed.
